(** * Quest Chronicles: character progression, combat and inventory

    A shallow embedding of [character_manager.py], [combat_system.py] and
    [inventory_system.py], and the properties of the design document that
    are about them.

    Python integers are unbounded, hence [Z]; [//] is floor division, which
    is [Z.div] for the positive divisors the code uses.  Character and enemy
    dictionaries are used as structs and become records; the item tables
    are probed by key at run time and stay dictionaries ([gmap]).  A function
    that mutates its arguments and may raise is a state transformer that
    returns the final state together with either the exception or the
    returned value, so that what a failing call leaves behind is visible. *)

From Stdlib Require Import ZArith QArith Lia Ascii DecimalString DecimalPos.
From stdpp Require Import gmap strings list fin_maps.

Local Open Scope string_scope.
Local Open Scope Z_scope.

(* ===================================================================== *)
(** ** Exceptions and the state-and-exception monad                      *)
(* ===================================================================== *)

(** The exceptions of [custom_exceptions] that the three modules raise, and
    the built-in ones their dictionary and string operations can raise. *)
Inductive exn : Type :=
| InvalidCharacterClassError
| CharacterDeadError
| CombatNotActiveError
| InvalidTargetError
| InventoryFullError
| ItemNotFoundError
| InsufficientResourcesError
| InvalidItemTypeError
| ValueError
| KeyError
| TypeError
| AttributeError
| UnboundLocalError.

#[global] Instance exn_eq_dec : EqDecision exn.
Proof. solve_decision. Defined.

(** [Py S A]: a Python call that runs on a mutable state [S]. *)
Definition Py (S A : Type) : Type := S -> S * (exn + A).

Definition ret {S A} (a : A) : Py S A := fun s => (s, inr a).
Definition raise {S A} (e : exn) : Py S A := fun s => (s, inl e).
Definition bind {S A B} (m : Py S A) (k : A -> Py S B) : Py S B :=
  fun s => match m s with
           | (s', inr a) => k a s'
           | (s', inl e) => (s', inl e)
           end.
Definition gets {S A} (f : S -> A) : Py S A := fun s => (s, inr (f s)).
Definition modify {S} (f : S -> S) : Py S unit := fun s => (f s, inr tt).

Declare Scope py_scope.
Delimit Scope py_scope with py.
Notation "x <- m ;; k" := (bind m (fun x => k))
  (at level 100, m at next level, right associativity) : py_scope.
Notation "m ;; k" := (bind m (fun _ => k))
  (at level 100, right associativity) : py_scope.

(** The outcome of a run is the exception [e]. *)
Definition raises {S A} (r : S * (exn + A)) (e : exn) : Prop := r.2 = inl e.

(* ===================================================================== *)
(** ** The character record                                              *)
(* ===================================================================== *)

(** The keys [create_character] writes, the two equipment slots the
    inventory module reads with [.get] (a missing key and [None] are the
    same to every such read), and [extras]: integer keys that
    [apply_stat_effect] creates when an effect names a stat the dictionary
    does not have.  [inventory] is [None] when the key is missing or holds
    [None], the case [_ensure_inventory] repairs. *)
Record Character : Type := mkCharacter {
  name : string;
  class : string;
  level : Z;
  health : Z;
  max_health : Z;
  strength : Z;
  magic : Z;
  experience : Z;
  gold : Z;
  inventory : option (list string);
  active_quests : list string;
  completed_quests : list string;
  equipped_weapon : option string;
  equipped_armor : option string;
  extras : gmap string Z
}.

Definition set_level (v : Z) (c : Character) : Character :=
  mkCharacter (name c) (class c) v (health c) (max_health c) (strength c)
    (magic c) (experience c) (gold c) (inventory c) (active_quests c)
    (completed_quests c) (equipped_weapon c) (equipped_armor c) (extras c).
Definition set_health (v : Z) (c : Character) : Character :=
  mkCharacter (name c) (class c) (level c) v (max_health c) (strength c)
    (magic c) (experience c) (gold c) (inventory c) (active_quests c)
    (completed_quests c) (equipped_weapon c) (equipped_armor c) (extras c).
Definition set_max_health (v : Z) (c : Character) : Character :=
  mkCharacter (name c) (class c) (level c) (health c) v (strength c)
    (magic c) (experience c) (gold c) (inventory c) (active_quests c)
    (completed_quests c) (equipped_weapon c) (equipped_armor c) (extras c).
Definition set_strength (v : Z) (c : Character) : Character :=
  mkCharacter (name c) (class c) (level c) (health c) (max_health c) v
    (magic c) (experience c) (gold c) (inventory c) (active_quests c)
    (completed_quests c) (equipped_weapon c) (equipped_armor c) (extras c).
Definition set_magic (v : Z) (c : Character) : Character :=
  mkCharacter (name c) (class c) (level c) (health c) (max_health c)
    (strength c) v (experience c) (gold c) (inventory c) (active_quests c)
    (completed_quests c) (equipped_weapon c) (equipped_armor c) (extras c).
Definition set_experience (v : Z) (c : Character) : Character :=
  mkCharacter (name c) (class c) (level c) (health c) (max_health c)
    (strength c) (magic c) v (gold c) (inventory c) (active_quests c)
    (completed_quests c) (equipped_weapon c) (equipped_armor c) (extras c).
Definition set_gold (v : Z) (c : Character) : Character :=
  mkCharacter (name c) (class c) (level c) (health c) (max_health c)
    (strength c) (magic c) (experience c) v (inventory c) (active_quests c)
    (completed_quests c) (equipped_weapon c) (equipped_armor c) (extras c).
Definition set_inventory (v : option (list string)) (c : Character) : Character :=
  mkCharacter (name c) (class c) (level c) (health c) (max_health c)
    (strength c) (magic c) (experience c) (gold c) v (active_quests c)
    (completed_quests c) (equipped_weapon c) (equipped_armor c) (extras c).
Definition set_equipped_weapon (v : option string) (c : Character) : Character :=
  mkCharacter (name c) (class c) (level c) (health c) (max_health c)
    (strength c) (magic c) (experience c) (gold c) (inventory c)
    (active_quests c) (completed_quests c) v (equipped_armor c) (extras c).
Definition set_equipped_armor (v : option string) (c : Character) : Character :=
  mkCharacter (name c) (class c) (level c) (health c) (max_health c)
    (strength c) (magic c) (experience c) (gold c) (inventory c)
    (active_quests c) (completed_quests c) (equipped_weapon c) v (extras c).
Definition set_extras (v : gmap string Z) (c : Character) : Character :=
  mkCharacter (name c) (class c) (level c) (health c) (max_health c)
    (strength c) (magic c) (experience c) (gold c) (inventory c)
    (active_quests c) (completed_quests c) (equipped_weapon c)
    (equipped_armor c) v.

(** The items carried: the list under ["inventory"], empty when there is
    none. *)
Definition items (c : Character) : list string := default [] (inventory c).

(** The invariant of the data model on health. *)
Definition health_in_bounds (c : Character) : Prop :=
  0 <= health c <= max_health c.

(* ===================================================================== *)
(** ** character_manager.py                                              *)
(* ===================================================================== *)

Record BaseStats : Type := mkBase {
  base_health : Z;
  base_strength : Z;
  base_magic : Z
}.

Definition valid_classes : gmap string BaseStats :=
  <["Warrior" := mkBase 120 15 5]>
  (<["Mage" := mkBase 80 8 20]>
  (<["Rogue" := mkBase 90 12 10]>
  (<["Cleric" := mkBase 100 10 15]> ∅))).

Definition create_character (name0 character_class : string)
  : exn + Character :=
  match valid_classes !! character_class with
  | None => inl InvalidCharacterClassError
  | Some base =>
      inr {| name := name0;
             class := character_class;
             level := 1;
             health := base_health base;
             max_health := base_health base;
             strength := base_strength base;
             magic := base_magic base;
             experience := 0;
             gold := 100;
             inventory := Some [];
             active_quests := [];
             completed_quests := [];
             equipped_weapon := None;
             equipped_armor := None;
             extras := ∅ |}
  end.

Definition is_character_dead (c : Character) : bool := health c <=? 0.

(** One pass through the body of the [while] loop of [gain_experience]. *)
Definition level_up (c : Character) : Character :=
  let c := set_experience (experience c - level c * 100) c in
  let c := set_level (level c + 1) c in
  let c := set_max_health (max_health c + 10) c in
  let c := set_strength (strength c + 2) c in
  let c := set_magic (magic c + 2) c in
  set_health (max_health c) c.

(** The loop, with [leveled_up] as its local variable.  The loop is not
    structurally recursive; it runs on fuel, and [loop_fuel] below is
    proved to be enough for every character. *)
Fixpoint level_up_loop (fuel : nat) (leveled_up : bool) : Py Character bool :=
  fun c =>
    match fuel with
    | O => (c, inr leveled_up)
    | S fuel' =>
        if level c * 100 <=? experience c
        then level_up_loop fuel' true (level_up c)
        else (c, inr leveled_up)
    end.

(** A bound on the number of iterations.  From a level below 1 each pass
    raises the level by one until it is 1; from then on each pass takes at
    least 100 from [experience]. *)
Definition loop_fuel (c : Character) : nat :=
  Nat.add
    (Z.to_nat (1 - level c))
    (Z.to_nat (experience c +
               (if level c <=? 0 then 50 * level c * (level c - 1) else 0))).

Definition level_up_cascade (leveled_up : bool) : Py Character bool :=
  fun c => level_up_loop (loop_fuel c) leveled_up c.

Definition gain_experience (xp_amount : Z) : Py Character bool :=
  (dead <- gets is_character_dead ;;
   if dead : bool then raise CharacterDeadError
   else
     modify (fun c => set_experience (experience c + xp_amount) c) ;;
     level_up_cascade false)%py.

Definition heal_character (amount : Z) : Py Character Z :=
  (if amount <? 0 then raise ValueError
   else
     old_health <- gets health ;;
     modify (fun c => set_health (Z.min (health c + amount) (max_health c)) c) ;;
     new_health <- gets health ;;
     ret (new_health - old_health))%py.

Definition revive_character : Py Character bool :=
  (dead <- gets is_character_dead ;;
   if negb dead then ret false
   else
     modify (fun c => set_health (max_health c / 2) c) ;;
     ret true)%py.

(* ===================================================================== *)
(** ** combat_system.py                                                  *)
(* ===================================================================== *)

Module Enemy.
Record t : Type := mk {
  name : string;
  type : string;
  health : Z;
  max_health : Z;
  strength : Z;
  magic : Z;
  xp_reward : Z;
  gold_reward : Z
}.

Definition set_health (v : Z) (e : t) : t :=
  mk (name e) (type e) v (max_health e) (strength e) (magic e)
     (xp_reward e) (gold_reward e).
End Enemy.

(** [str.lower] on the ASCII letters. *)
Definition lower_ascii (a : ascii) : ascii :=
  let n := nat_of_ascii a in
  if (Nat.leb 65 n && Nat.leb n 90)%bool then ascii_of_nat (n + 32) else a.

Fixpoint lower (s : string) : string :=
  match s with
  | EmptyString => EmptyString
  | String a s' => String (lower_ascii a) (lower s')
  end.

Definition templates : gmap string Enemy.t :=
  <["goblin" := Enemy.mk "Goblin" "goblin" 50 50 8 2 25 10]>
  (<["orc" := Enemy.mk "Orc" "orc" 80 80 12 5 50 25]>
  (<["dragon" := Enemy.mk "Dragon" "dragon" 200 200 25 15 200 100]> ∅)).

Definition create_enemy (enemy_type : string) : exn + Enemy.t :=
  match templates !! lower enemy_type with
  | None => inl InvalidTargetError
  | Some template => inr template
  end.

Definition get_random_enemy_for_level (character_level : Z) : exn + Enemy.t :=
  if character_level <=? 2 then create_enemy "goblin"
  else if character_level <=? 5 then create_enemy "orc"
  else create_enemy "dragon".

Definition generate_enemy (character_level : Z) : exn + Enemy.t :=
  get_random_enemy_for_level character_level.

(** [calculate_damage] reads ["strength"] of whatever dictionaries it is
    given; both records provide it. *)
Class Combatant (A : Type) : Type := strength_of : A -> Z.
#[global] Instance character_combatant : Combatant Character := strength.
#[global] Instance enemy_combatant : Combatant Enemy.t := Enemy.strength.

(** The value of ["winner"]: Python's [None], or one of three strings. *)
Inductive Winner : Type := player | enemy | none.

#[global] Instance Winner_eq_dec : EqDecision Winner.
Proof. solve_decision. Defined.

Record BattleResult : Type := mkResult {
  winner : option Winner;
  xp_gained : Z;
  gold_gained : Z
}.

(** A [SimpleBattle] object.  It holds references to the two dictionaries
    it was built from; the battle is the only one to touch them while it
    runs, so they are kept in the record. *)
Record SimpleBattle : Type := mkBattle {
  character : Character;
  the_enemy : Enemy.t;
  combat_active : bool;
  turn_counter : Z;
  battle_result : option BattleResult
}.

Definition set_character (c : Character) (b : SimpleBattle) : SimpleBattle :=
  mkBattle c (the_enemy b) (combat_active b) (turn_counter b) (battle_result b).
Definition set_enemy (e : Enemy.t) (b : SimpleBattle) : SimpleBattle :=
  mkBattle (character b) e (combat_active b) (turn_counter b) (battle_result b).
Definition set_combat_active (v : bool) (b : SimpleBattle) : SimpleBattle :=
  mkBattle (character b) (the_enemy b) v (turn_counter b) (battle_result b).
Definition set_turn_counter (v : Z) (b : SimpleBattle) : SimpleBattle :=
  mkBattle (character b) (the_enemy b) (combat_active b) v (battle_result b).
Definition set_battle_result (v : option BattleResult) (b : SimpleBattle)
  : SimpleBattle :=
  mkBattle (character b) (the_enemy b) (combat_active b) (turn_counter b) v.

(** [SimpleBattle.__init__] *)
Definition init_battle (c : Character) (e : Enemy.t) : SimpleBattle :=
  mkBattle c e false 0 None.

(** Run a call on the character and the enemy of a battle. *)
Definition on_fighters {A} (m : Py (Character * Enemy.t) A)
  : Py SimpleBattle A :=
  fun b => let '((c', e'), r) := m (character b, the_enemy b) in
           (set_enemy e' (set_character c' b), r).

Definition start_battle : Py SimpleBattle BattleResult :=
  (dead <- gets (fun b => is_character_dead (character b)) ;;
   if dead : bool then raise CharacterDeadError
   else
     modify (set_combat_active true) ;;
     modify (set_turn_counter 1) ;;
     let result := mkResult None 0 0 in
     modify (set_battle_result (Some result)) ;;
     ret result)%py.

Definition start : Py SimpleBattle BattleResult := start_battle.

Definition calculate_damage `{Combatant A} `{Combatant D}
  (attacker : A) (defender : D) : Z :=
  let damage_amount := strength_of attacker - strength_of defender / 4 in
  if damage_amount <? 1 then 1 else damage_amount.

Definition check_battle_end : Py SimpleBattle (option Winner) :=
  fun b =>
    if health (character b) <=? 0
    then (set_combat_active false b, inr (Some enemy))
    else if Enemy.health (the_enemy b) <=? 0
    then (set_combat_active false b, inr (Some player))
    else (b, inr None).

(** The [target] argument of [apply_damage] is one of the two dictionaries
    of the battle. *)
Inductive Target : Type := at_character | at_enemy.

Definition target_health (t : Target) (b : SimpleBattle) : Z :=
  match t with
  | at_character => health (character b)
  | at_enemy => Enemy.health (the_enemy b)
  end.

Definition set_target_health (t : Target) (v : Z) (b : SimpleBattle)
  : SimpleBattle :=
  match t with
  | at_character => set_character (set_health v (character b)) b
  | at_enemy => set_enemy (Enemy.set_health v (the_enemy b)) b
  end.

Definition apply_damage (target : Target) (damage : Z) : Py SimpleBattle unit :=
  (modify (fun b => set_target_health target (target_health target b - damage) b) ;;
   h <- gets (target_health target) ;;
   (if h <? 0 then modify (set_target_health target 0) else ret tt) ;;
   ended <- check_battle_end ;;
   if ended is Some _ then modify (set_combat_active false) else ret tt)%py.

(** [rnd] is the number [random.random()] returns when it is called. *)
Definition below_half (rnd : Q) : bool := negb (Qle_bool (1 # 2) rnd).

Definition attempt_escape (rnd : Q) : Py SimpleBattle bool :=
  (active <- gets combat_active ;;
   if negb active then raise CombatNotActiveError
   else
     let success := below_half rnd in
     (if success then modify (set_combat_active false) else ret tt) ;;
     ret success)%py.

Definition get_victory_rewards (e : Enemy.t) : Z * Z :=
  (Enemy.xp_reward e, Enemy.gold_reward e).

(** The special abilities mutate the character and the enemy they are
    given.  Their return value is a message for the player, which is not
    modelled. *)
Definition damage_enemy (damage : Z) : Py (Character * Enemy.t) unit :=
  (modify (fun '(c, e) => (c, Enemy.set_health (Enemy.health e - damage) e)) ;;
   h <- gets (fun '(_, e) => Enemy.health e) ;;
   if h <? 0 then modify (fun '(c, e) => (c, Enemy.set_health 0 e)) else ret tt)%py.

Definition warrior_power_strike : Py (Character * Enemy.t) unit :=
  (damage <- gets (fun '(c, _) => strength c * 2) ;;
   damage_enemy damage)%py.

Definition mage_fireball : Py (Character * Enemy.t) unit :=
  (damage <- gets (fun '(c, _) => magic c * 2) ;;
   damage_enemy damage)%py.

Definition rogue_critical_strike (rnd : Q) : Py (Character * Enemy.t) unit :=
  (let crit := below_half rnd in
   damage <- gets (fun '(c, _) => if crit then strength c * 3 else strength c) ;;
   damage_enemy damage)%py.

Definition cleric_heal : Py Character unit :=
  (let heal_amount := 30 in
   modify (fun c => set_health (Z.min (health c + heal_amount) (max_health c)) c))%py.

Definition on_fst {A B X} (m : Py A X) : Py (A * B) X :=
  fun '(a, b) => let '(a', r) := m a in ((a', b), r).

Definition use_special_ability (rnd : Q) : Py (Character * Enemy.t) unit :=
  (char_class <- gets (fun '(c, _) => class c) ;;
   if decide (char_class = "Warrior") then warrior_power_strike
   else if decide (char_class = "Mage") then mage_fireball
   else if decide (char_class = "Rogue") then rogue_critical_strike rnd
   else if decide (char_class = "Cleric") then on_fst cleric_heal
   else ret tt)%py.

(** [choice] is the line read from the player, stripped. *)
Definition player_turn (choice : string) (rnd : Q) : Py SimpleBattle unit :=
  (active <- gets combat_active ;;
   if negb active then raise CombatNotActiveError
   else
     escaped <-
       (if decide (choice = "1") then
          damage <- gets (fun b => strength (character b)) ;;
          apply_damage at_enemy damage ;;
          ret false
        else if decide (choice = "2") then
          on_fighters (use_special_ability rnd) ;;
          ret false
        else if decide (choice = "3") then
          ok <- attempt_escape rnd ;;
          if ok : bool then
            modify (set_battle_result (Some (mkResult (Some none) 0 0))) ;;
            ret true
          else ret false
        else ret false) ;;
     if escaped : bool then ret tt
     else
       w <- check_battle_end ;;
       (if decide (w = Some player) then
          rewards <- gets (fun b => get_victory_rewards (the_enemy b)) ;;
          modify (set_battle_result
                    (Some (mkResult (Some player) rewards.1 rewards.2)))
        else ret tt) ;;
       modify (fun b => set_turn_counter (turn_counter b + 1) b))%py.

Definition enemy_turn : Py SimpleBattle unit :=
  (active <- gets combat_active ;;
   if negb active then raise CombatNotActiveError
   else
     damage <- gets (fun b => Enemy.strength (the_enemy b)) ;;
     apply_damage at_character damage ;;
     w <- check_battle_end ;;
     (if decide (w = Some enemy) then
        modify (set_battle_result (Some (mkResult (Some enemy) 0 0)))
      else ret tt) ;;
     modify (fun b => set_turn_counter (turn_counter b + 1) b))%py.

(* ===================================================================== *)
(** ** inventory_system.py                                               *)
(* ===================================================================== *)

Definition MAX_INVENTORY_SIZE : Z := 20.

(** *** Strings: [str.split(":", 1)] and [int()] *)

(** [s.split(":", 1)] when it yields two parts: the text before the first
    colon and the text after it. *)
Fixpoint split_colon (s : string) : option (string * string) :=
  match s with
  | EmptyString => None
  | String a s' =>
      if decide (a = ":"%char) then Some (EmptyString, s')
      else match split_colon s' with
           | Some (l, r) => Some (String a l, r)
           | None => None
           end
  end.

Definition is_space (a : ascii) : bool :=
  let n := nat_of_ascii a in
  ((Nat.leb 9 n && Nat.leb n 13) || (Nat.leb 28 n && Nat.leb n 32))%bool.

Definition is_digit (a : ascii) : bool :=
  let n := nat_of_ascii a in (Nat.leb 48 n && Nat.leb n 57)%bool.

Definition digit_value (a : ascii) : Z := Z.of_nat (nat_of_ascii a) - 48.

Fixpoint lstrip (s : string) : string :=
  match s with
  | String a s' => if is_space a then lstrip s' else s
  | EmptyString => EmptyString
  end.

Definition strip (s : string) : string :=
  String.rev (lstrip (String.rev (lstrip s))).

(** Decimal digits, with single underscores allowed between two digits. *)
Fixpoint parse_digits (acc : Z) (after_digit : bool) (s : string) : option Z :=
  match s with
  | EmptyString => if after_digit then Some acc else None
  | String a s' =>
      if is_digit a then parse_digits (acc * 10 + digit_value a) true s'
      else if decide (a = "_"%char)
           then (if after_digit then parse_digits acc false s' else None)
      else None
  end.

(** [int(s)] for an ASCII string, [None] where Python raises [ValueError]. *)
Definition py_int (s : string) : option Z :=
  match strip s with
  | String "+"%char r => parse_digits 0 false r
  | String "-"%char r => Z.opp <$> parse_digits 0 false r
  | r => parse_digits 0 false r
  end.

Definition parse_item_effect (effect_string : string) : exn + (string * Z) :=
  match split_colon effect_string with
  | None => inl ValueError
  | Some (stat, value) =>
      match py_int value with
      | None => inl ValueError
      | Some v => inr (stat, v)
      end
  end.

(** *** Item dictionaries *)

(** The fields of an item record hold strings and integers.  [item_data]
    is a dictionary that is either one such record or a table of them, and
    the code tells the two apart by looking for the key ["type"]. *)
Inductive atom : Type := AStr (s : string) | AInt (z : Z).
Inductive pyval : Type := VAtom (a : atom) | VDict (d : gmap string atom).

#[global] Instance atom_eq_dec : EqDecision atom.
Proof. solve_decision. Defined.
#[global] Instance pyval_eq_dec : EqDecision pyval.
Proof. solve_decision. Defined.

(** A single item record, written as the top-level dictionary. *)
Definition single (item : gmap string atom) : gmap string pyval :=
  VAtom <$> item.

(** A table of item records. *)
Definition table (t : gmap string (gmap string atom)) : gmap string pyval :=
  VDict <$> t.

(** What [_resolve_item_info] returns: the dictionary it was given, or the
    value found under [item_id], which need not be a dictionary. *)
Inductive info : Type :=
| InfoDict (d : gmap string pyval)
| InfoAtom (a : atom).

Definition _resolve_item_info (item_id : string) (item_data : gmap string pyval)
  : exn + info :=
  if decide (is_Some (item_data !! "type")) then inr (InfoDict item_data)
  else match item_data !! item_id with
       | None => inl KeyError
       | Some (VDict d) => inr (InfoDict (single d))
       | Some (VAtom a) => inr (InfoAtom a)
       end.

(** [parse_item_effect(d["effect"])] for a dictionary [d]. *)
Definition effect_of (d : gmap string pyval) : exn + (string * Z) :=
  match d !! "effect" with
  | None => inl KeyError
  | Some (VAtom (AStr s)) => parse_item_effect s
  | Some _ => inl AttributeError
  end.

(** Lift a pure, fallible computation into [Py]. *)
Definition lift {S A} (r : exn + A) : Py S A := fun s => (s, r).

(** *** Lists: [list.remove] *)

Fixpoint remove_first (x : string) (l : list string) : list string :=
  match l with
  | [] => []
  | y :: l' => if decide (x = y) then l' else y :: remove_first x l'
  end.

Definition contains (x : string) (l : list string) : bool :=
  bool_decide (x ∈ l).

(** *** Inventory management *)

Definition _ensure_inventory : Py Character unit :=
  modify (fun c => match inventory c with
                   | None => set_inventory (Some []) c
                   | Some _ => c
                   end).

Definition append_item (item_id : string) : Py Character unit :=
  modify (fun c => set_inventory (Some (items c ++ [item_id])%list) c).

Definition remove_item (item_id : string) : Py Character unit :=
  modify (fun c => set_inventory (Some (remove_first item_id (items c))) c).

Definition add_item_to_inventory (item_id : string) : Py Character bool :=
  (_ensure_inventory ;;
   n <- gets (fun c => Z.of_nat (length (items c))) ;;
   if MAX_INVENTORY_SIZE <=? n then raise InventoryFullError
   else append_item item_id ;; ret true)%py.

Definition remove_item_from_inventory (item_id : string) : Py Character bool :=
  (_ensure_inventory ;;
   present <- gets (fun c => contains item_id (items c)) ;;
   if negb present then raise ItemNotFoundError
   else remove_item item_id ;; ret true)%py.

Definition has_item (c : Character) (item_id : string) : bool :=
  contains item_id (items c).

Definition get_inventory_space_remaining (c : Character) : Z :=
  MAX_INVENTORY_SIZE - Z.of_nat (length (items c)).

(** *** Stat effects *)

(** The keys of a character that do not hold an integer: [+=] with an
    integer raises [TypeError] on them and changes nothing.  (The two slot
    keys are taken to be present.) *)
Definition non_numeric_keys : list string :=
  ["name"; "class"; "inventory"; "active_quests"; "completed_quests";
   "equipped_weapon"; "equipped_armor"].

Definition apply_stat_effect (stat_name : string) (value : Z)
  : Py Character unit :=
  (if decide (stat_name = "health") then
     modify (fun c => set_health (health c + value) c) ;;
     modify (fun c => if max_health c <? health c
                      then set_health (max_health c) c else c)
   else if decide (stat_name = "max_health") then
     modify (fun c => set_max_health (max_health c + value) c)
   else if decide (stat_name = "strength") then
     modify (fun c => set_strength (strength c + value) c)
   else if decide (stat_name = "magic") then
     modify (fun c => set_magic (magic c + value) c)
   else if decide (stat_name = "level") then
     modify (fun c => set_level (level c + value) c)
   else if decide (stat_name = "experience") then
     modify (fun c => set_experience (experience c + value) c)
   else if decide (stat_name = "gold") then
     modify (fun c => set_gold (gold c + value) c)
   else if contains stat_name non_numeric_keys then raise TypeError
   else
     modify (fun c => set_extras
                        (<[stat_name := default 0 (extras c !! stat_name) + value]>
                           (extras c)) c))%py.

#[global] Arguments apply_stat_effect : simpl never.

(** *** Item usage and equipment *)

(** Python truth of a slot: [None] and the empty string are false. *)
Definition occupied (slot : option string) : option string :=
  match slot with
  | Some s => if decide (s = "") then None else Some s
  | None => None
  end.

(** [info[key]] *)
Definition subscript (i : info) (key : string) : exn + pyval :=
  match i with
  | InfoAtom _ => inl TypeError
  | InfoDict d => match d !! key with
                  | Some v => inr v
                  | None => inl KeyError
                  end
  end.

(** An operand of [<], [-] or [//] next to an integer. *)
Definition as_int (v : pyval) : exn + Z :=
  match v with
  | VAtom (AInt z) => inr z
  | _ => inl TypeError
  end.

(** [if "effect" in d: stat, val = parse_item_effect(d["effect"]);
    apply_stat_effect(character, stat, val)], with [-val] for [val] where
    an item leaves its slot; tells whether [stat] and [val] were bound. *)
Definition apply_effect_if_any (d : gmap string pyval) (negated : bool)
  : Py Character bool :=
  (if decide (is_Some (d !! "effect")) then
     parsed <- lift (effect_of d) ;;
     let '(stat, val) := parsed in
     apply_stat_effect stat (if negated then - val else val) ;;
     ret true
   else ret false)%py.

(** The data of the item in a slot "if possible": the entry of [item_data]
    under its id when that entry is a dictionary. *)
Definition old_info_of (item_data : gmap string pyval) (old_id : string)
  : option (gmap string pyval) :=
  match item_data !! old_id with
  | Some (VDict d) => Some (single d)
  | _ => None
  end.

Definition use_item (item_id : string) (item_data : gmap string pyval)
  : Py Character unit :=
  (_ensure_inventory ;;
   present <- gets (fun c => contains item_id (items c)) ;;
   if negb present then raise ItemNotFoundError
   else
     i <- lift (_resolve_item_info item_id item_data) ;;
     match i with
     | InfoAtom _ => raise AttributeError
     | InfoDict d =>
         if decide (d !! "type" = Some (VAtom (AStr "consumable"))) then
           parsed <- lift (effect_of d) ;;
           let '(stat_name, value) := parsed in
           apply_stat_effect stat_name value ;;
           remove_item item_id
         else raise InvalidItemTypeError
     end)%py.

Definition equip_weapon (item_id : string) (item_data : gmap string pyval)
  : Py Character unit :=
  (_ensure_inventory ;;
   present <- gets (fun c => contains item_id (items c)) ;;
   if negb present then raise ItemNotFoundError
   else
     i <- lift (_resolve_item_info item_id item_data) ;;
     match i with
     | InfoAtom _ => raise AttributeError
     | InfoDict d =>
         if decide (d !! "type" = Some (VAtom (AStr "weapon"))) then
           old <- gets (fun c => occupied (equipped_weapon c)) ;;
           match old with
           | Some old_weapon_id =>
               match old_info_of item_data old_weapon_id with
               | Some old_info => apply_effect_if_any old_info true ;; ret tt
               | None => ret tt
               end ;;
               append_item old_weapon_id
           | None => ret tt
           end ;;
           apply_effect_if_any d false ;;
           modify (set_equipped_weapon (Some item_id)) ;;
           remove_item item_id
         else raise InvalidItemTypeError
     end)%py.

Definition equip_armor (item_id : string) (item_data : gmap string pyval)
  : Py Character unit :=
  (_ensure_inventory ;;
   present <- gets (fun c => contains item_id (items c)) ;;
   if negb present then raise ItemNotFoundError
   else
     i <- lift (_resolve_item_info item_id item_data) ;;
     match i with
     | InfoAtom _ => raise AttributeError
     | InfoDict d =>
         if decide (d !! "type" = Some (VAtom (AStr "armor"))) then
           old <- gets (fun c => occupied (equipped_armor c)) ;;
           bound_old <-
             match old with
             | Some old_armor_id =>
                 bound <-
                   match old_info_of item_data old_armor_id with
                   | Some old_info => apply_effect_if_any old_info true
                   | None => ret false
                   end ;;
                 append_item old_armor_id ;;
                 ret bound
             | None => ret false
             end ;;
           bound_new <- apply_effect_if_any d false ;;
           modify (set_equipped_armor (Some item_id)) ;;
           remove_item item_id ;;
           (* the returned message formats [stat] and [val] *)
           if (bound_old || bound_new)%bool then ret tt
           else raise UnboundLocalError
         else raise InvalidItemTypeError
     end)%py.

(** In the two [unequip] functions [info] is the entry under the id of the
    equipped item when that is a dictionary, and [item_data] itself
    otherwise. *)
Definition unequip_info (item_data : gmap string pyval) (equipped : string)
  : gmap string pyval :=
  match item_data !! equipped with
  | Some (VDict d) => single d
  | _ => item_data
  end.

Definition unequip_weapon (item_data : gmap string pyval)
  : Py Character (option string) :=
  (_ensure_inventory ;;
   slot <- gets (fun c => occupied (equipped_weapon c)) ;;
   match slot with
   | None => ret None
   | Some equipped =>
       space <- gets get_inventory_space_remaining ;;
       if space <=? 0 then raise InventoryFullError
       else
         apply_effect_if_any (unequip_info item_data equipped) true ;;
         append_item equipped ;;
         modify (set_equipped_weapon None) ;;
         ret (Some equipped)
   end)%py.

Definition unequip_armor (item_data : gmap string pyval)
  : Py Character (option string) :=
  (_ensure_inventory ;;
   slot <- gets (fun c => occupied (equipped_armor c)) ;;
   match slot with
   | None => ret None
   | Some equipped =>
       space <- gets get_inventory_space_remaining ;;
       if space <=? 0 then raise InventoryFullError
       else
         apply_effect_if_any (unequip_info item_data equipped) true ;;
         append_item equipped ;;
         modify (set_equipped_armor None) ;;
         ret (Some equipped)
   end)%py.

(** *** Shop *)

Definition purchase_item (item_id : string) (item_data : gmap string pyval)
  : Py Character bool :=
  (_ensure_inventory ;;
   i <- lift (_resolve_item_info item_id item_data) ;;
   cost_value <- lift (subscript i "cost") ;;
   cost <- lift (as_int cost_value) ;;
   g <- gets gold ;;
   if g <? cost then raise InsufficientResourcesError
   else
     n <- gets (fun c => Z.of_nat (length (items c))) ;;
     if MAX_INVENTORY_SIZE <=? n then raise InventoryFullError
     else
       modify (fun c => set_gold (gold c - cost) c) ;;
       append_item item_id ;;
       ret true)%py.

Definition sell_item (item_id : string) (item_data : gmap string pyval)
  : Py Character Z :=
  (_ensure_inventory ;;
   present <- gets (fun c => contains item_id (items c)) ;;
   if negb present then raise ItemNotFoundError
   else
     i <- lift (_resolve_item_info item_id item_data) ;;
     cost_value <- lift (subscript i "cost") ;;
     cost <- lift (as_int cost_value) ;;
     let gold_gained := cost / 2 in
     remove_item item_id ;;
     modify (fun c => set_gold (gold c + gold_gained) c) ;;
     ret gold_gained)%py.

(* ===================================================================== *)
(** ** The remaining operations of the three modules                     *)
(* ===================================================================== *)

(** *** character_manager.py *)

Definition add_gold (amount : Z) : Py Character Z :=
  (new_total <- gets (fun c => gold c + amount) ;;
   if new_total <? 0 then raise ValueError
   else
     modify (set_gold new_total) ;;
     gets gold)%py.

(** *** combat_system.py *)

Definition can_character_fight (c : Character) (active : bool) : bool :=
  (0 <? health c) && negb active.

(** *** inventory_system.py *)

(** [list.count] *)
Fixpoint count (x : string) (l : list string) : nat :=
  match l with
  | [] => O
  | y :: l' => if decide (y = x) then S (count x l') else count x l'
  end.

Definition count_item (c : Character) (item_id : string) : nat :=
  count item_id (items c).

Definition clear_inventory : Py Character (list string) :=
  (_ensure_inventory ;;
   removed_items <- gets items ;;
   modify (set_inventory (Some [])) ;;
   ret removed_items)%py.

(** *** main.py: [explore] *)

(** The body of the [try] of [explore], on the character it is run for:
    draw an enemy for the character's level, start a battle, and act on
    the winner the battle reports.  The battle holds the very character, so
    what it does to it is done to the caller's.  Printing and the handlers
    of the exceptions are left out. *)
Inductive Exploration : Type :=
| rewarded (xp g : Z)
| no_clear_winner.

Definition explore : Py Character Exploration :=
  fun c =>
    match get_random_enemy_for_level (level c) with
    | inl e => (c, inl e)
    | inr foe =>
        match start_battle (init_battle c foe) with
        | (b, inl e) => (character b, inl e)
        | (b, inr result) =>
            let c' := character b in
            match winner result with
            | Some player =>
                let rewards := get_victory_rewards foe in
                (set_gold (gold c' + rewards.2)
                   (set_experience (experience c' + rewards.1) c'),
                 inr (rewarded rewards.1 rewards.2))
            | Some enemy => (c', inl CharacterDeadError)
            | _ => (c', inr no_clear_winner)
            end
        end
    end.

(** *** Strings: [str(int)] *)

(** [str(z)] for an integer: its decimal digits, with a minus sign for a
    negative number. *)
Definition py_str (z : Z) : string := NilEmpty.string_of_int (Z.to_int z).

(** The value of a run of decimal digits read after [acc]. *)
Fixpoint uint_value (acc : Z) (d : Decimal.uint) : Z :=
  match d with
  | Decimal.Nil => acc
  | Decimal.D0 d' => uint_value (acc * 10) d'
  | Decimal.D1 d' => uint_value (acc * 10 + 1) d'
  | Decimal.D2 d' => uint_value (acc * 10 + 2) d'
  | Decimal.D3 d' => uint_value (acc * 10 + 3) d'
  | Decimal.D4 d' => uint_value (acc * 10 + 4) d'
  | Decimal.D5 d' => uint_value (acc * 10 + 5) d'
  | Decimal.D6 d' => uint_value (acc * 10 + 6) d'
  | Decimal.D7 d' => uint_value (acc * 10 + 7) d'
  | Decimal.D8 d' => uint_value (acc * 10 + 8) d'
  | Decimal.D9 d' => uint_value (acc * 10 + 9) d'
  end.

(** Every character of the string satisfies [P]. *)
Fixpoint each (P : ascii -> Prop) (s : string) : Prop :=
  match s with
  | EmptyString => True
  | String b s' => P b /\ each P s'
  end.

(** No character of the string is [a]. *)
Definition lacks (a : ascii) : string -> Prop := each (fun b => b <> a).

Definition lf : ascii := "010"%char.
Definition cr : ascii := "013"%char.
Definition nl : string := String lf EmptyString.

(** The string holds no line break of a text file. *)
Definition one_line (s : string) : Prop := lacks lf s /\ lacks cr s.

(* ===================================================================== *)
(** ** character_manager.py: saving and loading                          *)
(* ===================================================================== *)

Inductive save_exn : Type :=
| CharacterNotFoundError
| SaveFileCorruptedError
| InvalidSaveDataError.

(** The values of a character dictionary that a save file can hold. *)
Inductive saved : Type :=
| SStr (s : string)
| SInt (z : Z)
| SList (l : list string).

(** The files, by path: the text of each.  Reading and writing a file
    succeed, directories are not told apart from the paths below them, and
    a text is a string of ASCII characters. *)
Definition files : Type := gmap string string.

(** [os.path.join(a, b)] on POSIX. *)
Definition ends_with_slash (s : string) : bool :=
  match String.rev s with
  | String a _ => bool_decide (a = "/"%char)
  | EmptyString => false
  end.

Definition path_join (a b : string) : string :=
  match b with
  | String c _ =>
      if decide (c = "/"%char) then b
      else if decide (a = "") then b
      else if ends_with_slash a then a ++ b
      else a ++ "/" ++ b
  | EmptyString =>
      if decide (a = "") then b
      else if ends_with_slash a then a ++ b
      else a ++ "/" ++ b
  end.

Definition save_file (save_directory character_name : string) : string :=
  path_join save_directory (character_name ++ "_save.txt").

Definition required : list string :=
  ["name"; "class"; "level"; "health"; "max_health"; "strength"; "magic";
   "experience"; "gold"; "inventory"; "active_quests"; "completed_quests"].

Definition numeric_fields : list string :=
  ["level"; "health"; "max_health"; "strength"; "magic"; "experience"; "gold"].

Definition list_fields : list string :=
  ["inventory"; "active_quests"; "completed_quests"].

Definition is_saved_int (v : option saved) : bool :=
  match v with Some (SInt _) => true | _ => false end.

Definition is_saved_list (v : option saved) : bool :=
  match v with Some (SList _) => true | _ => false end.

(** Each of the three loops raises the same exception at the first field
    that fails, so the order in which the fields are visited does not
    show. *)
Definition validate_character_data (character : gmap string saved)
  : save_exn + bool :=
  if negb (forallb (fun field => bool_decide (is_Some (character !! field)))
             required)
  then inl InvalidSaveDataError
  else if negb (forallb (fun field => is_saved_int (character !! field))
                  numeric_fields)
  then inl InvalidSaveDataError
  else if negb (forallb (fun field => is_saved_list (character !! field))
                  list_fields)
  then inl InvalidSaveDataError
  else inr true.

(** The twelve required fields of a character as a dictionary, in the
    order in which a save file lists them; [inventory] is left out when
    the character has none.  [validate_character_data] and
    [save_character] read no other key. *)
Definition fields (c : Character) : gmap string saved :=
  <["completed_quests" := SList (completed_quests c)]>
  (<["active_quests" := SList (active_quests c)]>
  ((match inventory c with
    | Some inv => <["inventory" := SList inv]>
    | None => fun d => d
    end)
  (<["gold" := SInt (gold c)]>
  (<["experience" := SInt (experience c)]>
  (<["magic" := SInt (magic c)]>
  (<["strength" := SInt (strength c)]>
  (<["max_health" := SInt (max_health c)]>
  (<["health" := SInt (health c)]>
  (<["level" := SInt (level c)]>
  (<["class" := SStr (class c)]>
  (<["name" := SStr (name c)]> ∅))))))))))).

(** [f"{key}: {value}\n"] *)
Definition field_line (key value : string) : string :=
  key ++ ": " ++ value ++ nl.

(** [",".join(l) if l else ""] *)
Definition list_text (l : list string) : string :=
  match l with
  | [] => ""
  | _ => String.concat "," l
  end.

(** What a run of [file.write] calls leaves in the file. *)
Fixpoint write_all (texts : list string) : string :=
  match texts with
  | [] => ""
  | t :: rest => t ++ write_all rest
  end.

Definition save_text (character : Character) : string :=
  write_all
    [field_line "NAME" (name character);
     field_line "CLASS" (class character);
     field_line "LEVEL" (py_str (level character));
     field_line "HEALTH" (py_str (health character));
     field_line "MAX_HEALTH" (py_str (max_health character));
     field_line "STRENGTH" (py_str (strength character));
     field_line "MAGIC" (py_str (magic character));
     field_line "EXPERIENCE" (py_str (experience character));
     field_line "GOLD" (py_str (gold character));
     field_line "INVENTORY" (list_text (items character));
     field_line "ACTIVE_QUESTS" (list_text (active_quests character));
     field_line "COMPLETED_QUESTS" (list_text (completed_quests character))].

Definition save_character (character : Character) (save_directory : string)
  (fs : files) : files * (save_exn + bool) :=
  match validate_character_data (fields character) with
  | inl _ => (fs, inl InvalidSaveDataError)
  | inr _ =>
      (<[save_file save_directory (name character) := save_text character]> fs,
       inr true)
  end.

(** Reading in text mode: ["\r\n"] and ["\r"] are read as ["\n"]. *)
Fixpoint universal_newlines (s : string) : string :=
  match s with
  | EmptyString => EmptyString
  | String a r =>
      if decide (a = cr) then
        String lf
          match r with
          | String b r' =>
              if decide (b = lf) then universal_newlines r'
              else universal_newlines r
          | EmptyString => EmptyString
          end
      else String a (universal_newlines r)
  end.

(** [file.readlines()]: the lines, each with its ["\n"]. *)
Fixpoint readlines (s : string) : list string :=
  match s with
  | EmptyString => []
  | String a r =>
      if decide (a = lf) then String a EmptyString :: readlines r
      else match readlines r with
           | [] => [String a EmptyString]
           | line :: rest => String a line :: rest
           end
  end.

(** [s.split(": ", 1)] when [": "] occurs in [s]: the text before its first
    occurrence and the text after it. *)
Fixpoint split_colon_space (s : string) : option (string * string) :=
  match s with
  | EmptyString => None
  | String a r =>
      match (if decide (a = ":"%char)
             then match r with
                  | String b r' => if decide (b = " "%char) then Some r' else None
                  | EmptyString => None
                  end
             else None) with
      | Some r' => Some (EmptyString, r')
      | None =>
          match split_colon_space r with
          | Some (l, r') => Some (String a l, r')
          | None => None
          end
      end
  end.

(** [s.split(",")] *)
Fixpoint split_commas (s : string) : list string :=
  match s with
  | EmptyString => [EmptyString]
  | String a r =>
      if decide (a = ","%char) then EmptyString :: split_commas r
      else match split_commas r with
           | part :: rest => String a part :: rest
           | [] => [String a EmptyString]
           end
  end.

Definition list_keys : list string :=
  ["INVENTORY"; "ACTIVE_QUESTS"; "COMPLETED_QUESTS"].

Definition int_keys : list string :=
  ["LEVEL"; "HEALTH"; "MAX_HEALTH"; "STRENGTH"; "MAGIC"; "EXPERIENCE"; "GOLD"].

(** One turn of the loop over the lines of a save file.  An [int()] that
    fails is caught and raised again as [InvalidSaveDataError]. *)
Definition load_line (raw_line : string) (character : gmap string saved)
  : save_exn + gmap string saved :=
  let line := strip raw_line in
  if decide (line = "") then inr character
  else
    match split_colon line with
    | None => inl InvalidSaveDataError
    | Some (key0, value0) =>
        let parts :=
          match split_colon_space line with
          | Some parts => parts
          | None => (key0, lstrip value0)
          end in
        let key := strip parts.1 in
        let value := strip parts.2 in
        if decide (key ∈ list_keys) then
          inr (<[lower key :=
                   SList (if decide (value = "") then []
                          else filter (fun v => v <> "") (split_commas value))]>
                 character)
        else if decide (key ∈ int_keys) then
          match py_int value with
          | Some z => inr (<[lower key := SInt z]> character)
          | None => inl InvalidSaveDataError
          end
        else inr (<[lower key := SStr value]> character)
    end.

Fixpoint load_lines (lines : list string) (character : gmap string saved)
  : save_exn + gmap string saved :=
  match lines with
  | [] => inr character
  | raw_line :: rest =>
      match load_line raw_line character with
      | inl e => inl e
      | inr character' => load_lines rest character'
      end
  end.

Definition load_character (character_name save_directory : string)
  (fs : files) : save_exn + gmap string saved :=
  match fs !! save_file save_directory character_name with
  | None => inl CharacterNotFoundError
  | Some text =>
      match load_lines (readlines (universal_newlines text)) ∅ with
      | inl e => inl e
      | inr character =>
          match validate_character_data character with
          | inl e => inl e
          | inr _ => inr character
          end
      end
  end.

(** Text that goes through a save file unchanged as the value of a line:
    it has no blank at either end and no line break.  An item of a list
    is moreover not empty and holds no comma. *)
Definition survives (s : string) : Prop := strip s = s /\ one_line s.

Definition item_survives (s : string) : Prop :=
  s <> "" /\ survives s /\ lacks ","%char s.

(* ===================================================================== *)
(** ** game_data.py: the item file                                       *)
(* ===================================================================== *)

Inductive data_exn : Type :=
| InvalidDataFormatError
| MissingDataFileError
| CorruptedDataError.

(** A dictionary as the order of its keys shows: assigning to a key that
    is there keeps its place, a new key goes to the end. *)
Fixpoint dict_set {V} (k : string) (v : V) (d : list (string * V))
  : list (string * V) :=
  match d with
  | [] => [(k, v)]
  | (k', v') :: rest =>
      if decide (k' = k) then (k, v) :: rest else (k', v') :: dict_set k v rest
  end.

(** One turn of the loop of [parse_item_block].  A line without [": "]
    fails to unpack, and that and a failing [int()] are caught and raised
    again as [InvalidDataFormatError]. *)
Definition parse_item_line (line : string) (item : list (string * atom))
  : data_exn + list (string * atom) :=
  if decide (strip line = "") then inr item
  else
    match split_colon_space (strip line) with
    | None => inl InvalidDataFormatError
    | Some (key, value) =>
        if decide (key = "COST") then
          match py_int value with
          | Some z => inr (dict_set key (AInt z) item)
          | None => inl InvalidDataFormatError
          end
        else inr (dict_set key (AStr value) item)
    end.

Fixpoint parse_item_lines (lines : list string) (item : list (string * atom))
  : data_exn + list (string * atom) :=
  match lines with
  | [] => inr item
  | line :: rest =>
      match parse_item_line line item with
      | inl e => inl e
      | inr item' => parse_item_lines rest item'
      end
  end.

Definition parse_item_block (lines : list string)
  : data_exn + list (string * atom) :=
  parse_item_lines lines [].

(** [{k.lower(): v for k, v in raw.items()}] *)
Definition lower_keys (raw : list (string * atom)) : gmap string atom :=
  foldl (fun item kv => <[lower kv.1 := kv.2]> item) ∅ raw.

Definition is_str (v : option atom) : bool :=
  match v with Some (AStr _) => true | _ => false end.

Definition is_int (v : option atom) : bool :=
  match v with Some (AInt _) => true | _ => false end.

(** The required fields, each with the test of its type. *)
Definition required_fields : list (string * (option atom -> bool)) :=
  [("item_id", is_str); ("name", is_str); ("type", is_str);
   ("effect", is_str); ("cost", is_int); ("description", is_str)].

Definition valid_types : list string := ["weapon"; "armor"; "consumable"].

Definition validate_item_data (item_dict : gmap string atom)
  : data_exn + bool :=
  if negb (forallb (fun f => f.2 (item_dict !! f.1)) required_fields)
  then inl InvalidDataFormatError
  else match item_dict !! "type" with
       | Some (AStr t) =>
           if decide (t ∈ valid_types) then inr true
           else inl InvalidDataFormatError
       | _ => inl InvalidDataFormatError
       end.

(** The characters at which [str.splitlines] breaks an ASCII string. *)
Definition is_line_break (a : ascii) : bool :=
  let n := nat_of_ascii a in
  ((Nat.leb 10 n && Nat.leb n 13) || (Nat.leb 28 n && Nat.leb n 30))%bool.

(** [s.splitlines()]: the lines without their ends, ["\r\n"] being one
    end. *)
Fixpoint splitlines (s : string) : list string :=
  match s with
  | EmptyString => []
  | String a r =>
      if is_line_break a then
        EmptyString ::
          splitlines
            match r with
            | String b r' =>
                if (bool_decide (a = cr) && bool_decide (b = lf))%bool
                then r' else r
            | EmptyString => r
            end
      else match splitlines r with
           | [] => [String a EmptyString]
           | line :: rest => String a line :: rest
           end
  end.

(** The loop of [load_items] over the lines, with the block gathered so
    far and the items loaded so far.  After [validate_item_data] the item
    has a string under ["item_id"]. *)
Fixpoint load_item_blocks (lines block : list string)
  (items : gmap string (gmap string atom))
  : data_exn + gmap string (gmap string atom) :=
  match lines with
  | [] => inr items
  | line :: rest =>
      if decide (strip line = "") then
        match block with
        | [] => load_item_blocks rest [] items
        | _ =>
            match parse_item_block block with
            | inl e => inl e
            | inr raw =>
                let item := lower_keys raw in
                match validate_item_data item with
                | inl e => inl e
                | inr _ =>
                    match item !! "item_id" with
                    | Some (AStr item_id) =>
                        load_item_blocks rest [] (<[item_id := item]> items)
                    | _ => inl CorruptedDataError
                    end
                end
            end
        end
      else load_item_blocks rest (block ++ [line])%list items
  end.

Definition load_items (filename : string) (fs : files)
  : data_exn + gmap string (gmap string atom) :=
  match fs !! filename with
  | None => inl MissingDataFileError
  | Some text =>
      load_item_blocks (splitlines (universal_newlines text) ++ [""])%list [] ∅
  end.

(** The texts that [create_default_data_files] writes. *)
Definition default_quests : string :=
  "QUEST_ID:quest_001" ++ nl ++
  "TITLE:First Adventure" ++ nl ++
  "DESCRIPTION:Begin your journey." ++ nl ++
  "REWARD_XP:100" ++ nl ++
  "REWARD_GOLD:50" ++ nl ++
  "REQUIRED_LEVEL:1" ++ nl ++
  "PREREQUISITE:NONE" ++ nl ++ nl.

Definition default_items : string :=
  "ITEM_ID:item_001" ++ nl ++
  "NAME:Health Potion" ++ nl ++
  "TYPE:consumable" ++ nl ++
  "EFFECT:health:20" ++ nl ++
  "COST:10" ++ nl ++
  "DESCRIPTION:Restores 20 health." ++ nl ++ nl.

Definition write_if_missing (path text : string) (fs : files) : files :=
  if decide (is_Some (fs !! path)) then fs else <[path := text]> fs.

Definition create_default_data_files (fs : files) : files :=
  write_if_missing (path_join "data" "items.txt") default_items
    (write_if_missing (path_join "data" "quests.txt") default_quests fs).

(** An item record as [load_items] files it: validated, and kept under its
    own id. *)
Definition valid_item (item_id : string) (item : gmap string atom) : Prop :=
  item !! "item_id" = Some (AStr item_id) /\
  validate_item_data item = inr true.

(* ===================================================================== *)
(** ** Postconditions                                                    *)
(* ===================================================================== *)

(** [wp m Q s]: running [m] from [s] ends in a state and an outcome that
    satisfy [Q]. *)
Definition wp {S A} (m : Py S A) (Q : S -> exn + A -> Prop) (s : S) : Prop :=
  Q (m s).1 (m s).2.

(** What [apply_damage] on the target [t] makes of a battle. *)
Definition damaged (t : Target) (d : Z) (b b' : SimpleBattle) : Prop :=
  target_health t b' = Z.max 0 (target_health t b - d) /\
  match t with
  | at_character =>
      the_enemy b' = the_enemy b /\
      character b' = set_health (health (character b')) (character b)
  | at_enemy =>
      character b' = character b /\
      the_enemy b' = Enemy.set_health (Enemy.health (the_enemy b')) (the_enemy b)
  end /\
  combat_active b' =
    (combat_active b && (0 <? health (character b')) &&
     (0 <? Enemy.health (the_enemy b')))%bool /\
  turn_counter b' = turn_counter b /\
  battle_result b' = battle_result b.

(** The inventory holds no more than [MAX_INVENTORY_SIZE] items. *)
Definition fits (c : Character) : Prop := (length (items c) <= 20)%nat.

(** Both fighters of a battle are alive. *)
Definition both_alive (b : SimpleBattle) : Prop :=
  0 < health (character b) /\ 0 < Enemy.health (the_enemy b).

(** What the player's action leaves behind, before the turn is closed:
    it never raises, and when it reports an escape the battle is over. *)
Definition acted (b' : SimpleBattle) (r : exn + bool) : Prop :=
  r = inr false \/ (r = inr true /\ combat_active b' = false).

(** What the level-up loop leaves as it found it, and the books it keeps:
    each level gained is worth 10 max_health, 2 strength and 2 magic, and
    [experience + 100 * (1 + 2 + ... + (level - 1))] does not change. *)
Definition levelled_from (c c' : Character) : Prop :=
  level c <= level c' /\
  experience c' + 50 * level c' * (level c' - 1) =
    experience c + 50 * level c * (level c - 1) /\
  max_health c' = max_health c + 10 * (level c' - level c) /\
  strength c' = strength c + 2 * (level c' - level c) /\
  magic c' = magic c + 2 * (level c' - level c) /\
  health c' = (if level c <? level c' then max_health c' else health c) /\
  name c' = name c /\ class c' = class c /\ gold c' = gold c /\
  inventory c' = inventory c /\
  active_quests c' = active_quests c /\
  completed_quests c' = completed_quests c /\
  equipped_weapon c' = equipped_weapon c /\
  equipped_armor c' = equipped_armor c /\
  extras c' = extras c.

(* ===================================================================== *)
(** ** Fixtures                                                          *)
(* ===================================================================== *)

(** A fresh Warrior, the goblin template, and two swords and an armor in
    the format of the item file. *)
Definition hero : Character :=
  mkCharacter "Hero" "Warrior" 1 120 120 15 5 0 100 (Some []) [] [] None None ∅.

Definition goblin : Enemy.t := Enemy.mk "Goblin" "goblin" 50 50 8 2 25 10.

Definition item_record (type effect : string) (cost : Z) : gmap string atom :=
  <["type" := AStr type]> (<["effect" := AStr effect]> (<["cost" := AInt cost]> ∅)).

Definition iron_sword : gmap string atom := item_record "weapon" "strength:5" 50.
Definition steel_sword : gmap string atom := item_record "weapon" "strength:10" 150.
Definition leather_armor : gmap string atom := item_record "armor" "max_health:+10" 40.

(** The Warrior with the iron sword in hand and the steel sword in the
    bag, and the Warrior in leather armor at full health. *)
Definition armed : Character :=
  mkCharacter "Hero" "Warrior" 1 120 120 20 5 0 100 (Some ["steel_sword"])
    [] [] (Some "iron_sword") None ∅.

Definition armored : Character :=
  mkCharacter "Hero" "Warrior" 1 130 130 15 5 0 100 (Some [])
    [] [] None (Some "leather_armor") ∅.

Definition all_items : gmap string (gmap string atom) :=
  <["iron_sword" := iron_sword]>
  (<["steel_sword" := steel_sword]>
  (<["leather_armor" := leather_armor]> ∅)).

(** A Warrior with a past: a title, some loot, a quest and a sword in
    hand. *)
Definition veteran : Character :=
  mkCharacter "Sir Hero" "Warrior" 3 95 140 29 9 40 75
    (Some ["health_potion"; "iron_sword"]) ["quest_002"] ["quest_001"]
    (Some "steel_sword") None ∅.

(** An item file in the format that [parse_item_block] reads, and the
    record of its first item. *)
Definition item_file : string :=
  "ITEM_ID: item_001" ++ nl ++
  "NAME: Health Potion" ++ nl ++
  "TYPE: consumable" ++ nl ++
  "EFFECT: health:20" ++ nl ++
  "COST: 10" ++ nl ++
  "DESCRIPTION: Restores 20 health." ++ nl ++ nl ++
  "ITEM_ID: item_002" ++ nl ++
  "NAME: Iron Sword" ++ nl ++
  "TYPE: weapon" ++ nl ++
  "EFFECT: strength:5" ++ nl ++
  "COST: 50" ++ nl ++
  "DESCRIPTION: A plain blade." ++ nl.

Definition health_potion : gmap string atom :=
  <["item_id" := AStr "item_001"]>
  (<["name" := AStr "Health Potion"]>
  (<["description" := AStr "Restores 20 health."]>
  (item_record "consumable" "health:20" 10))).

Definition item_table : gmap string (gmap string atom) :=
  <["item_001" := health_potion]>
  (<["item_002" :=
       <["item_id" := AStr "item_002"]>
       (<["name" := AStr "Iron Sword"]>
       (<["description" := AStr "A plain blade."]>
       (item_record "weapon" "strength:5" 50)))]> ∅).

(** A fresh Warrior against a goblin, battle started. *)
Definition arena : SimpleBattle := (start_battle (init_battle hero goblin)).1.

(** A run of calls to [add_item_to_inventory], one per id, as long as
    none raises. *)
Fixpoint add_all (ids : list string) : Py Character unit :=
  match ids with
  | [] => ret tt
  | item_id :: rest => (add_item_to_inventory item_id ;; add_all rest)%py
  end.


(* ===================================================================== *)
(** ** Reasoning about [Py] programs                                     *)
(* ===================================================================== *)

Create HintDb py discriminated.
#[global] Hint Unfold bind ret raise gets modify lift raises : py.

(** Unfold the monad and compute. *)
Ltac py_simpl := autounfold with py in *; cbn [fst snd] in *.

(** Decide the integer comparisons a program branches on. *)
Ltac case_cmp :=
  repeat match goal with
         | |- context [if ?x <? ?y then _ else _] =>
             destruct (Z.ltb_spec x y); simpl
         | |- context [if ?x <=? ?y then _ else _] =>
             destruct (Z.leb_spec x y); simpl
         end.

(** Stepping through a [Py] program one call at a time. *)
Section Steps.
Context {S A B : Type}.
Implicit Types (s : S) (k : A -> Py S B).

Lemma bind_run (m : Py S A) k s s' a :
  m s = (s', inr a) -> bind m k s = k a s'.
Proof. intros E. unfold bind. now rewrite E. Qed.

Lemma bind_gets (f : S -> A) k s : bind (gets f) k s = k (f s) s.
Proof. reflexivity. Qed.

Lemma bind_ret (a : A) k s : bind (ret a) k s = k a s.
Proof. reflexivity. Qed.

Lemma bind_lift_ok (a : A) k s : bind (lift (inr a)) k s = k a s.
Proof. reflexivity. Qed.
End Steps.

Lemma bind_assoc {S A B C} (m : Py S A) (f : A -> Py S B) (g : B -> Py S C) s :
  bind (bind m f) g s = bind m (fun a => bind (f a) g) s.
Proof. unfold bind. destruct (m s) as [s' [e | a]]; reflexivity. Qed.

Lemma bind_modify {S B} (f : S -> S) (k : unit -> Py S B) s :
  bind (modify f) k s = k tt (f s).
Proof. reflexivity. Qed.

Lemma fixtures_from_source :
  create_character "Hero" "Warrior" = inr hero /\
  create_enemy "Goblin" = inr goblin.
Proof. split; reflexivity. Qed.

(* ===================================================================== *)
(** ** Progression: the level-up loop                                    *)
(* ===================================================================== *)

Section LevelUpLoop.

Lemma level_up_fields c :
  level (level_up c) = level c + 1 /\
  experience (level_up c) = experience c - level c * 100 /\
  max_health (level_up c) = max_health c + 10 /\
  strength (level_up c) = strength c + 2 /\
  magic (level_up c) = magic c + 2 /\
  health (level_up c) = max_health c + 10.
Proof. repeat split. Qed.

(** Every pass through the loop body lowers [loop_fuel]. *)
Lemma level_up_decreases c :
  level c * 100 <= experience c ->
  (loop_fuel (level_up c) < loop_fuel c)%nat.
Proof.
  intros Hge. unfold loop_fuel.
  destruct (level_up_fields c) as (-> & -> & _).
  destruct (Z.leb_spec (level c) 0) as [Hl | Hl];
    destruct (Z.leb_spec (level c + 1) 0) as [Hl' | Hl']; lia.
Qed.

(** Fuel beyond [loop_fuel] is never used. *)
Lemma level_up_loop_enough n :
  forall m b c,
    (loop_fuel c <= n)%nat -> (loop_fuel c <= m)%nat ->
    level_up_loop n b c = level_up_loop m b c.
Proof.
  induction n as [| n IH]; intros m b c Hn Hm.
  - destruct m as [| m]; [reflexivity |]. simpl.
    destruct (Z.leb_spec (level c * 100) (experience c)) as [Hge | Hlt];
      [| reflexivity].
    apply level_up_decreases in Hge. lia.
  - simpl.
    destruct (Z.leb_spec (level c * 100) (experience c)) as [Hge | Hlt].
    + pose proof (level_up_decreases c Hge) as Hd.
      destruct m as [| m]; [lia |]. simpl.
      destruct (Z.leb_spec (level c * 100) (experience c)); [| lia].
      apply IH; lia.
    + destruct m as [| m]; [reflexivity |]. simpl.
      destruct (Z.leb_spec (level c * 100) (experience c)); [lia | reflexivity].
Qed.

(** The equation of the [while] loop. *)
Lemma level_up_cascade_unfold b c :
  level_up_cascade b c =
    if level c * 100 <=? experience c
    then level_up_cascade true (level_up c)
    else (c, inr b).
Proof.
  unfold level_up_cascade.
  destruct (Z.leb_spec (level c * 100) (experience c)) as [Hge | Hlt].
  - pose proof (level_up_decreases c Hge) as Hd.
    destruct (loop_fuel c) as [| n] eqn:E; [lia |]. simpl.
    destruct (Z.leb_spec (level c * 100) (experience c)); [| lia].
    apply level_up_loop_enough; lia.
  - destruct (loop_fuel c); simpl; [reflexivity |].
    destruct (Z.leb_spec (level c * 100) (experience c)); [lia | reflexivity].
Qed.

(** The loop ends because its condition is false, and it never raises. *)
Lemma level_up_loop_exit n :
  forall b c,
    (loop_fuel c <= n)%nat ->
    exists c' b', level_up_loop n b c = (c', inr b') /\
                  experience c' < level c' * 100.
Proof.
  induction n as [| n IH]; intros b c Hn; simpl.
  - exists c, b. split; [reflexivity |].
    destruct (Z.ltb_spec (experience c) (level c * 100)) as [| Hge]; [lia |].
    apply level_up_decreases in Hge. lia.
  - destruct (Z.leb_spec (level c * 100) (experience c)) as [Hge | Hlt].
    + apply IH. pose proof (level_up_decreases c Hge). lia.
    + exists c, b. split; [reflexivity | lia].
Qed.

Lemma level_up_cascade_exit b c :
  exists c' b', level_up_cascade b c = (c', inr b') /\
                experience c' < level c' * 100.
Proof. apply level_up_loop_exit. lia. Qed.

Lemma gain_experience_alive xp c :
  0 < health c ->
  gain_experience xp c =
    level_up_cascade false (set_experience (experience c + xp) c).
Proof.
  intros Hh. unfold gain_experience, is_character_dead. py_simpl.
  destruct (Z.leb_spec (health c) 0); [lia | reflexivity].
Qed.

Lemma gain_experience_dead xp c :
  health c <= 0 -> gain_experience xp c = (c, inl CharacterDeadError).
Proof.
  intros Hh. unfold gain_experience, is_character_dead. py_simpl.
  destruct (Z.leb_spec (health c) 0); [reflexivity | lia].
Qed.

End LevelUpLoop.

(** Once a level has been gained the loop answers [True]. *)
Lemma level_up_loop_true n :
  forall c, (level_up_loop n true c).2 = inr true.
Proof.
  induction n as [| n IH]; intros c; simpl; [reflexivity |].
  destruct (level c * 100 <=? experience c); [apply IH | reflexivity].
Qed.

Lemma level_up_cascade_flag b c :
  (level_up_cascade b c).2 = inr (b || (level c * 100 <=? experience c))%bool.
Proof.
  rewrite level_up_cascade_unfold.
  destruct (level c * 100 <=? experience c).
  - unfold level_up_cascade. rewrite level_up_loop_true.
    now rewrite orb_true_r.
  - now rewrite orb_false_r.
Qed.

(* ===================================================================== *)
(** ** Properties of character_manager.py                                *)
(* ===================================================================== *)

(** C10. For each of the four valid classes [create_character] returns a
    character at full health, level 1, experience 0, gold 100, with empty
    inventory and quest lists; for every other class string it raises
    [InvalidCharacterClassError] and returns no character. *)
Theorem create_character_spec (name0 cls : string) :
  (cls ∈ ["Warrior"; "Mage"; "Rogue"; "Cleric"] ->
   exists c, create_character name0 cls = inr c /\
             health c = max_health c /\ level c = 1 /\ experience c = 0 /\
             gold c = 100 /\ inventory c = Some [] /\
             active_quests c = [] /\ completed_quests c = [] /\
             name c = name0 /\ class c = cls) /\
  (cls ∉ ["Warrior"; "Mage"; "Rogue"; "Cleric"] ->
   create_character name0 cls = inl InvalidCharacterClassError).
Proof.
  split.
  - intros Hin. rewrite !elem_of_cons, elem_of_nil in Hin.
    destruct Hin as [-> | [-> | [-> | [-> | []]]]];
      (eexists; split; [reflexivity | repeat split]).
  - intros Hnot. rewrite !not_elem_of_cons in Hnot.
    destruct Hnot as (H1 & H2 & H3 & H4 & _).
    unfold create_character, valid_classes.
    rewrite !lookup_insert_ne by congruence.
    now rewrite lookup_empty.
Qed.

(** C8. [heal_character] never raises [CharacterDeadError]; on a character
    with health 0 and a positive amount it sets health to
    [min(amount, max_health)] and returns that number, so the character is
    alive again (when [max_health] is positive) without [revive_character],
    which would have set health to [max_health // 2]. *)
Theorem heal_character_revives (c : Character) (amount : Z) :
  health c = 0 -> 0 < amount ->
  heal_character amount c =
    (set_health (Z.min amount (max_health c)) c,
     inr (Z.min amount (max_health c))) /\
  (forall a c0, ~ raises (heal_character a c0) CharacterDeadError) /\
  (0 < max_health c -> is_character_dead (heal_character amount c).1 = false) /\
  revive_character c = (set_health (max_health c / 2) c, inr true).
Proof.
  intros Hh Ha. repeat split.
  - unfold heal_character. py_simpl.
    destruct (Z.ltb_spec amount 0); [lia |]. simpl.
    rewrite Hh, Z.add_0_l, Z.sub_0_r. reflexivity.
  - intros a c0. unfold heal_character. py_simpl.
    destruct (a <? 0); simpl; discriminate.
  - intros Hm. unfold heal_character, is_character_dead. py_simpl.
    destruct (Z.ltb_spec amount 0); [lia |]. simpl.
    apply Z.leb_gt. lia.
  - unfold revive_character, is_character_dead. py_simpl.
    rewrite Hh. reflexivity.
Qed.

Lemma heal_character_revives_witness :
  heal_character 30 (set_health 0 hero) =
    (set_health (Z.min 30 (max_health (set_health 0 hero))) (set_health 0 hero),
     inr (Z.min 30 (max_health (set_health 0 hero)))).
Proof.
  apply (heal_character_revives (set_health 0 hero) 30); [reflexivity | lia].
Defined.

(** C3, as the code has it.  A living character at level 1 with no
    experience that gains 250 XP ends at level 2 with experience 150: the
    threshold 100 is consumed, and 150 is below the next threshold 200.  The
    call returns [True].  In general [gain_experience] adds the amount and
    runs the loop that, while [experience >= level * 100], subtracts
    [level * 100], adds 1 to level, 10 to max_health, 2 to strength and to
    magic, and sets health to the new max_health; the loop always ends, with
    [experience < level * 100], and the call returns whether it ran at
    least once. *)
Theorem gain_experience_cascade (c : Character) (xp : Z) :
  0 < health c ->
  gain_experience xp c =
    level_up_cascade false (set_experience (experience c + xp) c) /\
  (forall b c0,
     level_up_cascade b c0 =
       if level c0 * 100 <=? experience c0
       then level_up_cascade true (level_up c0)
       else (c0, inr b)) /\
  (forall c0,
     level (level_up c0) = level c0 + 1 /\
     experience (level_up c0) = experience c0 - level c0 * 100 /\
     max_health (level_up c0) = max_health c0 + 10 /\
     strength (level_up c0) = strength c0 + 2 /\
     magic (level_up c0) = magic c0 + 2 /\
     health (level_up c0) = max_health (level_up c0)) /\
  (exists c',
     gain_experience xp c = (c', inr (level c * 100 <=? experience c + xp)) /\
     experience c' < level c' * 100) /\
  (level c = 1 -> experience c = 0 -> xp = 250 ->
   exists c',
     gain_experience xp c = (c', inr true) /\
     level c' = 2 /\ experience c' = 150 /\
     max_health c' = max_health c + 10 /\
     strength c' = strength c + 2 /\ magic c' = magic c + 2 /\
     health c' = max_health c').
Proof.
  intros Hh. pose proof (gain_experience_alive xp c Hh) as Hrun.
  split; [exact Hrun |].
  split; [exact level_up_cascade_unfold |].
  split; [intros c0; repeat split |].
  split.
  - rewrite Hrun.
    destruct (level_up_cascade_exit false
                (set_experience (experience c + xp) c)) as (c' & b' & E & Hlt).
    pose proof (level_up_cascade_flag false
                  (set_experience (experience c + xp) c)) as Hflag.
    rewrite E in Hflag. simpl in Hflag. injection Hflag as ->.
    exists c'. split; [exact E | exact Hlt].
  - intros Hl He ->. rewrite Hrun.
    rewrite level_up_cascade_unfold. cbn [level experience set_experience].
    rewrite Hl, He. simpl (1 * 100 <=? 0 + 250).
    rewrite level_up_cascade_unfold.
    destruct (level_up_fields (set_experience (0 + 250) c)) as (El & Ee & _).
    rewrite El, Ee. cbn [level experience set_experience]. rewrite Hl.
    simpl ((1 + 1) * 100 <=? 0 + 250 - 1 * 100).
    eexists. split; [reflexivity |].
    cbn. rewrite Hl. repeat split.
Qed.

Lemma gain_experience_cascade_witness :
  exists c',
    gain_experience 250 hero = (c', inr true) /\
    level c' = 2 /\ experience c' = 150 /\
    max_health c' = max_health hero + 10 /\
    strength c' = strength hero + 2 /\ magic c' = magic hero + 2 /\
    health c' = max_health c'.
Proof.
  destruct (gain_experience_cascade hero 250) as (_ & _ & _ & _ & H);
    [reflexivity |].
  apply H; reflexivity.
Defined.

(** C3, as the claim has it, fails: 250 XP do not take a fresh character to
    level 3 with experience 50. *)
Lemma gain_experience_250_not_level_3 :
  ~ (level (gain_experience 250 hero).1 = 3 /\
     experience (gain_experience 250 hero).1 = 50).
Proof. vm_compute. intros [H _]. discriminate H. Qed.

(* ===================================================================== *)
(** ** Properties of combat_system.py                                    *)
(* ===================================================================== *)

Lemma start_battle_dead b :
  health (character b) <= 0 -> start_battle b = (b, inl CharacterDeadError).
Proof.
  intros Hh. unfold start_battle, is_character_dead. py_simpl.
  destruct (Z.leb_spec (health (character b)) 0); [reflexivity | lia].
Qed.

Lemma start_battle_alive b :
  0 < health (character b) ->
  start_battle b =
    (set_battle_result (Some (mkResult None 0 0))
       (set_turn_counter 1 (set_combat_active true b)),
     inr (mkResult None 0 0)).
Proof.
  intros Hh. unfold start_battle, is_character_dead. py_simpl.
  destruct (Z.leb_spec (health (character b)) 0); [lia | reflexivity].
Qed.

(** C6. [start_battle], and [start] with it, raises [CharacterDeadError]
    exactly when the character's health is at most 0, and so does
    [gain_experience]; a call that raises it leaves the battle object, with
    its character and its enemy, respectively the character, as they
    were. *)
Theorem dead_character_is_rejected (b : SimpleBattle) (c : Character) (xp : Z) :
  (raises (start_battle b) CharacterDeadError <-> health (character b) <= 0) /\
  (raises (start b) CharacterDeadError <-> health (character b) <= 0) /\
  (raises (gain_experience xp c) CharacterDeadError <-> health c <= 0) /\
  (raises (start_battle b) CharacterDeadError -> (start_battle b).1 = b) /\
  (raises (start b) CharacterDeadError -> (start b).1 = b) /\
  (raises (gain_experience xp c) CharacterDeadError ->
   (gain_experience xp c).1 = c).
Proof.
  assert (Hstart : raises (start_battle b) CharacterDeadError <->
                   health (character b) <= 0).
  { split.
    - intros Hr. destruct (Z.le_gt_cases (health (character b)) 0) as [| Hgt];
        [assumption |].
      unfold raises in Hr. rewrite start_battle_alive in Hr by lia.
      discriminate Hr.
    - intros Hh. unfold raises. now rewrite start_battle_dead. }
  assert (Hgain : raises (gain_experience xp c) CharacterDeadError <->
                  health c <= 0).
  { split.
    - intros Hr. destruct (Z.le_gt_cases (health c) 0) as [| Hgt];
        [assumption |].
      unfold raises in Hr. rewrite gain_experience_alive in Hr by lia.
      destruct (level_up_cascade_exit false
                  (set_experience (experience c + xp) c)) as (c' & b' & E & _).
      rewrite E in Hr. discriminate Hr.
    - intros Hh. unfold raises. now rewrite gain_experience_dead. }
  repeat split; try apply Hstart; try apply Hgain.
  - intros Hr. apply Hstart in Hr. now rewrite start_battle_dead.
  - intros Hr. apply Hstart in Hr. unfold start. now rewrite start_battle_dead.
  - intros Hr. apply Hgain in Hr. now rewrite gain_experience_dead.
Qed.

(** The formula of [calculate_damage]. *)
Lemma calculate_damage_formula `{Combatant A} `{Combatant D}
  (attacker : A) (defender : D) :
  calculate_damage attacker defender =
    Z.max 1 (strength_of attacker - strength_of defender / 4).
Proof.
  unfold calculate_damage.
  destruct (Z.ltb_spec (strength_of attacker - strength_of defender / 4) 1); lia.
Qed.

(** What the two turns do to the health of the one attacked: the attacker's
    whole strength is taken off, the defender's strength plays no part. *)
Lemma player_turn_basic_attack b rnd :
  combat_active b = true ->
  Enemy.health (the_enemy (player_turn "1" rnd b).1) =
    Z.max 0 (Enemy.health (the_enemy b) - strength (character b)).
Proof.
  intros Ha. unfold player_turn, apply_damage, check_battle_end. py_simpl.
  rewrite Ha. simpl.
  destruct (Z.ltb_spec (Enemy.health (the_enemy b) - strength (character b)) 0);
    simpl;
    repeat match goal with
           | |- context [if ?x <=? ?y then _ else _] =>
               destruct (Z.leb_spec x y); simpl
           end; lia.
Qed.

Lemma enemy_turn_attack b :
  combat_active b = true ->
  health (character (enemy_turn b).1) =
    Z.max 0 (health (character b) - Enemy.strength (the_enemy b)).
Proof.
  intros Ha. unfold enemy_turn, apply_damage, check_battle_end. py_simpl.
  rewrite Ha. simpl.
  destruct (Z.ltb_spec (health (character b) - Enemy.strength (the_enemy b)) 0);
    simpl;
    repeat match goal with
           | |- context [if ?x <=? ?y then _ else _] =>
               destruct (Z.leb_spec x y); simpl
           end; lia.
Qed.

(** C1 at the Warrior (strength 15) and the goblin (strength 8).  The
    formula gives 13 for the Warrior's attack and 5 for the goblin's;
    [player_turn] with choice 1 takes 15 from the goblin and [enemy_turn]
    takes 8 from the Warrior. *)
Theorem basic_attacks_bypass_calculate_damage :
  combat_active arena = true /\
  calculate_damage (character arena) (the_enemy arena) = 13 /\
  Enemy.health (the_enemy (player_turn "1" 0%Q arena).1) =
    Enemy.health (the_enemy arena) - 15 /\
  calculate_damage (the_enemy arena) (character arena) = 5 /\
  health (character (enemy_turn arena).1) = health (character arena) - 8.
Proof. repeat split. Qed.

(* ===================================================================== *)
(** ** Properties of inventory_system.py                                 *)
(* ===================================================================== *)

Section Inventory.

Implicit Types (c : Character) (l : list string) (x item_id : string).

Lemma contains_true x l : contains x l = true <-> x ∈ l.
Proof. unfold contains. apply bool_decide_eq_true. Qed.

Lemma remove_first_length x l :
  x ∈ l -> S (length (remove_first x l)) = length l.
Proof.
  induction l as [| y l IH]; intros Hin.
  - now apply elem_of_nil in Hin.
  - simpl. destruct (decide (x = y)) as [-> | Hne]; [reflexivity |].
    apply elem_of_cons in Hin as [-> | Hin]; [congruence |].
    simpl. now rewrite IH.
Qed.

(** A character that carries something has an inventory list. *)
Lemma carrying_has_inventory c :
  (0 < length (items c))%nat -> inventory c = Some (items c).
Proof. unfold items. destruct (inventory c); simpl; [reflexivity | lia]. Qed.

Lemma ensure_inventory_noop c :
  is_Some (inventory c) -> _ensure_inventory c = (c, inr tt).
Proof.
  intros [l E]. unfold _ensure_inventory. py_simpl. now rewrite E.
Qed.

Lemma ensure_inventory_keeps c :
  gold (_ensure_inventory c).1 = gold c /\
  items (_ensure_inventory c).1 = items c /\
  inventory (_ensure_inventory c).1 = Some (items c).
Proof.
  unfold _ensure_inventory, items. py_simpl.
  destruct (inventory c) eqn:E; simpl; rewrite ?E; repeat split.
Qed.

Lemma add_item_below_capacity c item_id :
  (length (items c) < 20)%nat ->
  add_item_to_inventory item_id c =
    (set_inventory (Some (items c ++ [item_id])%list) c, inr true).
Proof.
  intros Hlen. destruct c as [? ? ? ? ? ? ? ? ? [l |] ? ? ? ? ?].
  - unfold add_item_to_inventory, _ensure_inventory, append_item,
      MAX_INVENTORY_SIZE, items in *. py_simpl. simpl in *.
    destruct (Z.leb_spec 20 (Z.of_nat (length l))); [lia | reflexivity].
  - reflexivity.
Qed.

Lemma add_item_at_capacity c item_id :
  (20 <= length (items c))%nat ->
  add_item_to_inventory item_id c = (c, inl InventoryFullError).
Proof.
  intros Hlen. destruct c as [? ? ? ? ? ? ? ? ? [l |] ? ? ? ? ?].
  - unfold add_item_to_inventory, _ensure_inventory, append_item,
      MAX_INVENTORY_SIZE, items in *. py_simpl. simpl in *.
    destruct (Z.leb_spec 20 (Z.of_nat (length l))); [reflexivity | lia].
  - unfold items in Hlen. simpl in Hlen. lia.
Qed.

Lemma add_all_within_capacity ids :
  forall c,
    (length (items c) + length ids <= 20)%nat ->
    exists c', add_all ids c = (c', inr tt) /\
               items c' = (items c ++ ids)%list.
Proof.
  induction ids as [| item_id rest IH]; intros c Hlen; simpl in *.
  - exists c. split; [reflexivity | now rewrite app_nil_r].
  - unfold bind. rewrite add_item_below_capacity by lia.
    destruct (IH (set_inventory (Some (items c ++ [item_id])%list) c))
      as (c' & E & Hitems).
    { unfold items at 1. simpl. rewrite length_app. simpl. lia. }
    exists c'. split; [exact E |].
    rewrite Hitems. unfold items at 1. simpl. now rewrite <- app_assoc.
Qed.

End Inventory.

(** C5. Adding an item succeeds and appends it while fewer than 20 are
    carried, and raises [InventoryFullError] and changes nothing once 20 are
    carried.  So from an empty inventory twenty additions succeed, the
    twentieth included, and the twenty-first raises [InventoryFullError]
    and leaves the character, inventory included, as it was. *)
Theorem inventory_capacity (c : Character) (ids : list string)
  (last_id extra_id : string) :
  items c = [] -> length ids = 19%nat ->
  (forall c0 item_id,
     (length (items c0) < 20)%nat ->
     add_item_to_inventory item_id c0 =
       (set_inventory (Some (items c0 ++ [item_id])%list) c0, inr true)) /\
  (forall c0 item_id,
     (length (items c0) = 20)%nat ->
     add_item_to_inventory item_id c0 = (c0, inl InventoryFullError)) /\
  exists c19 c20,
    add_all ids c = (c19, inr tt) /\
    add_item_to_inventory last_id c19 = (c20, inr true) /\
    items c20 = (ids ++ [last_id])%list /\
    add_item_to_inventory extra_id c20 = (c20, inl InventoryFullError).
Proof.
  intros Hempty Hlen.
  split; [intros; now apply add_item_below_capacity |].
  split; [intros; apply add_item_at_capacity; lia |].
  destruct (add_all_within_capacity ids c) as (c19 & E19 & Hitems).
  { rewrite Hempty, Hlen. simpl. lia. }
  rewrite Hempty in Hitems. simpl in Hitems.
  exists c19, (set_inventory (Some (items c19 ++ [last_id])%list) c19).
  split; [exact E19 |].
  split; [apply add_item_below_capacity; rewrite Hitems, Hlen; lia |].
  split; [unfold items at 1; simpl; now rewrite Hitems |].
  apply add_item_at_capacity.
  unfold items at 1. simpl. rewrite length_app, Hitems, Hlen. simpl. lia.
Qed.

Lemma inventory_capacity_witness :
  exists c19 c20,
    add_all (replicate 19 "potion") hero = (c19, inr tt) /\
    add_item_to_inventory "potion" c19 = (c20, inr true) /\
    items c20 = (replicate 19 "potion" ++ ["potion"])%list /\
    add_item_to_inventory "iron_sword" c20 = (c20, inl InventoryFullError).
Proof.
  destruct (inventory_capacity hero (replicate 19 "potion")
              "potion" "iron_sword") as (_ & _ & H);
    [reflexivity | reflexivity | exact H].
Defined.

Section Shop.

Variables (item_id : string) (item_data : gmap string pyval).
Variables (i : info) (cost : Z).

(** The item resolves, from either shape of [item_data], to a record
    whose ["cost"] is the integer [cost]. *)
Hypothesis resolves : _resolve_item_info item_id item_data = inr i.
Hypothesis has_cost : subscript i "cost" = inr (VAtom (AInt cost)).

Lemma purchase_item_ok c :
  cost <= gold c -> (length (items c) < 20)%nat ->
  purchase_item item_id item_data c =
    (set_inventory (Some (items c ++ [item_id])%list)
       (set_gold (gold c - cost) c), inr true).
Proof.
  intros Hgold Hlen. destruct c as [? ? ? ? ? ? ? ? g [l |] ? ? ? ? ?];
    unfold purchase_item, _ensure_inventory, append_item, MAX_INVENTORY_SIZE,
      items in *; py_simpl; simpl in *;
    rewrite resolves, has_cost; simpl; case_cmp; solve [lia | reflexivity].
Qed.

Lemma purchase_item_poor c :
  gold c < cost ->
  purchase_item item_id item_data c =
    ((_ensure_inventory c).1, inl InsufficientResourcesError).
Proof.
  intros Hgold. destruct c as [? ? ? ? ? ? ? ? g [l |] ? ? ? ? ?];
    unfold purchase_item, _ensure_inventory; py_simpl; simpl in *;
    rewrite resolves, has_cost; simpl; case_cmp; solve [lia | reflexivity].
Qed.

Lemma purchase_item_no_room c :
  cost <= gold c -> (20 <= length (items c))%nat ->
  purchase_item item_id item_data c = (c, inl InventoryFullError).
Proof.
  intros Hgold Hlen. destruct c as [? ? ? ? ? ? ? ? g [l |] ? ? ? ? ?];
    unfold purchase_item, _ensure_inventory, MAX_INVENTORY_SIZE, items in *;
    py_simpl; simpl in *; [| lia];
    rewrite resolves, has_cost; simpl; case_cmp; solve [lia | reflexivity].
Qed.

Lemma sell_item_ok c :
  item_id ∈ items c ->
  sell_item item_id item_data c =
    (set_gold (gold c + cost / 2)
       (set_inventory (Some (remove_first item_id (items c))) c),
     inr (cost / 2)).
Proof.
  intros Hin. destruct c as [? ? ? ? ? ? ? ? g [l |] ? ? ? ? ?];
    [| now apply elem_of_nil in Hin].
  apply contains_true in Hin.
  unfold sell_item, _ensure_inventory, remove_item, items in *.
  py_simpl. simpl in *. rewrite Hin. simpl.
  rewrite resolves, has_cost. reflexivity.
Qed.

End Shop.

(** Whatever [purchase_item] raises, it raises before it touches the gold
    or the inventory: the character is as [_ensure_inventory] left it. *)
Lemma purchase_item_raises_early item_id item_data c c' e :
  purchase_item item_id item_data c = (c', inl e) ->
  c' = (_ensure_inventory c).1.
Proof.
  unfold purchase_item. py_simpl.
  destruct (_ensure_inventory c) as [c1 [e1 | []]] eqn:E1; simpl.
  { unfold _ensure_inventory in E1. py_simpl. discriminate E1. }
  destruct (_resolve_item_info item_id item_data) as [e2 | i]; simpl;
    [intros [= <- _]; reflexivity |].
  destruct (subscript i "cost") as [e3 | v]; simpl;
    [intros [= <- _]; reflexivity |].
  destruct (as_int v) as [e4 | k]; simpl; [intros [= <- _]; reflexivity |].
  destruct (gold c1 <? k); simpl; [intros [= <- _]; reflexivity |].
  destruct (MAX_INVENTORY_SIZE <=? Z.of_nat (length (items c1))); simpl;
    [intros [= <- _]; reflexivity | discriminate].
Qed.

(** C7. With gold [g >= cost] and room in the inventory, [purchase_item]
    followed at once by [sell_item] of the same item succeeds twice, the
    sale returning [cost // 2]; the gold is then [g - cost + cost // 2],
    the inventory has its former length, and for a cost that is not
    negative, as the data model has it, the gold is at most [g]. *)
Theorem purchase_then_sell (c : Character) (item_id : string)
  (item_data : gmap string pyval) (i : info) (cost : Z) :
  _resolve_item_info item_id item_data = inr i ->
  subscript i "cost" = inr (VAtom (AInt cost)) ->
  cost <= gold c ->
  (length (items c) < 20)%nat ->
  exists c1 c2,
    purchase_item item_id item_data c = (c1, inr true) /\
    sell_item item_id item_data c1 = (c2, inr (cost / 2)) /\
    gold c2 = gold c - cost + cost / 2 /\
    length (items c2) = length (items c) /\
    (0 <= cost -> gold c2 <= gold c).
Proof.
  intros Hres Hcost Hgold Hlen.
  eexists _, _.
  split; [now apply (purchase_item_ok item_id item_data i cost) |].
  assert (Hin : item_id ∈ items
                  (set_inventory (Some (items c ++ [item_id])%list)
                     (set_gold (gold c - cost) c))).
  { unfold items at 1. simpl. apply elem_of_app. right. apply list_elem_of_singleton.
    reflexivity. }
  split; [now apply (sell_item_ok item_id item_data i cost) |].
  split; [reflexivity |].
  split.
  - unfold items at 1. simpl. unfold items at 1. simpl.
    pose proof (remove_first_length item_id (items c ++ [item_id])%list) as Hrm.
    rewrite length_app in Hrm. simpl in Hrm.
    assert (item_id ∈ (items c ++ [item_id])%list) as Hin'
      by (apply elem_of_app; right; now apply list_elem_of_singleton).
    specialize (Hrm Hin'). lia.
  - intros Hnonneg. simpl.
    pose proof (Z.div_le_upper_bound cost 2 cost). lia.
Qed.

Lemma purchase_then_sell_witness :
  exists c1 c2,
    purchase_item "iron_sword" (table all_items) hero = (c1, inr true) /\
    sell_item "iron_sword" (table all_items) c1 = (c2, inr (50 / 2)) /\
    gold c2 = gold hero - 50 + 50 / 2 /\
    length (items c2) = length (items hero) /\
    (0 <= 50 -> gold c2 <= gold hero).
Proof.
  apply (purchase_then_sell hero "iron_sword" (table all_items)
           (InfoDict (single iron_sword)) 50).
  - vm_compute. reflexivity.
  - vm_compute. reflexivity.
  - simpl. lia.
  - simpl. lia.
Defined.

(** C9. [purchase_item] tests the gold before the capacity: with gold below
    the cost and twenty items carried it raises
    [InsufficientResourcesError], not [InventoryFullError].  On either
    error, and on any other, the gold and the items carried are what they
    were; the character is unchanged altogether when it had an inventory
    list. *)
Theorem purchase_item_checks_gold_first (c : Character) (item_id : string)
  (item_data : gmap string pyval) (i : info) (cost : Z) :
  _resolve_item_info item_id item_data = inr i ->
  subscript i "cost" = inr (VAtom (AInt cost)) ->
  gold c < cost ->
  (20 <= length (items c))%nat ->
  purchase_item item_id item_data c = (c, inl InsufficientResourcesError) /\
  (forall c0,
     cost <= gold c0 -> (20 <= length (items c0))%nat ->
     purchase_item item_id item_data c0 = (c0, inl InventoryFullError)) /\
  (forall c0 c' e,
     purchase_item item_id item_data c0 = (c', inl e) ->
     gold c' = gold c0 /\ items c' = items c0 /\
     (is_Some (inventory c0) -> c' = c0)).
Proof.
  intros Hres Hcost Hgold Hlen. split; [| split].
  - rewrite (purchase_item_poor item_id item_data i cost) by assumption.
    rewrite ensure_inventory_noop; [reflexivity |].
    rewrite carrying_has_inventory by lia. eauto.
  - intros c0 Hg Hl. now apply (purchase_item_no_room item_id item_data i cost).
  - intros c0 c' e E. apply purchase_item_raises_early in E. subst c'.
    destruct (ensure_inventory_keeps c0) as (Hg & Hi & _).
    repeat split; [exact Hg | exact Hi |].
    intros Hsome. now rewrite ensure_inventory_noop.
Qed.

Lemma purchase_item_checks_gold_first_witness :
  purchase_item "steel_sword" (table all_items)
    (set_inventory (Some (replicate 20 "potion")) hero) =
  (set_inventory (Some (replicate 20 "potion")) hero,
   inl InsufficientResourcesError).
Proof.
  apply (purchase_item_checks_gold_first
           (set_inventory (Some (replicate 20 "potion")) hero)
           "steel_sword" (table all_items) (InfoDict (single steel_sword)) 150).
  - vm_compute. reflexivity.
  - vm_compute. reflexivity.
  - vm_compute. reflexivity.
  - vm_compute. lia.
Defined.

(* ===================================================================== *)
(** ** Equipment                                                         *)
(* ===================================================================== *)

Lemma single_lookup (d : gmap string atom) (k : string) :
  single d !! k = VAtom <$> d !! k.
Proof. unfold single. apply lookup_fmap. Qed.

Lemma table_lookup (t : gmap string (gmap string atom)) (k : string) :
  table t !! k = VDict <$> t !! k.
Proof. unfold table. apply lookup_fmap. Qed.

(** A single item record says nothing about the item in the slot. *)
Lemma old_info_of_single (d : gmap string atom) (old_id : string) :
  old_info_of (single d) old_id = None.
Proof.
  unfold old_info_of. rewrite single_lookup. now destruct (d !! old_id).
Qed.

Lemma carried_has_inventory c x : x ∈ items c -> is_Some (inventory c).
Proof.
  unfold items. destruct (inventory c); simpl; [eauto |].
  intros H. now apply elem_of_nil in H.
Qed.

Section EquipWeapon.

Variables (item_id old_id new_effect new_stat : string) (new_val : Z).
Variable new_item : gmap string atom.

Hypothesis new_is_weapon : new_item !! "type" = Some (AStr "weapon").
Hypothesis new_has_effect : new_item !! "effect" = Some (AStr new_effect).
Hypothesis new_parses : parse_item_effect new_effect = inr (new_stat, new_val).

Lemma apply_new_effect c c' :
  apply_stat_effect new_stat new_val c = (c', inr tt) ->
  apply_effect_if_any (single new_item) false c = (c', inr true).
Proof.
  intros E. unfold apply_effect_if_any, effect_of.
  rewrite single_lookup, new_has_effect. simpl.
  rewrite new_parses. rewrite bind_lift_ok.
  erewrite bind_run by exact E. reflexivity.
Qed.

(** Given the record of the new weapon alone, the old weapon goes back to
    the inventory with its bonus left in place. *)
Lemma equip_weapon_single c c2 :
  item_id ∈ items c ->
  occupied (equipped_weapon c) = Some old_id ->
  apply_stat_effect new_stat new_val
    (set_inventory (Some (items c ++ [old_id])%list) c) = (c2, inr tt) ->
  equip_weapon item_id (single new_item) c =
    (set_inventory (Some (remove_first item_id (items c2)))
       (set_equipped_weapon (Some item_id) c2), inr tt).
Proof.
  intros Hin Hold Hnew. unfold equip_weapon.
  erewrite bind_run by (apply ensure_inventory_noop; eapply carried_has_inventory; eauto).
  rewrite bind_gets. apply contains_true in Hin. rewrite Hin. cbn [negb].
  unfold _resolve_item_info. rewrite single_lookup, new_is_weapon. cbn [fmap option_fmap option_map].
  rewrite decide_True by eauto. rewrite bind_lift_ok.
  rewrite single_lookup, new_is_weapon. cbn [fmap option_fmap option_map].
  rewrite decide_True by reflexivity.
  rewrite bind_gets, Hold, old_info_of_single.
  rewrite bind_assoc, bind_ret. unfold append_item at 1.
  rewrite bind_modify.
  erewrite bind_run by (apply apply_new_effect; exact Hnew).
  reflexivity.
Qed.

Variable data : gmap string (gmap string atom).
Variables (old_item : gmap string atom) (old_effect old_stat : string).
Variable old_val : Z.

Hypothesis no_type_key : data !! "type" = None.
Hypothesis new_listed : data !! item_id = Some new_item.
Hypothesis old_listed : data !! old_id = Some old_item.
Hypothesis old_has_effect : old_item !! "effect" = Some (AStr old_effect).
Hypothesis old_parses : parse_item_effect old_effect = inr (old_stat, old_val).

Lemma reverse_old_effect c c' :
  apply_stat_effect old_stat (- old_val) c = (c', inr tt) ->
  apply_effect_if_any (single old_item) true c = (c', inr true).
Proof.
  intros E. unfold apply_effect_if_any, effect_of.
  rewrite single_lookup, old_has_effect. simpl.
  rewrite old_parses. rewrite bind_lift_ok.
  erewrite bind_run by exact E. reflexivity.
Qed.

(** Given the table of all items, the bonus of the old weapon is taken
    back before it returns to the inventory. *)
Lemma equip_weapon_table c c1 c2 :
  item_id ∈ items c ->
  occupied (equipped_weapon c) = Some old_id ->
  apply_stat_effect old_stat (- old_val) c = (c1, inr tt) ->
  apply_stat_effect new_stat new_val
    (set_inventory (Some (items c1 ++ [old_id])%list) c1) = (c2, inr tt) ->
  equip_weapon item_id (table data) c =
    (set_inventory (Some (remove_first item_id (items c2)))
       (set_equipped_weapon (Some item_id) c2), inr tt).
Proof.
  intros Hin Hold Hrev Hnew. unfold equip_weapon.
  erewrite bind_run
    by (apply ensure_inventory_noop; eapply carried_has_inventory; eauto).
  rewrite bind_gets. apply contains_true in Hin. rewrite Hin. cbn [negb].
  unfold _resolve_item_info. rewrite !table_lookup, no_type_key, new_listed.
  cbn [fmap option_fmap option_map].
  rewrite decide_False by (intros [? ?]; discriminate). rewrite bind_lift_ok.
  rewrite single_lookup, new_is_weapon. cbn [fmap option_fmap option_map].
  rewrite decide_True by reflexivity.
  rewrite bind_gets, Hold. unfold old_info_of.
  rewrite table_lookup, old_listed. cbn [fmap option_fmap option_map].
  rewrite !bind_assoc.
  erewrite bind_run by (apply reverse_old_effect; exact Hrev).
  cbn beta. rewrite bind_ret. unfold append_item at 1.
  rewrite bind_modify.
  erewrite bind_run by (apply apply_new_effect; exact Hnew).
  reflexivity.
Qed.
End EquipWeapon.

(** A stat effect touches neither the inventory nor the slots. *)
Lemma apply_stat_effect_keeps_inventory stat value c c' r :
  apply_stat_effect stat value c = (c', r) ->
  inventory c' = inventory c /\ equipped_weapon c' = equipped_weapon c.
Proof.
  unfold apply_stat_effect. py_simpl.
  repeat (case_decide; [intros [= <- _]; simpl; case_cmp; now split |]).
  destruct (contains stat non_numeric_keys); intros [= <- _]; now split.
Qed.

(** Swapping a weapon for another leaves as many items in the bag. *)
Lemma swap_keeps_length (item_id old_id old_stat new_stat : string)
  (old_val new_val : Z) c c1 c2 :
  item_id ∈ items c ->
  apply_stat_effect old_stat (- old_val) c = (c1, inr tt) ->
  apply_stat_effect new_stat new_val
    (set_inventory (Some (items c1 ++ [old_id])%list) c1) = (c2, inr tt) ->
  length (items (set_inventory (Some (remove_first item_id (items c2)))
                   (set_equipped_weapon (Some item_id) c2))) =
  length (items c).
Proof.
  intros Hin H1 H2.
  apply apply_stat_effect_keeps_inventory in H1 as [E1 _].
  apply apply_stat_effect_keeps_inventory in H2 as [E2 _].
  assert (items c1 = items c) as Hc1 by (unfold items; now rewrite E1).
  assert (items c2 = (items c ++ [old_id])%list) as Hc2
    by (unfold items at 1; rewrite E2; simpl; now rewrite Hc1).
  unfold items at 1. simpl. rewrite Hc2.
  pose proof (remove_first_length item_id (items c ++ [old_id])%list) as Hrm.
  rewrite length_app in Hrm. simpl in Hrm.
  assert (item_id ∈ (items c ++ [old_id])%list) as Hin'
    by (apply elem_of_app; now left).
  specialize (Hrm Hin'). lia.
Qed.

(** What [apply_stat_effect] does for the two health keys: a change of
    ["health"] is capped at [max_health] and has no floor; a change of
    ["max_health"] leaves [health] alone. *)
Lemma apply_stat_effect_health value c :
  apply_stat_effect "health" value c =
    (set_health (Z.min (health c + value) (max_health c)) c, inr tt).
Proof.
  unfold apply_stat_effect. simpl. py_simpl. simpl.
  destruct (Z.ltb_spec (max_health c) (health c + value)); f_equal.
  - now rewrite Z.min_r by lia.
  - rewrite Z.min_l by lia. now destruct c.
Qed.

Lemma apply_stat_effect_max_health value c :
  apply_stat_effect "max_health" value c =
    (set_max_health (max_health c + value) c, inr tt).
Proof. reflexivity. Qed.

Lemma apply_stat_effect_strength value c :
  apply_stat_effect "strength" value c =
    (set_strength (strength c + value) c, inr tt).
Proof. reflexivity. Qed.

(** C4 at the Warrior who wields the iron sword (strength 15 + 5) and
    carries the steel sword.  Given the table of all items, [equip_weapon]
    takes the 5 back and adds 10: strength 25.  Given the record of the
    steel sword alone, which is what the menu passes, it adds 10 to the 20:
    the iron sword is back in the inventory and its bonus is still
    applied. *)
Theorem equip_weapon_single_record_keeps_old_bonus :
  (equip_weapon "iron_sword" (single iron_sword)
     (set_inventory (Some ["iron_sword"; "steel_sword"]) hero)).1 = armed /\
  (let c' := (equip_weapon "steel_sword" (table all_items) armed).1 in
   strength c' = 25 /\ items c' = ["iron_sword"] /\
   equipped_weapon c' = Some "steel_sword") /\
  (let c' := (equip_weapon "steel_sword" (single steel_sword) armed).1 in
   strength c' = 30 /\ items c' = ["iron_sword"] /\
   equipped_weapon c' = Some "steel_sword") /\
  (equip_weapon "steel_sword" (single steel_sword) armed).2 = inr tt.
Proof. vm_compute. repeat split. Qed.

(** C2 at the Warrior who wears the leather armor ("max_health:+10") at
    full health 130 of 130, a state reached by equipping the armor and
    healing.  [unequip_armor] lowers max_health to 120 and leaves health at
    130. *)
Theorem unequip_armor_leaves_health_above_max :
  (equip_armor "leather_armor" (table all_items)
     (set_inventory (Some ["leather_armor"]) hero)).2 = inr tt /\
  (heal_character 10
     (equip_armor "leather_armor" (table all_items)
        (set_inventory (Some ["leather_armor"]) hero)).1).1 = armored /\
  health_in_bounds armored /\
  (unequip_armor (table all_items) armored).2 = inr (Some "leather_armor") /\
  health (unequip_armor (table all_items) armored).1 = 130 /\
  max_health (unequip_armor (table all_items) armored).1 = 120 /\
  ~ health_in_bounds (unequip_armor (table all_items) armored).1.
Proof.
  assert (E : unequip_armor (table all_items) armored =
              (set_inventory (Some ["leather_armor"])
                 (set_equipped_armor None (set_max_health 120 armored)),
               inr (Some "leather_armor"))) by (vm_compute; reflexivity).
  rewrite E. repeat split; try (vm_compute; congruence).
  unfold health_in_bounds. simpl. lia.
Qed.

(* ===================================================================== *)
(** ** Further properties of character_manager.py                        *)
(* ===================================================================== *)

Lemma levelled_from_refl c : levelled_from c c.
Proof.
  unfold levelled_from. rewrite Z.ltb_irrefl. repeat split; lia.
Qed.

Lemma levelled_from_step c c' :
  levelled_from (level_up c) c' -> levelled_from c c'.
Proof.
  unfold levelled_from.
  destruct (level_up_fields c) as (El & Ee & Em & Es & Eg & Eh).
  rewrite El, Ee, Em, Es, Eg, Eh. cbn [level_up name class gold inventory
    active_quests completed_quests equipped_weapon equipped_armor extras
    set_health set_magic set_strength set_max_health set_level set_experience].
  intros (Hl & Hx & Hm & Hs & Hg & Hh & Hrest).
  destruct (Z.ltb_spec (level c) (level c')); [| lia].
  destruct (Z.ltb_spec (level c + 1) (level c')).
  - repeat split; try lia; try apply Hrest.
  - assert (level c' = level c + 1) as E by lia.
    repeat split; try lia; try apply Hrest.
Qed.

Lemma level_up_loop_levelled n :
  forall b c,
    exists c', level_up_loop n b c = (c', inr (b || (level c <? level c'))%bool) /\
               levelled_from c c'.
Proof.
  induction n as [| n IH]; intros b c; simpl.
  - exists c. rewrite Z.ltb_irrefl, orb_false_r.
    split; [reflexivity | apply levelled_from_refl].
  - destruct (level c * 100 <=? experience c).
    + destruct (IH true (level_up c)) as (c' & E & Hrel).
      exists c'. rewrite E. simpl.
      pose proof (levelled_from_step c c' Hrel) as Hrel'.
      split; [| exact Hrel'].
      destruct Hrel as (Hl & _). destruct (level_up_fields c) as (El & _).
      rewrite El in Hl.
      destruct (Z.ltb_spec (level c) (level c')); [| lia].
      now rewrite orb_true_r.
    + exists c. rewrite Z.ltb_irrefl, orb_false_r.
      split; [reflexivity | apply levelled_from_refl].
Qed.

(** X1. For a living character [gain_experience] keeps the books: the
    level never drops, the experience gained is all accounted for by the
    thresholds of the levels gained, every level gained adds 10 to
    max_health and 2 to strength and to magic, health is refilled exactly
    when a level was gained, the answer is [True] exactly then, and gold,
    inventory, quests and equipment are not touched. *)
Theorem gain_experience_accounting (c : Character) (xp : Z) :
  0 < health c ->
  exists c',
    gain_experience xp c = (c', inr (level c <? level c')) /\
    level c <= level c' /\
    experience c' + 50 * level c' * (level c' - 1) =
      experience c + xp + 50 * level c * (level c - 1) /\
    max_health c' = max_health c + 10 * (level c' - level c) /\
    strength c' = strength c + 2 * (level c' - level c) /\
    magic c' = magic c + 2 * (level c' - level c) /\
    health c' = (if level c <? level c' then max_health c' else health c) /\
    gold c' = gold c /\ inventory c' = inventory c /\
    active_quests c' = active_quests c /\
    completed_quests c' = completed_quests c /\
    equipped_weapon c' = equipped_weapon c /\
    equipped_armor c' = equipped_armor c.
Proof.
  intros Hh. rewrite gain_experience_alive by exact Hh.
  unfold level_up_cascade.
  destruct (level_up_loop_levelled
              (loop_fuel (set_experience (experience c + xp) c)) false
              (set_experience (experience c + xp) c)) as (c' & E & Hrel).
  exists c'. split; [exact E |].
  unfold levelled_from in Hrel. cbn [level experience max_health strength
    magic health name class gold inventory active_quests completed_quests
    equipped_weapon equipped_armor extras set_experience] in Hrel.
  destruct Hrel as (H1 & H2 & H3 & H4 & H5 & H6 & _ & _ & H9 & H10 & H11 &
                    H12 & H13 & H14 & _).
  repeat split; try assumption; lia.
Qed.

Lemma gain_experience_accounting_witness :
  exists c',
    gain_experience 1000 hero = (c', inr (level hero <? level c')) /\
    level hero <= level c' /\
    experience c' + 50 * level c' * (level c' - 1) =
      experience hero + 1000 + 50 * level hero * (level hero - 1).
Proof.
  destruct (gain_experience_accounting hero 1000) as (c' & H1 & H2 & H3 & _);
    [reflexivity |].
  exists c'. repeat split; assumption.
Defined.

(** X2. [add_gold] refuses exactly the amounts that would leave the gold
    negative, and then changes nothing; otherwise it returns the new total.
    So a character whose gold is not negative can be given any amount and
    have it taken back, and is then as it was. *)
Theorem add_gold_guard (c : Character) (amount : Z) :
  (gold c + amount < 0 -> add_gold amount c = (c, inl ValueError)) /\
  (0 <= gold c + amount ->
   add_gold amount c = (set_gold (gold c + amount) c, inr (gold c + amount))) /\
  (0 <= gold c -> 0 <= gold c + amount ->
   exists c1, add_gold amount c = (c1, inr (gold c + amount)) /\
              add_gold (- amount) c1 = (c, inr (gold c))).
Proof.
  assert (Hok : forall c0 a, 0 <= gold c0 + a ->
                  add_gold a c0 = (set_gold (gold c0 + a) c0, inr (gold c0 + a))).
  { intros c0 a H. unfold add_gold. py_simpl.
    destruct (Z.ltb_spec (gold c0 + a) 0); [lia | reflexivity]. }
  repeat split.
  - intros H. unfold add_gold. py_simpl.
    destruct (Z.ltb_spec (gold c + amount) 0); [reflexivity | lia].
  - apply Hok.
  - intros Hg Hsum. eexists. split; [now apply Hok |].
    rewrite Hok by (simpl; lia). simpl.
    replace (gold c + amount + - amount) with (gold c) by lia.
    now destruct c.
Qed.

(** X3. [revive_character] leaves a living character alone and answers
    [False]; a dead one gets [max_health // 2] and the answer [True], and
    is alive afterwards exactly when [max_health] is at least 2: with
    [max_health] 1 or less the character is "revived" at health 0 or
    below. *)
Theorem revive_character_outcome (c : Character) :
  (0 < health c -> revive_character c = (c, inr false)) /\
  (health c <= 0 ->
   revive_character c = (set_health (max_health c / 2) c, inr true)) /\
  (health c <= 0 ->
   (is_character_dead (revive_character c).1 = false <-> 2 <= max_health c)).
Proof.
  assert (Hdead : health c <= 0 ->
            revive_character c = (set_health (max_health c / 2) c, inr true)).
  { intros H. unfold revive_character, is_character_dead. py_simpl.
    destruct (Z.leb_spec (health c) 0); [reflexivity | lia]. }
  repeat split.
  - intros H. unfold revive_character, is_character_dead. py_simpl.
    destruct (Z.leb_spec (health c) 0); [lia | reflexivity].
  - exact Hdead.
  - rewrite Hdead by assumption. unfold is_character_dead. simpl.
    intros Halive. apply Z.leb_gt in Halive.
    destruct (Z.le_gt_cases 2 (max_health c)) as [| Hlt]; [assumption |].
    assert (max_health c / 2 < 1); [| lia].
    apply Z.div_lt_upper_bound; lia.
  - rewrite Hdead by assumption. unfold is_character_dead. simpl.
    intros Hmax. apply Z.leb_gt.
    assert (1 <= max_health c / 2); [| lia].
    apply Z.div_le_lower_bound; lia.
Qed.

(** X4. [heal_character] rejects a negative amount with [ValueError] and
    changes nothing.  Otherwise it never leaves health above max_health;
    from a health within bounds it restores between 0 and [amount] points
    and stays within bounds; from a health above max_health it takes health
    away, down to max_health, and returns a negative number. *)
Theorem heal_character_bounds (c : Character) (amount : Z) :
  (amount < 0 -> heal_character amount c = (c, inl ValueError)) /\
  (0 <= amount ->
   exists restored,
     heal_character amount c =
       (set_health (health c + restored) c, inr restored) /\
     health c + restored <= max_health c /\
     (health c <= max_health c -> 0 <= restored <= amount) /\
     (health_in_bounds c ->
      health_in_bounds (set_health (health c + restored) c)) /\
     (max_health c < health c -> restored = max_health c - health c)).
Proof.
  split.
  - intros H. unfold heal_character. py_simpl.
    destruct (Z.ltb_spec amount 0); [reflexivity | lia].
  - intros H. exists (Z.min (health c + amount) (max_health c) - health c).
    split; [| unfold health_in_bounds; simpl; repeat split; lia].
    unfold heal_character. py_simpl.
    destruct (Z.ltb_spec amount 0); [lia |]. simpl.
    do 2 f_equal. lia.
Qed.

(* ===================================================================== *)
(** ** Further properties of combat_system.py                            *)
(* ===================================================================== *)

Section Wp.
Context {S A : Type}.
Implicit Types (m : Py S A) (Q : S -> exn + A -> Prop) (s : S).

Lemma wp_bind {B} m (k : A -> Py S B) (Q : S -> exn + B -> Prop) s :
  wp m (fun s' r => match r with
                    | inr a => wp (k a) Q s'
                    | inl e => Q s' (inl e)
                    end) s ->
  wp (bind m k) Q s.
Proof. unfold wp, bind. destruct (m s) as [s' [e | a]]; simpl; auto. Qed.

Lemma wp_mono m Q Q' s :
  wp m Q s -> (forall s' r, Q s' r -> Q' s' r) -> wp m Q' s.
Proof. unfold wp. auto. Qed.

Lemma wp_gets (f : S -> A) Q s : Q s (inr (f s)) -> wp (gets f) Q s.
Proof. auto. Qed.

Lemma wp_ret (a : A) Q s : Q s (inr a) -> wp (ret a) Q s.
Proof. auto. Qed.

Lemma wp_raise e Q s : Q s (inl e) -> wp (raise e) Q s.
Proof. auto. Qed.

Lemma wp_lift (r : exn + A) Q s : Q s r -> wp (lift r) Q s.
Proof. auto. Qed.
End Wp.

Lemma wp_modify {S} (f : S -> S) (Q : S -> exn + unit -> Prop) s :
  Q (f s) (inr tt) -> wp (modify f) Q s.
Proof. auto. Qed.

(** One step of a postcondition proof. *)
Ltac wp_step :=
  cbv beta iota;
  lazymatch goal with
  | |- wp (bind _ _) _ _ => apply wp_bind
  | |- wp (gets _) _ _ => apply wp_gets; cbv beta iota
  | |- wp (ret _) _ _ => apply wp_ret; cbv beta iota
  | |- wp (raise _) _ _ => apply wp_raise; cbv beta iota
  | |- wp (lift _) _ _ => apply wp_lift; cbv beta iota
  | |- wp (modify _) _ _ => apply wp_modify; cbv beta iota
  end.

Lemma below_half_spec rnd : below_half rnd = true <-> (rnd < 1 # 2)%Q.
Proof.
  unfold below_half. rewrite negb_true_iff, <- not_true_iff_false, Qle_bool_iff.
  split; [apply Qnot_le_lt | apply Qlt_not_le].
Qed.

Lemma check_battle_end_spec b :
  check_battle_end b =
    if health (character b) <=? 0
    then (set_combat_active false b, inr (Some enemy))
    else if Enemy.health (the_enemy b) <=? 0
    then (set_combat_active false b, inr (Some player))
    else (b, inr None).
Proof. reflexivity. Qed.

Lemma apply_damage_spec t d b :
  exists b', apply_damage t d b = (b', inr tt) /\ damaged t d b b'.
Proof.
  unfold damaged.
  destruct b as [c e act tc res]; destruct t;
    unfold apply_damage, check_battle_end, target_health, set_target_health;
    py_simpl; simpl;
    repeat match goal with
           | |- context [if ?x <? ?y then _ else _] =>
               destruct (Z.ltb_spec x y); simpl
           | |- context [if ?x <=? ?y then _ else _] =>
               destruct (Z.leb_spec x y); simpl
           end;
    eexists; (split; [reflexivity |]); simpl;
    repeat match goal with
           | |- context [?x <? ?y] => destruct (Z.ltb_spec x y); simpl
           end;
    rewrite ?andb_true_r, ?andb_false_r;
    repeat split; try lia; try reflexivity.
Qed.

Lemma wp_apply_damage t d (Q : SimpleBattle -> exn + unit -> Prop) b :
  (forall b', damaged t d b b' -> Q b' (inr tt)) ->
  wp (apply_damage t d) Q b.
Proof.
  intros H. unfold wp. destruct (apply_damage_spec t d b) as (b' & E & Hd).
  rewrite E. simpl. auto.
Qed.

(** X5. [apply_damage] takes the damage off the target's health and stops
    at 0; the other fighter, the turn counter and the result are not
    touched, and the battle stays active only if it was and both are still
    alive. *)
Theorem apply_damage_floors_at_zero (t : Target) (d : Z) (b : SimpleBattle) :
  exists b',
    apply_damage t d b = (b', inr tt) /\
    target_health t b' = Z.max 0 (target_health t b - d) /\
    match t with
    | at_character =>
        the_enemy b' = the_enemy b /\
        character b' = set_health (health (character b')) (character b)
    | at_enemy =>
        character b' = character b /\
        the_enemy b' = Enemy.set_health (Enemy.health (the_enemy b')) (the_enemy b)
    end /\
    combat_active b' =
      (combat_active b && (0 <? health (character b')) &&
       (0 <? Enemy.health (the_enemy b')))%bool /\
    turn_counter b' = turn_counter b /\
    battle_result b' = battle_result b.
Proof. exact (apply_damage_spec t d b). Qed.

Lemma damage_enemy_spec d c e :
  damage_enemy d (c, e) =
    ((c, Enemy.set_health (Z.max 0 (Enemy.health e - d)) e), inr tt).
Proof.
  unfold damage_enemy. py_simpl. simpl.
  destruct (Z.ltb_spec (Enemy.health e - d) 0); simpl.
  - now rewrite Z.max_l by lia.
  - rewrite Z.max_r by lia. reflexivity.
Qed.

Lemma use_special_ability_spec rnd c e :
  use_special_ability rnd (c, e) =
    (if decide (class c = "Warrior") then
       (c, Enemy.set_health (Z.max 0 (Enemy.health e - strength c * 2)) e)
     else if decide (class c = "Mage") then
       (c, Enemy.set_health (Z.max 0 (Enemy.health e - magic c * 2)) e)
     else if decide (class c = "Rogue") then
       (c, Enemy.set_health
             (Z.max 0 (Enemy.health e -
                       (if below_half rnd then strength c * 3 else strength c)))
             e)
     else if decide (class c = "Cleric") then
       (set_health (Z.min (health c + 30) (max_health c)) c, e)
     else (c, e),
     inr tt).
Proof.
  unfold use_special_ability. rewrite bind_gets.
  repeat case_decide.
  - unfold warrior_power_strike. rewrite bind_gets. apply damage_enemy_spec.
  - unfold mage_fireball. rewrite bind_gets. apply damage_enemy_spec.
  - unfold rogue_critical_strike. rewrite bind_gets. apply damage_enemy_spec.
  - reflexivity.
  - reflexivity.
Qed.

(** X6. A special ability never raises.  The strikes of the Warrior
    (twice the strength), the Mage (twice the magic) and the Rogue (three
    times the strength on a draw below one half, once otherwise) leave the
    character alone and take the enemy's health down, never below 0; the
    Cleric's heal adds 30 to the character's health, up to max_health, and
    leaves the enemy alone; any other class changes nothing. *)
Theorem special_ability_by_class (rnd : Q) (c : Character) (e : Enemy.t) :
  exists c' e',
    use_special_ability rnd (c, e) = ((c', e'), inr tt) /\
    (class c ∈ ["Warrior"; "Mage"; "Rogue"] ->
     c' = c /\
     e' = Enemy.set_health (Enemy.health e') e /\
     0 <= Enemy.health e' /\
     Enemy.health e' =
       Z.max 0 (Enemy.health e -
                (if decide (class c = "Warrior") then strength c * 2
                 else if decide (class c = "Mage") then magic c * 2
                 else if below_half rnd then strength c * 3 else strength c))) /\
    (class c = "Cleric" ->
     e' = e /\ c' = set_health (Z.min (health c + 30) (max_health c)) c) /\
    (class c ∉ ["Warrior"; "Mage"; "Rogue"; "Cleric"] -> c' = c /\ e' = e).
Proof.
  rewrite use_special_ability_spec.
  repeat case_decide; eexists _, _; (split; [reflexivity |]);
    (split; [| split]);
    rewrite ?elem_of_cons, ?not_elem_of_cons, ?elem_of_nil;
    try (intros; simpl; repeat split; solve [lia | congruence | tauto]).
  all: intros; try congruence; try tauto.
Qed.

(** The last part of both turns: whatever the battle is like, once
    [check_battle_end] has run it is not active unless both are alive. *)
Lemma wp_check_battle_end (Q : SimpleBattle -> exn + option Winner -> Prop) b :
  (health (character b) <= 0 ->
   Q (set_combat_active false b) (inr (Some enemy))) ->
  (0 < health (character b) -> Enemy.health (the_enemy b) <= 0 ->
   Q (set_combat_active false b) (inr (Some player))) ->
  (both_alive b -> Q b (inr None)) ->
  wp check_battle_end Q b.
Proof.
  intros H1 H2 H3. unfold wp, both_alive in *. rewrite check_battle_end_spec.
  destruct (Z.leb_spec (health (character b)) 0); [now apply H1 |].
  destruct (Z.leb_spec (Enemy.health (the_enemy b)) 0);
    [now apply H2 | apply H3; lia].
Qed.

Lemma on_fighters_ability rnd b :
  exists c' e',
    on_fighters (use_special_ability rnd) b =
      (set_enemy e' (set_character c' b), inr tt).
Proof.
  unfold on_fighters. rewrite use_special_ability_spec.
  repeat case_decide; eexists _, _; reflexivity.
Qed.

Lemma player_turn_closed choice rnd
  (Q : SimpleBattle -> exn + unit -> Prop) b :
  (combat_active b = false -> Q b (inl CombatNotActiveError)) ->
  (combat_active b = true ->
   forall b', combat_active b' = false -> Q b' (inr tt)) ->
  (combat_active b = true ->
   forall b' res, both_alive b' -> combat_active b' = true ->
     Q (set_turn_counter (turn_counter b' + 1) (set_battle_result res b'))
       (inr tt)) ->
  (combat_active b = true ->
   forall b', both_alive b' -> combat_active b' = false ->
     Q (set_turn_counter (turn_counter b' + 1) b') (inr tt)) ->
  (forall b' res, combat_active b' = false ->
     Q (set_turn_counter (turn_counter b' + 1) (set_battle_result res b'))
       (inr tt)) ->
  wp (player_turn choice rnd) Q b.
Proof.
  intros Hoff Hesc Hon Hon' Hend. unfold player_turn.
  wp_step. wp_step. destruct (combat_active b) eqn:Ha; cbn [negb].
  2: { wp_step. now apply Hoff. }
  specialize (Hesc eq_refl). specialize (Hon eq_refl).
  specialize (Hon' eq_refl).
  wp_step.
  apply wp_mono with (Q := acted).
  - repeat case_decide.
    + wp_step. wp_step. wp_step. apply wp_apply_damage. intros b' _.
      wp_step. now left.
    + wp_step. unfold wp at 1.
      destruct (on_fighters_ability rnd b) as (c' & e' & ->). cbn [fst snd].
      wp_step. now left.
    + wp_step. unfold attempt_escape. wp_step. wp_step. rewrite Ha. cbn [negb].
      wp_step. destruct (below_half rnd).
      * wp_step. wp_step. wp_step. right. split; reflexivity.
      * wp_step. wp_step. now left.
    + wp_step. now left.
  - intros b' r [-> | [-> Hb']].
    + wp_step. apply wp_check_battle_end.
      * intros _. case_decide; [discriminate |]. wp_step. wp_step. wp_step.
        destruct b' as [c e act tc res].
        now apply (Hend (mkBattle c e false tc res) res).
      * intros _ _. case_decide; [| congruence].
        wp_step. wp_step. wp_step. wp_step. wp_step.
        now apply (Hend (set_combat_active false b')).
      * intros Halive. case_decide; [discriminate |]. wp_step. wp_step. wp_step.
        destruct b' as [c e [|] tc res].
        -- now apply (Hon (mkBattle c e true tc res) res).
        -- now apply Hon'.
    + wp_step. now apply Hesc.
Qed.

(** Decide every comparison in the goal. *)
Ltac crunch :=
  repeat match goal with
         | |- context [if ?x <=? ?y then _ else _] =>
             destruct (Z.leb_spec x y); simpl
         | |- context [if ?x <? ?y then _ else _] =>
             destruct (Z.ltb_spec x y); simpl
         | |- context [negb (?x <=? ?y)] =>
             destruct (Z.leb_spec x y); simpl
         end;
  try lia; try reflexivity.

Lemma enemy_turn_spec b :
  combat_active b = true ->
  enemy_turn b =
    (let h := Z.max 0 (health (character b) - Enemy.strength (the_enemy b)) in
     let c' := set_health h (character b) in
     if h <=? 0 then
       mkBattle c' (the_enemy b) false (turn_counter b + 1)
         (Some (mkResult (Some enemy) 0 0))
     else
       mkBattle c' (the_enemy b)
         (negb (Enemy.health (the_enemy b) <=? 0))
         (turn_counter b + 1) (battle_result b),
     inr tt).
Proof.
  intros Ha. destruct b as [c e act tc res]. simpl in Ha. subst act.
  unfold enemy_turn, apply_damage, check_battle_end, target_health,
    set_target_health. py_simpl. simpl.
  destruct (Z.max_spec 0 (health c - Enemy.strength e)) as [[? ->] | [? ->]];
    crunch.
  replace (health c - Enemy.strength e) with 0 by lia. reflexivity.
Qed.

Lemma player_attack_spec rnd b :
  combat_active b = true -> 0 < health (character b) ->
  player_turn "1" rnd b =
    (let h := Z.max 0 (Enemy.health (the_enemy b) - strength (character b)) in
     let e' := Enemy.set_health h (the_enemy b) in
     if h <=? 0 then
       mkBattle (character b) e' false (turn_counter b + 1)
         (Some (mkResult (Some player) (Enemy.xp_reward (the_enemy b))
                  (Enemy.gold_reward (the_enemy b))))
     else
       mkBattle (character b) e' true (turn_counter b + 1) (battle_result b),
     inr tt).
Proof.
  intros Ha Hc. destruct b as [c e act tc res]. simpl in Ha, Hc. subst act.
  unfold player_turn, apply_damage, check_battle_end, target_health,
    set_target_health, get_victory_rewards. py_simpl. simpl.
  destruct (Z.max_spec 0 (Enemy.health e - strength c)) as [[? ->] | [? ->]];
    crunch.
  replace (Enemy.health e - strength c) with 0 by lia. reflexivity.
Qed.

(** X7. The turn operations raise [CombatNotActiveError] when no battle is
    active, and then change nothing; in an active battle they raise
    nothing, whatever the player types and whatever is drawn. *)
Theorem turns_need_an_active_battle (b : SimpleBattle) (choice : string)
  (rnd : Q) :
  (combat_active b = false ->
   player_turn choice rnd b = (b, inl CombatNotActiveError) /\
   enemy_turn b = (b, inl CombatNotActiveError) /\
   attempt_escape rnd b = (b, inl CombatNotActiveError)) /\
  (combat_active b = true ->
   (player_turn choice rnd b).2 = inr tt /\
   (enemy_turn b).2 = inr tt /\
   (attempt_escape rnd b).2 = inr (below_half rnd)).
Proof.
  split; intros Ha.
  - unfold player_turn, enemy_turn, attempt_escape. py_simpl. rewrite Ha.
    repeat split.
  - repeat split.
    + apply (player_turn_closed choice rnd (fun _ r => r = inr tt));
        try reflexivity; congruence.
    + now rewrite enemy_turn_spec.
    + unfold attempt_escape. py_simpl. rewrite Ha. simpl.
      now destruct (below_half rnd).
Qed.

(** X8. After a turn of either side the battle is active only if it was
    active before and both fighters are alive: no turn leaves a fight going
    on with someone at health 0 or below, and no turn restarts a battle. *)
Theorem fight_goes_on_only_between_the_living (b : SimpleBattle)
  (choice : string) (rnd : Q) :
  (combat_active (player_turn choice rnd b).1 = true ->
   combat_active b = true /\ both_alive (player_turn choice rnd b).1) /\
  (combat_active (enemy_turn b).1 = true ->
   combat_active b = true /\ both_alive (enemy_turn b).1).
Proof.
  split.
  - apply (player_turn_closed choice rnd
             (fun b' _ => combat_active b' = true ->
                          combat_active b = true /\ both_alive b')).
    + congruence.
    + congruence.
    + intros Ha b' res Halive _ _. split; [exact Ha | exact Halive].
    + intros Ha b' Halive Hb'. simpl. congruence.
    + intros b' res Hb'. simpl. congruence.
  - destruct (combat_active b) eqn:Ha.
    + rewrite enemy_turn_spec by exact Ha. cbv zeta.
      destruct (Z.leb_spec
                  (Z.max 0 (health (character b) -
                            Enemy.strength (the_enemy b))) 0);
        simpl; [discriminate |].
      destruct (Z.leb_spec (Enemy.health (the_enemy b)) 0);
        simpl; [discriminate |].
      intros _. unfold both_alive. simpl. split; [reflexivity | lia].
    + unfold enemy_turn. py_simpl. rewrite Ha. simpl. congruence.
Qed.

(** X9. In an active battle the basic attack of a living character whose
    strength is at least the enemy's health takes the enemy to 0, ends the
    battle and records the victory with the enemy's own [xp_reward] and
    [gold_reward]; the character is not touched and the turn is counted. *)
Theorem killing_blow_wins (b : SimpleBattle) (rnd : Q) :
  combat_active b = true ->
  0 < health (character b) ->
  Enemy.health (the_enemy b) <= strength (character b) ->
  player_turn "1" rnd b =
    (mkBattle (character b) (Enemy.set_health 0 (the_enemy b)) false
       (turn_counter b + 1)
       (Some (mkResult (Some player) (Enemy.xp_reward (the_enemy b))
                (Enemy.gold_reward (the_enemy b)))),
     inr tt).
Proof.
  intros Ha Hc Hkill. rewrite player_attack_spec by assumption. cbv zeta.
  rewrite Z.max_l by lia. reflexivity.
Qed.

Lemma killing_blow_wins_witness :
  player_turn "1" 0%Q
    (mkBattle hero (Enemy.set_health 10 goblin) true 4 (Some (mkResult None 0 0))) =
  (mkBattle hero (Enemy.set_health 0 goblin) false 5
     (Some (mkResult (Some player) 25 10)), inr tt).
Proof.
  apply (killing_blow_wins
           (mkBattle hero (Enemy.set_health 10 goblin) true 4
              (Some (mkResult None 0 0))) 0%Q);
    [reflexivity | reflexivity | simpl; lia].
Defined.

(** X10. Running away: in an active battle, choice 3 with a draw below
    one half ends the battle with winner ["none"] and no rewards, touches
    neither fighter and does not count the turn; with a draw of one half or
    more, and both fighters alive, the only change is that the turn is
    counted. *)
Theorem running_away (b : SimpleBattle) (rnd : Q) :
  combat_active b = true ->
  ((rnd < 1 # 2)%Q ->
   player_turn "3" rnd b =
     (set_battle_result (Some (mkResult (Some none) 0 0))
        (set_combat_active false b), inr tt)) /\
  ((1 # 2 <= rnd)%Q -> both_alive b ->
   player_turn "3" rnd b = (set_turn_counter (turn_counter b + 1) b, inr tt)).
Proof.
  intros Ha. destruct b as [c e act tc res]. simpl in Ha. subst act.
  split.
  - intros Hr. apply below_half_spec in Hr.
    unfold player_turn, attempt_escape. py_simpl. simpl. rewrite Hr. reflexivity.
  - intros Hr [Hc He]. simpl in Hc, He.
    assert (below_half rnd = false) as Hb.
    { apply not_true_iff_false. rewrite below_half_spec.
      now apply Qle_not_lt. }
    unfold player_turn, attempt_escape, check_battle_end. py_simpl. simpl.
    rewrite Hb. simpl.
    destruct (Z.leb_spec (health c) 0); [lia |].
    destruct (Z.leb_spec (Enemy.health e) 0); [lia | reflexivity].
Qed.

Lemma running_away_witness :
  ((1 # 4 < 1 # 2)%Q ->
   player_turn "3" (1 # 4) arena =
     (set_battle_result (Some (mkResult (Some none) 0 0))
        (set_combat_active false arena), inr tt)) /\
  ((1 # 2 <= 3 # 4)%Q -> both_alive arena ->
   player_turn "3" (3 # 4) arena =
     (set_turn_counter (turn_counter arena + 1) arena, inr tt)).
Proof.
  split.
  - apply (running_away arena (1 # 4)). reflexivity.
  - apply (running_away arena (3 # 4)). reflexivity.
Defined.

(** X11. The enemy's turn in an active battle: the character loses the
    enemy's strength, down to 0 at most, and the turn is counted.  If that
    leaves the character at 0 the battle ends and the defeat is recorded
    with no rewards; otherwise the result is untouched and the battle goes
    on (as long as the enemy is alive). *)
Theorem enemy_turn_outcome (b : SimpleBattle) :
  combat_active b = true ->
  (health (character b) <= Enemy.strength (the_enemy b) ->
   enemy_turn b =
     (mkBattle (set_health 0 (character b)) (the_enemy b) false
        (turn_counter b + 1) (Some (mkResult (Some enemy) 0 0)), inr tt)) /\
  (Enemy.strength (the_enemy b) < health (character b) ->
   0 < Enemy.health (the_enemy b) ->
   enemy_turn b =
     (mkBattle
        (set_health (health (character b) - Enemy.strength (the_enemy b))
           (character b))
        (the_enemy b) true (turn_counter b + 1) (battle_result b), inr tt)).
Proof.
  intros Ha. split.
  - intros Hd. rewrite enemy_turn_spec by exact Ha. cbv zeta.
    rewrite Z.max_l by lia. reflexivity.
  - intros Hs He. rewrite enemy_turn_spec by exact Ha. cbv zeta.
    rewrite Z.max_r by lia.
    destruct (Z.leb_spec (health (character b) - Enemy.strength (the_enemy b)) 0);
      [lia |].
    destruct (Z.leb_spec (Enemy.health (the_enemy b)) 0); [lia | reflexivity].
Qed.

Lemma enemy_turn_outcome_witness :
  enemy_turn arena =
    (mkBattle (set_health (120 - 8) hero) goblin true 2
       (Some (mkResult None 0 0)), inr tt).
Proof.
  destruct (enemy_turn_outcome arena) as [_ H]; [reflexivity |].
  apply H; reflexivity.
Defined.

Lemma lower_ascii_idempotent a : lower_ascii (lower_ascii a) = lower_ascii a.
Proof. destruct a as [[] [] [] [] [] [] [] []]; reflexivity. Qed.

Lemma lower_idempotent s : lower (lower s) = lower s.
Proof.
  induction s as [| a s IH]; simpl; [reflexivity |].
  now rewrite lower_ascii_idempotent, IH.
Qed.

Lemma enemy_for_level_cases lvl :
  get_random_enemy_for_level lvl =
    inr (if lvl <=? 2 then Enemy.mk "Goblin" "goblin" 50 50 8 2 25 10
         else if lvl <=? 5 then Enemy.mk "Orc" "orc" 80 80 12 5 50 25
         else Enemy.mk "Dragon" "dragon" 200 200 25 15 200 100).
Proof.
  unfold get_random_enemy_for_level.
  destruct (lvl <=? 2); [reflexivity |]. destruct (lvl <=? 5); reflexivity.
Qed.

(** X12. Enemies.  [create_enemy] ignores the case of the type it is given
    and raises [InvalidTargetError] for every name other than goblin, orc
    and dragon.  [get_random_enemy_for_level] never raises: it gives a
    goblin up to level 2, an orc for levels 3 to 5 and a dragon from level
    6, always at full, positive health, and a higher level never meets an
    enemy that is weaker or pays less. *)
Theorem enemies_by_level (enemy_type : string) (lvl lvl' : Z) :
  create_enemy enemy_type = create_enemy (lower enemy_type) /\
  (lower enemy_type ∉ ["goblin"; "orc"; "dragon"] ->
   create_enemy enemy_type = inl InvalidTargetError) /\
  exists e e',
    get_random_enemy_for_level lvl = inr e /\
    generate_enemy lvl = inr e /\
    get_random_enemy_for_level lvl' = inr e' /\
    Enemy.health e = Enemy.max_health e /\ 0 < Enemy.health e /\
    Enemy.type e = (if lvl <=? 2 then "goblin"
                    else if lvl <=? 5 then "orc" else "dragon") /\
    (lvl <= lvl' ->
     Enemy.health e <= Enemy.health e' /\
     Enemy.strength e <= Enemy.strength e' /\
     Enemy.magic e <= Enemy.magic e' /\
     Enemy.xp_reward e <= Enemy.xp_reward e' /\
     Enemy.gold_reward e <= Enemy.gold_reward e').
Proof.
  split; [| split].
  - unfold create_enemy. now rewrite lower_idempotent.
  - intros Hnot. rewrite !not_elem_of_cons in Hnot.
    destruct Hnot as (H1 & H2 & H3 & _).
    unfold create_enemy, templates.
    rewrite !lookup_insert_ne by congruence. now rewrite lookup_empty.
  - eexists _, _. unfold generate_enemy. rewrite !enemy_for_level_cases.
    split; [reflexivity |]. split; [reflexivity |]. split; [reflexivity |].
    destruct (Z.leb_spec lvl 2); [| destruct (Z.leb_spec lvl 5)];
      (destruct (Z.leb_spec lvl' 2); [| destruct (Z.leb_spec lvl' 5)]);
      simpl; repeat split; lia.
Qed.

(** X13. Exploring never pays.  [start_battle] only opens the battle and
    reports no winner, so the body of [explore] always ends in its
    "no clear winner" branch for a living character, whose experience and
    gold, like all the rest, are as before; for a dead character it raises
    [CharacterDeadError].  Its victory branch is never taken. *)
Theorem exploring_never_pays (c : Character) :
  (0 < health c -> explore c = (c, inr no_clear_winner)) /\
  (health c <= 0 -> explore c = (c, inl CharacterDeadError)) /\
  (forall xp g, (explore c).2 <> inr (rewarded xp g)).
Proof.
  assert (Halive : 0 < health c -> explore c = (c, inr no_clear_winner)).
  { intros H. unfold explore. rewrite enemy_for_level_cases.
    rewrite start_battle_alive by exact H. reflexivity. }
  assert (Hdead : health c <= 0 -> explore c = (c, inl CharacterDeadError)).
  { intros H. unfold explore. rewrite enemy_for_level_cases.
    rewrite start_battle_dead by exact H. reflexivity. }
  repeat split; try assumption.
  intros xp g. destruct (Z.lt_ge_cases 0 (health c)).
  - rewrite Halive by assumption. discriminate.
  - rewrite Hdead by lia. discriminate.
Qed.

(* ===================================================================== *)
(** ** Further properties of inventory_system.py                         *)
(* ===================================================================== *)

Section Lists.
Implicit Types (x y : string) (l : list string).

Lemma count_app x l1 l2 : count x (l1 ++ l2)%list = (count x l1 + count x l2)%nat.
Proof.
  induction l1 as [| y l1 IH]; simpl; [reflexivity |].
  case_decide; simpl; now rewrite IH.
Qed.

Lemma count_pos x l : (x ∈ l) <-> (0 < count x l)%nat.
Proof.
  induction l as [| y l IH]; simpl.
  - rewrite elem_of_nil. lia.
  - rewrite elem_of_cons. case_decide; subst; [split; [lia | auto] |].
    rewrite <- IH. split; [intros [-> | ?]; [congruence | assumption] | auto].
Qed.

Lemma count_none x l : x ∉ l -> count x l = O.
Proof. rewrite count_pos. lia. Qed.

(** [list.remove] takes out the first occurrence. *)
Lemma remove_first_split x l :
  x ∈ l ->
  exists before after,
    l = (before ++ x :: after)%list /\ (x ∉ before) /\
    remove_first x l = (before ++ after)%list.
Proof.
  induction l as [| y l IH]; intros Hin.
  - now apply elem_of_nil in Hin.
  - simpl. destruct (decide (x = y)) as [<- | Hne].
    + exists [], l. repeat split. apply not_elem_of_nil.
    + apply elem_of_cons in Hin as [-> | Hin]; [congruence |].
      destruct (IH Hin) as (before & after & -> & Hnot & ->).
      exists (y :: before), after. repeat split.
      rewrite not_elem_of_cons. auto.
Qed.

Lemma remove_first_absent x l : x ∉ l -> remove_first x l = l.
Proof.
  induction l as [| y l IH]; [reflexivity |].
  rewrite not_elem_of_cons. intros [Hne Hnot]. simpl.
  destruct (decide (x = y)); [congruence |]. now rewrite IH.
Qed.

Lemma remove_first_count x y l :
  x ∈ l ->
  count y (remove_first x l) =
    (count y l - (if decide (y = x) then 1 else 0))%nat.
Proof.
  intros Hin. destruct (remove_first_split x l Hin) as (b & a & -> & Hnot & ->).
  rewrite !count_app. simpl. repeat case_decide; subst; try congruence; lia.
Qed.

Lemma remove_first_length_le x l : (length (remove_first x l) <= length l)%nat.
Proof.
  induction l as [| y l IH]; simpl; [lia |].
  destruct (decide (x = y)); simpl; lia.
Qed.
End Lists.

Lemma ensured_items c : items (_ensure_inventory c).1 = items c.
Proof. apply ensure_inventory_keeps. Qed.

Lemma items_set_inventory l c : items (set_inventory (Some l) c) = l.
Proof. reflexivity. Qed.

Lemma items_set_equipped_weapon v c : items (set_equipped_weapon v c) = items c.
Proof. reflexivity. Qed.

Lemma items_set_equipped_armor v c : items (set_equipped_armor v c) = items c.
Proof. reflexivity. Qed.

Lemma ensure_inventory_run c :
  _ensure_inventory c = ((_ensure_inventory c).1, inr tt).
Proof. reflexivity. Qed.

Lemma remove_item_from_inventory_absent c item_id :
  item_id ∉ items c ->
  remove_item_from_inventory item_id c =
    ((_ensure_inventory c).1, inl ItemNotFoundError).
Proof.
  intros Hnot. unfold remove_item_from_inventory.
  rewrite (bind_run _ _ _ _ _ (ensure_inventory_run c)).
  rewrite bind_gets, ensured_items.
  assert (contains item_id (items c) = false) as ->
    by (apply not_true_iff_false; now rewrite contains_true).
  reflexivity.
Qed.

Lemma remove_item_from_inventory_present c item_id :
  item_id ∈ items c ->
  remove_item_from_inventory item_id c =
    (set_inventory (Some (remove_first item_id (items c))) c, inr true).
Proof.
  intros Hin. pose proof (carried_has_inventory c item_id Hin) as Hsome.
  unfold remove_item_from_inventory.
  erewrite bind_run by (now apply ensure_inventory_noop).
  rewrite bind_gets. apply contains_true in Hin. rewrite Hin. reflexivity.
Qed.

(** X14. [remove_item_from_inventory] raises [ItemNotFoundError] when the
    item is not carried, and then the items carried are as before.  When it
    is carried, exactly its first occurrence is taken out: the items before
    and after it keep their order, its count drops by one and no other
    count changes. *)
Theorem remove_takes_the_first_occurrence (c : Character) (item_id : string) :
  (item_id ∉ items c ->
   exists c', remove_item_from_inventory item_id c = (c', inl ItemNotFoundError) /\
              items c' = items c /\ gold c' = gold c) /\
  (item_id ∈ items c ->
   exists before after,
     items c = (before ++ item_id :: after)%list /\ (item_id ∉ before) /\
     remove_item_from_inventory item_id c =
       (set_inventory (Some (before ++ after)%list) c, inr true) /\
     count item_id (before ++ after)%list = pred (count_item c item_id) /\
     forall x, x <> item_id ->
       count x (before ++ after)%list = count_item c x).
Proof.
  split.
  - intros Hnot. eexists. split; [now apply remove_item_from_inventory_absent |].
    destruct (ensure_inventory_keeps c) as (Hg & Hi & _). now split.
  - intros Hin.
    destruct (remove_first_split item_id (items c) Hin)
      as (before & after & E & Hnot & Hrm).
    exists before, after. split; [exact E |]. split; [exact Hnot |].
    split; [rewrite remove_item_from_inventory_present by exact Hin;
            now rewrite Hrm |].
    unfold count_item. rewrite <- Hrm. split.
    + rewrite remove_first_count by exact Hin.
      rewrite decide_True by reflexivity. lia.
    + intros x Hx. rewrite remove_first_count by exact Hin.
      rewrite decide_False by exact Hx. lia.
Qed.



(** X16. After a successful [add_item_to_inventory] the queries see the
    item: [has_item] answers [True], [count_item] is one more than the
    number of copies carried before, the count of every other item is
    unchanged, and the space remaining is one less and not negative. *)
Theorem queries_after_adding (c : Character) (item_id : string) :
  (length (items c) < 20)%nat ->
  exists c',
    add_item_to_inventory item_id c = (c', inr true) /\
    has_item c' item_id = true /\
    count_item c' item_id = S (count item_id (items c)) /\
    (forall x, x <> item_id ->
       count_item c' x = count x (items c) /\
       (has_item c' x = true <-> x ∈ items c)) /\
    get_inventory_space_remaining c' = 20 - Z.of_nat (length (items c)) - 1 /\
    0 <= get_inventory_space_remaining c'.
Proof.
  intros Hlen.
  set (c' := set_inventory (Some (items c ++ [item_id])%list) c).
  assert (E : items c' = (items c ++ [item_id])%list) by reflexivity.
  exists c'. split; [now apply add_item_below_capacity |].
  unfold has_item, count_item, get_inventory_space_remaining,
    MAX_INVENTORY_SIZE. rewrite E, !length_app. simpl.
  repeat split; try lia.
  - apply contains_true, elem_of_app. right. now apply list_elem_of_singleton.
  - rewrite count_app. simpl. rewrite decide_True by reflexivity. lia.
  - rewrite count_app. simpl. rewrite decide_False by congruence. lia.
  - rewrite contains_true, elem_of_app, list_elem_of_singleton. tauto.
  - rewrite contains_true, elem_of_app. auto.
Qed.

Lemma queries_after_adding_witness :
  exists c',
    add_item_to_inventory "steel_sword" armed = (c', inr true) /\
    has_item c' "steel_sword" = true /\
    count_item c' "steel_sword" = S (count "steel_sword" (items armed)).
Proof.
  destruct (queries_after_adding armed "steel_sword") as (c' & H1 & H2 & H3 & _);
    [simpl; lia |].
  exists c'. repeat split; assumption.
Defined.

Lemma clear_inventory_run c :
  clear_inventory c = (set_inventory (Some []) c, inr (items c)).
Proof.
  unfold clear_inventory, _ensure_inventory, items. py_simpl.
  now destruct c as [? ? ? ? ? ? ? ? ? [l |] ? ? ? ? ?].
Qed.

(** X17. [clear_inventory] returns the items that were carried, in their
    order, and leaves none: nothing is found any more and all 20 places
    are free.  Adding the returned items back one by one, when they were
    no more than 20, gives the inventory that was cleared. *)
Theorem clear_then_put_back (c : Character) :
  (length (items c) <= 20)%nat ->
  exists c0,
    clear_inventory c = (c0, inr (items c)) /\
    items c0 = [] /\
    (forall x, has_item c0 x = false /\ count_item c0 x = O) /\
    get_inventory_space_remaining c0 = 20 /\
    add_all (items c) c0 = (set_inventory (Some (items c)) c, inr tt).
Proof.
  intros Hlen. exists (set_inventory (Some []) c).
  split; [apply clear_inventory_run |].
  repeat split.
  destruct (add_all_within_capacity (items c) (set_inventory (Some []) c))
    as (c1 & E & Hitems); [simpl; lia |].
  rewrite E. f_equal.
  assert (Hkeep : forall ids c0,
            (add_all ids c0).1 = c0 \/
            exists l, (add_all ids c0).1 = set_inventory (Some l) c0).
  { clear. induction ids as [| x ids IH]; intros c0; simpl; [now left |].
    unfold bind.
    destruct (le_lt_dec 20 (length (items c0))) as [Hl | Hl].
    - rewrite add_item_at_capacity by exact Hl. now left.
    - rewrite add_item_below_capacity by exact Hl. right.
      destruct (IH (set_inventory (Some (items c0 ++ [x])%list) c0))
        as [-> | (l & ->)]; eexists; reflexivity. }
  destruct (Hkeep (items c) (set_inventory (Some []) c)) as [Hl | (l & Hl)];
    rewrite E in Hl; simpl in Hl; subst c1;
    unfold items at 1 in Hitems; simpl in Hitems; now rewrite Hitems.
Qed.

Lemma clear_then_put_back_witness :
  exists c0,
    clear_inventory armed = (c0, inr (items armed)) /\
    add_all (items armed) c0 = (set_inventory (Some (items armed)) armed, inr tt).
Proof.
  destruct (clear_then_put_back armed) as (c0 & H1 & _ & _ & _ & H2);
    [simpl; lia |].
  exists c0. split; assumption.
Defined.

(** [apply_stat_effect] raises only [TypeError], only for the keys that do
    not hold integers, and then changes nothing. *)
Lemma apply_stat_effect_raises stat value c c' e :
  apply_stat_effect stat value c = (c', inl e) ->
  c' = c /\ e = TypeError /\ stat ∈ non_numeric_keys.
Proof.
  unfold apply_stat_effect. py_simpl.
  repeat (case_decide; [intros [= _ ?]; discriminate || idtac |]);
    try discriminate.
  destruct (contains stat non_numeric_keys) eqn:Hk; [| discriminate].
  intros [= <- <-]. apply contains_true in Hk. auto.
Qed.

Lemma use_item_cases item_id item_data c :
  use_item item_id item_data c =
    let c0 := (_ensure_inventory c).1 in
    if contains item_id (items c) then
      match _resolve_item_info item_id item_data with
      | inl e => (c0, inl e)
      | inr (InfoAtom _) => (c0, inl AttributeError)
      | inr (InfoDict d) =>
          if decide (d !! "type" = Some (VAtom (AStr "consumable"))) then
            match effect_of d with
            | inl e => (c0, inl e)
            | inr (stat, value) =>
                match apply_stat_effect stat value c0 with
                | (c1, inl e) => (c1, inl e)
                | (c1, inr _) =>
                    (set_inventory (Some (remove_first item_id (items c1))) c1,
                     inr tt)
                end
            end
          else (c0, inl InvalidItemTypeError)
      end
    else (c0, inl ItemNotFoundError).
Proof.
  unfold use_item. rewrite (bind_run _ _ _ _ _ (ensure_inventory_run c)).
  rewrite bind_gets, ensured_items. cbv zeta.
  destruct (contains item_id (items c)); cbn [negb]; [| reflexivity].
  unfold bind at 1, lift at 1.
  destruct (_resolve_item_info item_id item_data) as [e | [d | a]];
    try reflexivity.
  case_decide; [| reflexivity].
  unfold bind at 1, lift at 1. destruct (effect_of d) as [e | [stat value]];
    [reflexivity |].
  unfold bind at 1.
  destruct (apply_stat_effect stat value (_ensure_inventory c).1)
    as [c1 [e | []]]; reflexivity.
Qed.

(** X18. [use_item] is all or nothing.  Whatever it raises, the character
    is as [_ensure_inventory] left it: nothing is consumed and no stat is
    changed.  It raises [ItemNotFoundError] for an item that is not carried
    before it looks at the item data.  When it returns, the item was
    carried and exactly one copy of it is gone. *)
Theorem use_item_all_or_nothing (c : Character) (item_id : string)
  (item_data : gmap string pyval) :
  (forall c' e,
     use_item item_id item_data c = (c', inl e) ->
     c' = (_ensure_inventory c).1 /\ items c' = items c /\
     (is_Some (inventory c) -> c' = c)) /\
  (item_id ∉ items c ->
   use_item item_id item_data c =
     ((_ensure_inventory c).1, inl ItemNotFoundError)) /\
  (forall c',
     use_item item_id item_data c = (c', inr tt) ->
     item_id ∈ items c /\
     S (length (items c')) = length (items c) /\
     S (count_item c' item_id) = count item_id (items c) /\
     forall x, x <> item_id -> count_item c' x = count x (items c)).
Proof.
  rewrite use_item_cases. cbv zeta. split; [| split].
  - intros c' e Hrun.
    assert (c' = (_ensure_inventory c).1) as ->.
    { destruct (contains item_id (items c)); [| now injection Hrun].
      destruct (_resolve_item_info item_id item_data) as [e0 | [d | a]];
        try (now injection Hrun).
      case_decide; [| now injection Hrun].
      destruct (effect_of d) as [e0 | [stat value]]; [now injection Hrun |].
      destruct (apply_stat_effect stat value (_ensure_inventory c).1)
        as [c1 [e1 | []]] eqn:Ea; [| discriminate].
      injection Hrun as <- _. now apply apply_stat_effect_raises in Ea. }
    split; [reflexivity |]. split; [apply ensured_items |].
    intros Hsome. now rewrite ensure_inventory_noop.
  - intros Hnot.
    assert (contains item_id (items c) = false) as ->
      by (apply not_true_iff_false; now rewrite contains_true).
    reflexivity.
  - intros c' Hrun.
    destruct (contains item_id (items c)) eqn:Hin; [| discriminate].
    apply contains_true in Hin.
    destruct (_resolve_item_info item_id item_data) as [e0 | [d | a]];
      try discriminate.
    case_decide; [| discriminate].
    destruct (effect_of d) as [e0 | [stat value]]; [discriminate |].
    destruct (apply_stat_effect stat value (_ensure_inventory c).1)
      as [c1 [e1 | []]] eqn:Ea; [discriminate |].
    injection Hrun as <-.
    apply apply_stat_effect_keeps_inventory in Ea as [Einv _].
    assert (items c1 = items c) as Hc1
      by (unfold items at 1; rewrite Einv; apply ensured_items).
    unfold count_item. rewrite !items_set_inventory, Hc1.
    split; [exact Hin |]. split; [now apply remove_first_length |].
    split.
    + rewrite remove_first_count by exact Hin.
      rewrite decide_True by reflexivity.
      apply count_pos in Hin. lia.
    + intros x Hx. rewrite remove_first_count by exact Hin.
      rewrite decide_False by exact Hx. lia.
Qed.

(** X19. Drinking a potion: using a carried consumable whose effect is
    ["health:v"] sets health to [min(health + v, max_health)], takes one
    copy of the item out of the inventory and changes nothing else; the
    health gained is capped at max_health, and a negative [v] is taken off
    with no floor at 0. *)
Theorem health_potion_is_capped (c : Character) (item_id : string)
  (item_data d : gmap string pyval) (effect : string) (v : Z) :
  item_id ∈ items c ->
  _resolve_item_info item_id item_data = inr (InfoDict d) ->
  d !! "type" = Some (VAtom (AStr "consumable")) ->
  d !! "effect" = Some (VAtom (AStr effect)) ->
  parse_item_effect effect = inr ("health", v) ->
  use_item item_id item_data c =
    (set_inventory (Some (remove_first item_id (items c)))
       (set_health (Z.min (health c + v) (max_health c)) c), inr tt).
Proof.
  intros Hin Hres Htype Heff Hparse. rewrite use_item_cases. cbv zeta.
  pose proof (carried_has_inventory c item_id Hin) as Hsome.
  apply contains_true in Hin. rewrite Hin, Hres.
  rewrite decide_True by exact Htype.
  unfold effect_of. rewrite Heff, Hparse.
  rewrite ensure_inventory_noop by exact Hsome. cbn [fst].
  now rewrite apply_stat_effect_health.
Qed.

Lemma health_potion_is_capped_witness :
  use_item "health_potion" (single (item_record "consumable" "health:20" 10))
    (set_health 110 (set_inventory (Some ["health_potion"]) hero)) =
  (set_inventory (Some [])
     (set_health 120 (set_inventory (Some ["health_potion"]) hero)), inr tt).
Proof.
  apply (health_potion_is_capped
           (set_health 110 (set_inventory (Some ["health_potion"]) hero))
           "health_potion" (single (item_record "consumable" "health:20" 10))
           (single (item_record "consumable" "health:20" 10)) "health:20" 20).
  - apply contains_true. vm_compute. reflexivity.
  - vm_compute. reflexivity.
  - vm_compute. reflexivity.
  - vm_compute. reflexivity.
  - vm_compute. reflexivity.
Defined.

(** A stat effect, applied or not, leaves the bag and both slots alone. *)
Lemma apply_stat_effect_keeps_slots stat value c c' r :
  apply_stat_effect stat value c = (c', r) ->
  inventory c' = inventory c /\ equipped_weapon c' = equipped_weapon c /\
  equipped_armor c' = equipped_armor c.
Proof.
  unfold apply_stat_effect. py_simpl.
  repeat (case_decide; [intros [= <- _]; simpl; case_cmp; now repeat split |]).
  destruct (contains stat non_numeric_keys); intros [= <- _]; now repeat split.
Qed.

Lemma apply_effect_if_any_keeps_slots d negated c c' r :
  apply_effect_if_any d negated c = (c', r) ->
  inventory c' = inventory c /\ equipped_weapon c' = equipped_weapon c /\
  equipped_armor c' = equipped_armor c.
Proof.
  unfold apply_effect_if_any. case_decide; [| intros [= <- _]; now repeat split].
  unfold bind at 1, lift. destruct (effect_of d) as [e | [stat val]];
    [intros [= <- _]; now repeat split |].
  unfold bind.
  destruct (apply_stat_effect stat (if negated then - val else val) c)
    as [c1 [e | []]] eqn:Ea; intros [= <- _];
    now apply apply_stat_effect_keeps_slots in Ea.
Qed.

Lemma apply_effect_if_any_items d negated c c' r :
  apply_effect_if_any d negated c = (c', r) -> items c' = items c.
Proof.
  intros H. apply apply_effect_if_any_keeps_slots in H as (E & _).
  unfold items. now rewrite E.
Qed.

Lemma sell_item_cases item_id item_data c :
  sell_item item_id item_data c =
    let c0 := (_ensure_inventory c).1 in
    if contains item_id (items c) then
      match _resolve_item_info item_id item_data with
      | inl e => (c0, inl e)
      | inr i =>
          match subscript i "cost" with
          | inl e => (c0, inl e)
          | inr value =>
              match as_int value with
              | inl e => (c0, inl e)
              | inr cost =>
                  (set_gold (gold c0 + cost / 2)
                     (set_inventory (Some (remove_first item_id (items c0))) c0),
                   inr (cost / 2))
              end
          end
      end
    else (c0, inl ItemNotFoundError).
Proof.
  unfold sell_item. rewrite (bind_run _ _ _ _ _ (ensure_inventory_run c)).
  rewrite bind_gets. cbv zeta.
  assert (contains item_id (items (_ensure_inventory c).1) =
          contains item_id (items c)) as -> by now rewrite ensured_items.
  destruct (contains item_id (items c)); cbn [negb]; [| reflexivity].
  unfold bind at 1, lift at 1.
  destruct (_resolve_item_info item_id item_data) as [e | i]; [reflexivity |].
  unfold bind at 1, lift at 1.
  destruct (subscript i "cost") as [e | value]; [reflexivity |].
  unfold bind at 1, lift at 1.
  destruct (as_int value) as [e | cost]; reflexivity.
Qed.

(** X20. [sell_item] is all or nothing.  It raises [ItemNotFoundError] for
    an item that is not carried without looking at the item data; whatever
    it raises, the character is as [_ensure_inventory] left it, gold and
    items included.  When it returns [g], the item data gave an integer
    cost with [g = cost // 2], the gold has grown by [g] and exactly one
    copy of the item is gone. *)
Theorem sell_item_all_or_nothing (c : Character) (item_id : string)
  (item_data : gmap string pyval) :
  (item_id ∉ items c ->
   sell_item item_id item_data c =
     ((_ensure_inventory c).1, inl ItemNotFoundError)) /\
  (forall c' e,
     sell_item item_id item_data c = (c', inl e) ->
     c' = (_ensure_inventory c).1 /\ gold c' = gold c /\ items c' = items c) /\
  (forall c' g,
     sell_item item_id item_data c = (c', inr g) ->
     item_id ∈ items c /\
     (exists i cost,
        _resolve_item_info item_id item_data = inr i /\
        subscript i "cost" = inr (VAtom (AInt cost)) /\ g = cost / 2) /\
     gold c' = gold c + g /\
     items c' = remove_first item_id (items c) /\
     S (length (items c')) = length (items c)).
Proof.
  rewrite sell_item_cases. cbv zeta.
  destruct (ensure_inventory_keeps c) as (Hg & Hi & _).
  split; [| split].
  - intros Hnot.
    assert (contains item_id (items c) = false) as ->
      by (apply not_true_iff_false; now rewrite contains_true).
    reflexivity.
  - intros c' e Hrun.
    assert (c' = (_ensure_inventory c).1) as ->; [| now repeat split].
    destruct (contains item_id (items c)); [| now injection Hrun].
    destruct (_resolve_item_info item_id item_data) as [e0 | i];
      [now injection Hrun |].
    destruct (subscript i "cost") as [e0 | value]; [now injection Hrun |].
    destruct (as_int value) as [e0 | cost]; [now injection Hrun | discriminate].
  - intros c' g Hrun.
    destruct (contains item_id (items c)) eqn:Hin; [| discriminate].
    apply contains_true in Hin.
    destruct (_resolve_item_info item_id item_data) as [e0 | i]; [discriminate |].
    destruct (subscript i "cost") as [e0 | value] eqn:Hsub; [discriminate |].
    destruct (as_int value) as [e0 | cost] eqn:Hint; [discriminate |].
    injection Hrun as <- <-.
    assert (value = VAtom (AInt cost)) as ->.
    { destruct value as [[s | z] | d0]; simpl in Hint; try discriminate.
      now injection Hint as ->. }
    split; [exact Hin |]. split; [now exists i, cost |].
    repeat split.
    + change (gold (_ensure_inventory c).1 + cost / 2 = gold c + cost / 2).
      now rewrite Hg.
    + change (remove_first item_id (items (_ensure_inventory c).1) =
              remove_first item_id (items c)).
      now rewrite Hi.
    + change (S (length (remove_first item_id (items (_ensure_inventory c).1))) =
              length (items c)).
      rewrite Hi. now apply remove_first_length.
Qed.

Lemma ensure_inventory_keeps_slots c :
  equipped_weapon (_ensure_inventory c).1 = equipped_weapon c /\
  equipped_armor (_ensure_inventory c).1 = equipped_armor c.
Proof. unfold _ensure_inventory. py_simpl. now destruct (inventory c). Qed.

Lemma space_remaining_le c :
  get_inventory_space_remaining c <= 0 <-> (20 <= length (items c))%nat.
Proof. unfold get_inventory_space_remaining, MAX_INVENTORY_SIZE. lia. Qed.

Lemma unequip_weapon_cases item_data c :
  unequip_weapon item_data c =
    let c0 := (_ensure_inventory c).1 in
    match occupied (equipped_weapon c0) with
    | None => (c0, inr None)
    | Some w =>
        if get_inventory_space_remaining c0 <=? 0
        then (c0, inl InventoryFullError)
        else
          match apply_effect_if_any (unequip_info item_data w) true c0 with
          | (c1, inl e) => (c1, inl e)
          | (c1, inr _) =>
              (set_equipped_weapon None
                 (set_inventory (Some (items c1 ++ [w])%list) c1),
               inr (Some w))
          end
    end.
Proof.
  unfold unequip_weapon. rewrite (bind_run _ _ _ _ _ (ensure_inventory_run c)).
  rewrite bind_gets. cbv zeta.
  destruct (occupied (equipped_weapon (_ensure_inventory c).1)) as [w |];
    [| reflexivity].
  rewrite bind_gets.
  destruct (get_inventory_space_remaining (_ensure_inventory c).1 <=? 0);
    [reflexivity |].
  unfold bind at 1.
  destruct (apply_effect_if_any (unequip_info item_data w) true
              (_ensure_inventory c).1) as [c1 [e | b]]; reflexivity.
Qed.

Lemma unequip_armor_cases item_data c :
  unequip_armor item_data c =
    let c0 := (_ensure_inventory c).1 in
    match occupied (equipped_armor c0) with
    | None => (c0, inr None)
    | Some w =>
        if get_inventory_space_remaining c0 <=? 0
        then (c0, inl InventoryFullError)
        else
          match apply_effect_if_any (unequip_info item_data w) true c0 with
          | (c1, inl e) => (c1, inl e)
          | (c1, inr _) =>
              (set_equipped_armor None
                 (set_inventory (Some (items c1 ++ [w])%list) c1),
               inr (Some w))
          end
    end.
Proof.
  unfold unequip_armor. rewrite (bind_run _ _ _ _ _ (ensure_inventory_run c)).
  rewrite bind_gets. cbv zeta.
  destruct (occupied (equipped_armor (_ensure_inventory c).1)) as [w |];
    [| reflexivity].
  rewrite bind_gets.
  destruct (get_inventory_space_remaining (_ensure_inventory c).1 <=? 0);
    [reflexivity |].
  unfold bind at 1.
  destruct (apply_effect_if_any (unequip_info item_data w) true
              (_ensure_inventory c).1) as [c1 [e | b]]; reflexivity.
Qed.

Lemma unequip_weapon_returns item_data c c' w :
  unequip_weapon item_data c = (c', inr (Some w)) ->
  occupied (equipped_weapon c) = Some w /\
  equipped_weapon c' = None /\ equipped_armor c' = equipped_armor c /\
  items c' = (items c ++ [w])%list /\ (length (items c') <= 20)%nat.
Proof.
  rewrite unequip_weapon_cases. cbv zeta.
  destruct (ensure_inventory_keeps_slots c) as (-> & Harm).
  pose proof (ensured_items c) as Hi.
  pose proof (space_remaining_le (_ensure_inventory c).1) as Hsp.
  rewrite Hi in Hsp.
  destruct (occupied (equipped_weapon c)) as [w0 |]; [| discriminate].
  destruct (Z.leb_spec (get_inventory_space_remaining (_ensure_inventory c).1) 0);
    [discriminate |].
  destruct (apply_effect_if_any _ _ _) as [c1 [e | b]] eqn:Ea; [discriminate |].
  intros [= <- ->]. rewrite items_set_equipped_weapon, items_set_inventory.
  pose proof (apply_effect_if_any_items _ _ _ _ _ Ea) as Hitems.
  apply apply_effect_if_any_keeps_slots in Ea as (_ & _ & Ea).
  rewrite Hitems, Hi, length_app. simpl.
  repeat split; [congruence | lia].
Qed.

Lemma unequip_armor_returns item_data c c' w :
  unequip_armor item_data c = (c', inr (Some w)) ->
  occupied (equipped_armor c) = Some w /\
  equipped_armor c' = None /\ equipped_weapon c' = equipped_weapon c /\
  items c' = (items c ++ [w])%list /\ (length (items c') <= 20)%nat.
Proof.
  rewrite unequip_armor_cases. cbv zeta.
  destruct (ensure_inventory_keeps_slots c) as (Hwp & ->).
  pose proof (ensured_items c) as Hi.
  pose proof (space_remaining_le (_ensure_inventory c).1) as Hsp.
  rewrite Hi in Hsp.
  destruct (occupied (equipped_armor c)) as [w0 |]; [| discriminate].
  destruct (Z.leb_spec (get_inventory_space_remaining (_ensure_inventory c).1) 0);
    [discriminate |].
  destruct (apply_effect_if_any _ _ _) as [c1 [e | b]] eqn:Ea; [discriminate |].
  intros [= <- ->]. rewrite items_set_equipped_armor, items_set_inventory.
  pose proof (apply_effect_if_any_items _ _ _ _ _ Ea) as Hitems.
  apply apply_effect_if_any_keeps_slots in Ea as (_ & Ea & _).
  rewrite Hitems, Hi, length_app. simpl.
  repeat split; [congruence | lia].
Qed.


(** The stats whose key holds a plain integer with no cap. *)
Lemma plain_stat_applies stat value c :
  stat ∈ ["strength"; "magic"; "max_health"; "level"; "experience"; "gold"] ->
  apply_stat_effect stat value c =
    ((apply_stat_effect stat value c).1, inr tt).
Proof.
  rewrite !elem_of_cons, elem_of_nil.
  intros [-> | [-> | [-> | [-> | [-> | [-> | []]]]]]]; reflexivity.
Qed.

Lemma plain_stat_undone stat value c l w l' :
  stat ∈ ["strength"; "magic"; "max_health"; "level"; "experience"; "gold"] ->
  equipped_weapon c = None ->
  set_equipped_weapon None
    (set_inventory l'
       (apply_stat_effect stat (- value)
          (set_inventory l
             (set_equipped_weapon w (apply_stat_effect stat value c).1))).1) =
  set_inventory l' c.
Proof.
  rewrite !elem_of_cons, elem_of_nil.
  intros [-> | [-> | [-> | [-> | [-> | [-> | []]]]]]] Hslot;
    destruct c; simpl in *; subst; cbv [apply_stat_effect]; simpl;
    unfold set_inventory, set_equipped_weapon; simpl; f_equal; lia.
Qed.

Section EquipAndTakeOff.

Variables (item_id effect stat : string) (val : Z).
Variable item : gmap string atom.
Variable data : gmap string (gmap string atom).

Hypothesis named : item_id <> "".
Hypothesis no_type_key : data !! "type" = None.
Hypothesis listed : data !! item_id = Some item.
Hypothesis is_weapon : item !! "type" = Some (AStr "weapon").
Hypothesis has_effect : item !! "effect" = Some (AStr effect).
Hypothesis parses : parse_item_effect effect = inr (stat, val).

(** Equipping into an empty slot. *)
Lemma equip_weapon_fresh c c2 :
  item_id ∈ items c ->
  occupied (equipped_weapon c) = None ->
  apply_stat_effect stat val c = (c2, inr tt) ->
  equip_weapon item_id (table data) c =
    (set_inventory (Some (remove_first item_id (items c2)))
       (set_equipped_weapon (Some item_id) c2), inr tt).
Proof.
  intros Hin Hold Hnew. unfold equip_weapon.
  erewrite bind_run
    by (apply ensure_inventory_noop; eapply carried_has_inventory; eauto).
  rewrite bind_gets. apply contains_true in Hin. rewrite Hin. cbn [negb].
  unfold _resolve_item_info. rewrite !table_lookup, no_type_key, listed.
  cbn [fmap option_fmap option_map].
  rewrite decide_False by (intros [? ?]; discriminate). rewrite bind_lift_ok.
  rewrite single_lookup, is_weapon. cbn [fmap option_fmap option_map].
  rewrite decide_True by reflexivity.
  rewrite bind_gets, Hold. cbv iota. rewrite bind_ret.
  erewrite bind_run
    by (apply (apply_new_effect effect stat val item has_effect parses);
        exact Hnew).
  reflexivity.
Qed.

Lemma unequip_weapon_listed c c2 :
  is_Some (inventory c) ->
  equipped_weapon c = Some item_id ->
  (length (items c) < 20)%nat ->
  apply_stat_effect stat (- val) c = (c2, inr tt) ->
  unequip_weapon (table data) c =
    (set_equipped_weapon None
       (set_inventory (Some (items c2 ++ [item_id])%list) c2),
     inr (Some item_id)).
Proof.
  intros Hsome Hslot Hlen Hrev. rewrite unequip_weapon_cases. cbv zeta.
  rewrite ensure_inventory_noop by exact Hsome. cbn [fst].
  rewrite Hslot. unfold occupied. rewrite decide_False by exact named.
  destruct (Z.leb_spec (get_inventory_space_remaining c) 0) as [Hfull |];
    [apply space_remaining_le in Hfull; lia |].
  unfold unequip_info. rewrite table_lookup, listed.
  cbn [fmap option_fmap option_map].
  unfold apply_effect_if_any, effect_of.
  rewrite single_lookup, has_effect. simpl. rewrite parses, bind_lift_ok.
  erewrite bind_run by exact Hrev. reflexivity.
Qed.

(** X22. Equipping a weapon from the table of items into an empty slot and
    taking it off again undoes itself, for a weapon whose effect is on
    strength, magic, max_health, level, experience or gold: every stat is
    as it was, the slot is empty again, and the weapon is back in the
    inventory, now at the end. *)
Theorem equip_then_take_off (c : Character) :
  item_id ∈ items c ->
  (length (items c) <= 20)%nat ->
  equipped_weapon c = None ->
  stat ∈ ["strength"; "magic"; "max_health"; "level"; "experience"; "gold"] ->
  exists c1,
    equip_weapon item_id (table data) c = (c1, inr tt) /\
    equipped_weapon c1 = Some item_id /\
    items c1 = remove_first item_id (items c) /\
    unequip_weapon (table data) c1 =
      (set_inventory (Some (remove_first item_id (items c) ++ [item_id])%list) c,
       inr (Some item_id)).
Proof.
  intros Hin Hlen Hslot Hstat.
  assert (Hocc : occupied (equipped_weapon c) = None) by now rewrite Hslot.
  pose proof (remove_first_length item_id (items c) Hin) as Hrm.
  pose proof (plain_stat_applies stat val c Hstat) as Hon.
  pose proof (apply_stat_effect_keeps_slots _ _ _ _ _ Hon) as (Hinv & _).
  assert (Hitems : items (apply_stat_effect stat val c).1 = items c)
    by (unfold items; now rewrite Hinv).
  eexists. split; [apply equip_weapon_fresh; [exact Hin | exact Hocc | exact Hon] |].
  split; [reflexivity |].
  split; [now rewrite items_set_inventory, Hitems |].
  rewrite Hitems.
  erewrite unequip_weapon_listed;
    [| simpl; eauto | reflexivity | rewrite items_set_inventory; lia
     | apply plain_stat_applies; exact Hstat].
  f_equal.
  match goal with
  | |- context [app (items ?x) _] =>
      assert (items x = remove_first item_id (items c)) as ->
  end.
  { match goal with
    | |- items (apply_stat_effect ?s ?v ?x).1 = _ =>
        pose proof (plain_stat_applies s v x Hstat) as Hoff
    end.
    apply apply_stat_effect_keeps_slots in Hoff as (Hinv' & _).
    unfold items at 1. now rewrite Hinv'. }
  now apply plain_stat_undone.
Qed.

End EquipAndTakeOff.

Lemma equip_then_take_off_witness :
  exists c1,
    equip_weapon "iron_sword" (table all_items)
      (set_inventory (Some ["potion"; "iron_sword"]) hero) = (c1, inr tt) /\
    equipped_weapon c1 = Some "iron_sword" /\
    items c1 =
      remove_first "iron_sword"
        (items (set_inventory (Some ["potion"; "iron_sword"]) hero)) /\
    unequip_weapon (table all_items) c1 =
      (set_inventory
         (Some (remove_first "iron_sword"
                  (items (set_inventory (Some ["potion"; "iron_sword"]) hero)) ++
                ["iron_sword"])%list)
         (set_inventory (Some ["potion"; "iron_sword"]) hero),
       inr (Some "iron_sword")).
Proof.
  apply (equip_then_take_off "iron_sword" "strength:5" "strength" 5
           iron_sword all_items).
  - discriminate.
  - vm_compute. reflexivity.
  - vm_compute. reflexivity.
  - vm_compute. reflexivity.
  - vm_compute. reflexivity.
  - vm_compute. reflexivity.
  - apply contains_true. vm_compute. reflexivity.
  - simpl. lia.
  - reflexivity.
  - apply contains_true. vm_compute. reflexivity.
Defined.

(** X23. A failed [equip_weapon] is not undone.  With a weapon [old] in the
    slot and the record of a carried weapon whose effect string does not
    parse, the call raises the [ValueError] of [parse_item_effect] after it
    has put [old] back into the inventory: the character is left with
    [old] both in the slot and in the bag, and with the new weapon still in
    the bag. *)
Theorem failed_equip_leaves_the_old_weapon_twice (c : Character)
  (item_id old : string) (d : gmap string atom) (effect : string) (e : exn) :
  item_id ∈ items c ->
  occupied (equipped_weapon c) = Some old ->
  d !! "type" = Some (AStr "weapon") ->
  d !! "effect" = Some (AStr effect) ->
  parse_item_effect effect = inl e ->
  exists c',
    equip_weapon item_id (single d) c = (c', inl e) /\
    c' = set_inventory (Some (items c ++ [old])%list) c /\
    occupied (equipped_weapon c') = Some old /\
    count_item c' old = S (count old (items c)) /\
    item_id ∈ items c'.
Proof.
  intros Hin Hold Htype Heff Hparse. eexists. split; [| split; [reflexivity |]].
  - unfold equip_weapon.
    erewrite bind_run
      by (apply ensure_inventory_noop; eapply carried_has_inventory; eauto).
    rewrite bind_gets. apply contains_true in Hin. rewrite Hin. cbn [negb].
    unfold _resolve_item_info. rewrite single_lookup, Htype.
    cbn [fmap option_fmap option_map].
    rewrite decide_True by eauto. rewrite bind_lift_ok.
    rewrite single_lookup, Htype. cbn [fmap option_fmap option_map].
    rewrite decide_True by reflexivity.
    rewrite bind_gets, Hold, old_info_of_single.
    rewrite bind_assoc, bind_ret. unfold append_item at 1.
    rewrite bind_modify.
    unfold apply_effect_if_any, effect_of.
    rewrite single_lookup, Heff. simpl. rewrite Hparse. reflexivity.
  - split; [exact Hold |]. unfold count_item. rewrite items_set_inventory.
    split.
    + rewrite count_app. simpl. rewrite decide_True by reflexivity. lia.
    + apply elem_of_app. now left.
Qed.

Lemma failed_equip_leaves_the_old_weapon_twice_witness :
  exists c',
    equip_weapon "steel_sword" (single (item_record "weapon" "strength" 150))
      armed = (c', inl ValueError) /\
    c' = set_inventory (Some (items armed ++ ["iron_sword"])%list) armed /\
    occupied (equipped_weapon c') = Some "iron_sword" /\
    count_item c' "iron_sword" = S (count "iron_sword" (items armed)) /\
    "steel_sword" ∈ items c'.
Proof.
  apply (failed_equip_leaves_the_old_weapon_twice armed "steel_sword"
           "iron_sword" (item_record "weapon" "strength" 150) "strength").
  - apply contains_true. vm_compute. reflexivity.
  - reflexivity.
  - vm_compute. reflexivity.
  - vm_compute. reflexivity.
  - vm_compute. reflexivity.
Defined.

(** X24. [equip_armor] and an armor record without an ["effect"] key:
    with an empty slot the armor is put on and taken out of the inventory,
    and then the call raises [UnboundLocalError], because the message it
    returns names the stat and the value of an effect that was never
    parsed.  With an effect that parses and applies, the same call
    returns. *)
Theorem equip_armor_without_effect (c : Character) (item_id : string)
  (d : gmap string atom) :
  item_id ∈ items c ->
  occupied (equipped_armor c) = None ->
  d !! "type" = Some (AStr "armor") ->
  (d !! "effect" = None ->
   equip_armor item_id (single d) c =
     (set_inventory (Some (remove_first item_id (items c)))
        (set_equipped_armor (Some item_id) c), inl UnboundLocalError)) /\
  (forall effect stat val c2,
     d !! "effect" = Some (AStr effect) ->
     parse_item_effect effect = inr (stat, val) ->
     apply_stat_effect stat val c = (c2, inr tt) ->
     equip_armor item_id (single d) c =
       (set_inventory (Some (remove_first item_id (items c2)))
          (set_equipped_armor (Some item_id) c2), inr tt)).
Proof.
  intros Hin Hold Htype.
  assert (Hstart :
    equip_armor item_id (single d) c =
      (bound_new <- apply_effect_if_any (single d) false ;;
       modify (set_equipped_armor (Some item_id)) ;;
       remove_item item_id ;;
       if (false || bound_new)%bool then ret tt
       else raise UnboundLocalError)%py c).
  { unfold equip_armor.
    erewrite bind_run
      by (apply ensure_inventory_noop; eapply carried_has_inventory; eauto).
    rewrite bind_gets. apply contains_true in Hin. rewrite Hin. cbn [negb].
    unfold _resolve_item_info. rewrite single_lookup, Htype.
    cbn [fmap option_fmap option_map].
    rewrite decide_True by eauto. rewrite bind_lift_ok.
    rewrite single_lookup, Htype. cbn [fmap option_fmap option_map].
    rewrite decide_True by reflexivity.
    rewrite bind_gets, Hold. cbv iota. rewrite bind_ret. reflexivity. }
  rewrite Hstart. split.
  - intros Hnone. unfold apply_effect_if_any.
    rewrite single_lookup, Hnone. simpl. reflexivity.
  - intros effect stat val c2 Heff Hparse Happly.
    unfold apply_effect_if_any, effect_of.
    rewrite single_lookup, Heff. simpl. rewrite Hparse, bind_assoc, bind_lift_ok.
    rewrite bind_assoc. erewrite bind_run by exact Happly. reflexivity.
Qed.

Lemma equip_armor_without_effect_witness :
  equip_armor "cloak" (single (<["type" := AStr "armor"]> ∅))
    (set_inventory (Some ["cloak"]) hero) =
  (set_inventory (Some (remove_first "cloak"
                          (items (set_inventory (Some ["cloak"]) hero))))
     (set_equipped_armor (Some "cloak") (set_inventory (Some ["cloak"]) hero)),
   inl UnboundLocalError).
Proof.
  destruct (equip_armor_without_effect
              (set_inventory (Some ["cloak"]) hero) "cloak"
              (<["type" := AStr "armor"]> ∅)) as [H _].
  - apply contains_true. vm_compute. reflexivity.
  - reflexivity.
  - vm_compute. reflexivity.
  - apply H. vm_compute. reflexivity.
Defined.

Lemma contains_ensured item_id c :
  contains item_id (items (_ensure_inventory c).1) = contains item_id (items c).
Proof. now rewrite ensured_items. Qed.

(** What a successful [equip_weapon] has done to the bag and the slot,
    whatever the shape of [item_data]. *)
Lemma equip_weapon_returns item_id item_data c c' :
  equip_weapon item_id item_data c = (c', inr tt) ->
  item_id ∈ items c /\
  equipped_weapon c' = Some item_id /\
  equipped_armor c' = equipped_armor c /\
  items c' =
    remove_first item_id
      (items c ++ match occupied (equipped_weapon c) with
                  | Some old => [old]
                  | None => []
                  end)%list.
Proof.
  unfold equip_weapon. rewrite (bind_run _ _ _ _ _ (ensure_inventory_run c)).
  rewrite bind_gets, contains_ensured.
  destruct (ensure_inventory_keeps_slots c) as (Hw & Ha).
  pose proof (ensured_items c) as Hi.
  destruct (contains item_id (items c)) eqn:Hin; cbn [negb]; [| discriminate].
  apply contains_true in Hin.
  unfold bind at 1, lift at 1.
  destruct (_resolve_item_info item_id item_data) as [e | [d | a]];
    try discriminate.
  case_decide; [| discriminate].
  rewrite bind_gets, Hw.
  destruct (occupied (equipped_weapon c)) as [old |].
  - rewrite !bind_assoc.
    assert (Hold :
              (exists c1,
                 (match old_info_of item_data old with
                  | Some old_info =>
                      (apply_effect_if_any old_info true ;; ret tt)%py
                  | None => ret tt
                  end) (_ensure_inventory c).1 = (c1, inr tt) /\
                 items c1 = items c /\ equipped_armor c1 = equipped_armor c)
              \/
              (exists c1 e,
                 (match old_info_of item_data old with
                  | Some old_info =>
                      (apply_effect_if_any old_info true ;; ret tt)%py
                  | None => ret tt
                  end) (_ensure_inventory c).1 = (c1, inl e))).
    { destruct (old_info_of item_data old) as [oi |].
      - unfold bind.
        destruct (apply_effect_if_any oi true (_ensure_inventory c).1)
          as [c1 [e | b]] eqn:E1.
        + right. now exists c1, e.
        + left. exists c1. split; [reflexivity |].
          pose proof (apply_effect_if_any_items _ _ _ _ _ E1).
          apply apply_effect_if_any_keeps_slots in E1 as (_ & _ & E1).
          split; congruence.
      - left. exists (_ensure_inventory c).1. split; [reflexivity |].
        now split. }
    destruct Hold as [(c1 & E1 & Hi1 & Ha1) | (c1 & e & E1)].
    2: { unfold bind at 1. rewrite E1. discriminate. }
    rewrite (bind_run _ _ _ _ _ E1). unfold append_item at 1.
    rewrite bind_modify. unfold bind at 1.
    destruct (apply_effect_if_any d false _) as [c2 [e | b]] eqn:E2;
      [discriminate |].
    intros [= <-]. rewrite items_set_inventory, items_set_equipped_weapon.
    pose proof (apply_effect_if_any_items _ _ _ _ _ E2) as Hi2.
    apply apply_effect_if_any_keeps_slots in E2 as (_ & _ & Ha2).
    rewrite items_set_inventory in Hi2. simpl in Ha2.
    repeat split; [exact Hin | simpl; congruence | now rewrite Hi2, Hi1].
  - cbv iota. rewrite bind_ret. unfold bind at 1.
    destruct (apply_effect_if_any d false _) as [c2 [e | b]] eqn:E2;
      [discriminate |].
    intros [= <-]. rewrite items_set_inventory, items_set_equipped_weapon.
    pose proof (apply_effect_if_any_items _ _ _ _ _ E2) as Hi2.
    apply apply_effect_if_any_keeps_slots in E2 as (_ & _ & Ha2).
    repeat split; [exact Hin | simpl; congruence | now rewrite Hi2, Hi, app_nil_r].
Qed.

Lemma equip_armor_returns item_id item_data c c' :
  equip_armor item_id item_data c = (c', inr tt) ->
  item_id ∈ items c /\
  equipped_armor c' = Some item_id /\
  equipped_weapon c' = equipped_weapon c /\
  items c' =
    remove_first item_id
      (items c ++ match occupied (equipped_armor c) with
                  | Some old => [old]
                  | None => []
                  end)%list.
Proof.
  unfold equip_armor. rewrite (bind_run _ _ _ _ _ (ensure_inventory_run c)).
  rewrite bind_gets, contains_ensured.
  destruct (ensure_inventory_keeps_slots c) as (Hw & Ha).
  pose proof (ensured_items c) as Hi.
  destruct (contains item_id (items c)) eqn:Hin; cbn [negb]; [| discriminate].
  apply contains_true in Hin.
  unfold bind at 1, lift at 1.
  destruct (_resolve_item_info item_id item_data) as [e | [d | a]];
    try discriminate.
  case_decide; [| discriminate].
  rewrite bind_gets, Ha.
  destruct (occupied (equipped_armor c)) as [old |].
  - rewrite !bind_assoc.
    assert (Hold :
              (exists c1 b1,
                 (match old_info_of item_data old with
                  | Some old_info => apply_effect_if_any old_info true
                  | None => ret false
                  end) (_ensure_inventory c).1 = (c1, inr b1) /\
                 items c1 = items c /\ equipped_weapon c1 = equipped_weapon c)
              \/
              (exists c1 e,
                 (match old_info_of item_data old with
                  | Some old_info => apply_effect_if_any old_info true
                  | None => ret false
                  end) (_ensure_inventory c).1 = (c1, inl e))).
    { destruct (old_info_of item_data old) as [oi |].
      - destruct (apply_effect_if_any oi true (_ensure_inventory c).1)
          as [c1 [e | b]] eqn:E1.
        + right. now exists c1, e.
        + left. exists c1, b. split; [reflexivity |].
          pose proof (apply_effect_if_any_items _ _ _ _ _ E1).
          apply apply_effect_if_any_keeps_slots in E1 as (_ & E1 & _).
          split; congruence.
      - left. exists (_ensure_inventory c).1, false. split; [reflexivity |].
        now split. }
    destruct Hold as [(c1 & b1 & E1 & Hi1 & Hw1) | (c1 & e & E1)].
    2: { unfold bind at 1. rewrite E1. discriminate. }
    rewrite (bind_run _ _ _ _ _ E1). unfold append_item at 1.
    rewrite bind_assoc, bind_modify, bind_ret. unfold bind at 1.
    destruct (apply_effect_if_any d false _) as [c2 [e | b]] eqn:E2;
      [discriminate |].
    rewrite bind_modify. unfold remove_item at 1. rewrite bind_modify.
    destruct (b1 || b)%bool; [| discriminate].
    intros [= <-]. rewrite items_set_inventory, items_set_equipped_armor.
    pose proof (apply_effect_if_any_items _ _ _ _ _ E2) as Hi2.
    apply apply_effect_if_any_keeps_slots in E2 as (_ & Hw2 & _).
    rewrite items_set_inventory in Hi2. simpl in Hw2.
    repeat split; [exact Hin | simpl; congruence | now rewrite Hi2, Hi1].
  - cbv iota. rewrite bind_ret. unfold bind at 1.
    destruct (apply_effect_if_any d false _) as [c2 [e | b]] eqn:E2;
      [discriminate |].
    rewrite bind_modify. unfold remove_item at 1. rewrite bind_modify.
    destruct (false || b)%bool; [| discriminate].
    intros [= <-]. rewrite items_set_inventory, items_set_equipped_armor.
    pose proof (apply_effect_if_any_items _ _ _ _ _ E2) as Hi2.
    apply apply_effect_if_any_keeps_slots in E2 as (_ & Hw2 & _).
    repeat split; [exact Hin | simpl; congruence | now rewrite Hi2, Hi, app_nil_r].
Qed.

Lemma swapped_length item_id l (o : option string) :
  item_id ∈ l ->
  (length (remove_first item_id
             (l ++ match o with Some old => [old] | None => [] end)%list)
   <= length l)%nat.
Proof.
  intros Hin.
  assert (Hin' : item_id ∈ (l ++ match o with
                                 | Some old => [old]
                                 | None => []
                                 end)%list)
    by (apply elem_of_app; now left).
  pose proof (remove_first_length item_id _ Hin') as Hrm.
  rewrite length_app in Hrm. destruct o; simpl in Hrm; lia.
Qed.


Lemma purchase_item_cases item_id item_data c :
  purchase_item item_id item_data c =
    let c0 := (_ensure_inventory c).1 in
    match _resolve_item_info item_id item_data with
    | inl e => (c0, inl e)
    | inr i =>
        match subscript i "cost" with
        | inl e => (c0, inl e)
        | inr value =>
            match as_int value with
            | inl e => (c0, inl e)
            | inr cost =>
                if gold c0 <? cost then (c0, inl InsufficientResourcesError)
                else if MAX_INVENTORY_SIZE <=? Z.of_nat (length (items c0))
                then (c0, inl InventoryFullError)
                else (set_inventory (Some (items c0 ++ [item_id])%list)
                        (set_gold (gold c0 - cost) c0), inr true)
            end
        end
    end.
Proof.
  unfold purchase_item. rewrite (bind_run _ _ _ _ _ (ensure_inventory_run c)).
  cbv zeta. unfold bind at 1, lift at 1.
  destruct (_resolve_item_info item_id item_data) as [e | i]; [reflexivity |].
  unfold bind at 1, lift at 1.
  destruct (subscript i "cost") as [e | value]; [reflexivity |].
  unfold bind at 1, lift at 1.
  destruct (as_int value) as [e | cost]; [reflexivity |].
  rewrite bind_gets. destruct (gold (_ensure_inventory c).1 <? cost);
    [reflexivity |].
  rewrite bind_gets.
  destruct (MAX_INVENTORY_SIZE <=? Z.of_nat (length (items (_ensure_inventory c).1)));
    reflexivity.
Qed.

Section Capacity.
Variables (c : Character) (item_id : string) (item_data : gmap string pyval).
Hypothesis room : fits c.

Lemma fits_ensured : fits (_ensure_inventory c).1.
Proof. unfold fits. now rewrite ensured_items. Qed.

Lemma fits_add : fits (add_item_to_inventory item_id c).1.
Proof.
  destruct (le_lt_dec 20 (length (items c))) as [Hl | Hl].
  - now rewrite add_item_at_capacity.
  - rewrite add_item_below_capacity by exact Hl. unfold fits. cbn [fst].
    rewrite items_set_inventory, length_app. simpl. lia.
Qed.

Lemma fits_remove : fits (remove_item_from_inventory item_id c).1.
Proof.
  destruct (decide (item_id ∈ items c)) as [Hin | Hnot].
  - rewrite remove_item_from_inventory_present by exact Hin. unfold fits.
    cbn [fst]. rewrite items_set_inventory.
    pose proof (remove_first_length_le item_id (items c)).
    unfold fits in room. lia.
  - rewrite remove_item_from_inventory_absent by exact Hnot.
    apply fits_ensured.
Qed.

Lemma fits_use : fits (use_item item_id item_data c).1.
Proof.
  rewrite use_item_cases. cbv zeta. pose proof fits_ensured as H0.
  destruct (contains item_id (items c)); [| exact H0].
  destruct (_resolve_item_info item_id item_data) as [e | [d | a]];
    try exact H0.
  case_decide; [| exact H0].
  destruct (effect_of d) as [e | [stat value]]; [exact H0 |].
  destruct (apply_stat_effect stat value (_ensure_inventory c).1)
    as [c1 [e | []]] eqn:Ea;
    apply apply_stat_effect_keeps_slots in Ea as (Einv & _);
    unfold fits in *; cbn [fst]; rewrite ?items_set_inventory.
  - unfold items in *. now rewrite Einv.
  - pose proof (remove_first_length_le item_id (items c1)).
    unfold items in *. rewrite Einv in *. lia.
Qed.

Lemma fits_purchase : fits (purchase_item item_id item_data c).1.
Proof.
  rewrite purchase_item_cases. cbv zeta. pose proof fits_ensured as H0.
  destruct (_resolve_item_info item_id item_data) as [e | i]; [exact H0 |].
  destruct (subscript i "cost") as [e | value]; [exact H0 |].
  destruct (as_int value) as [e | cost]; [exact H0 |].
  destruct (gold (_ensure_inventory c).1 <? cost); [exact H0 |].
  unfold MAX_INVENTORY_SIZE.
  destruct (Z.leb_spec 20 (Z.of_nat (length (items (_ensure_inventory c).1))));
    [exact H0 |].
  unfold fits. cbn [fst]. rewrite items_set_inventory, length_app.
  cbn [length]. lia.
Qed.

Lemma fits_sell : fits (sell_item item_id item_data c).1.
Proof.
  rewrite sell_item_cases. cbv zeta. pose proof fits_ensured as H0.
  destruct (contains item_id (items c)); [| exact H0].
  destruct (_resolve_item_info item_id item_data) as [e | i]; [exact H0 |].
  destruct (subscript i "cost") as [e | value]; [exact H0 |].
  destruct (as_int value) as [e | cost]; [exact H0 |].
  unfold fits in *. cbn [fst].
  change (length (remove_first item_id (items (_ensure_inventory c).1)) <= 20)%nat.
  pose proof (remove_first_length_le item_id (items (_ensure_inventory c).1)).
  lia.
Qed.

Lemma fits_unequip_weapon : fits (unequip_weapon item_data c).1.
Proof.
  rewrite unequip_weapon_cases. cbv zeta. pose proof fits_ensured as H0.
  destruct (occupied _) as [w |]; [| exact H0].
  destruct (Z.leb_spec (get_inventory_space_remaining (_ensure_inventory c).1) 0)
    as [| Hsp]; [exact H0 |].
  destruct (apply_effect_if_any _ _ _) as [c1 [e | b]] eqn:Ea;
    apply apply_effect_if_any_items in Ea; unfold fits in *; cbn [fst].
  - now rewrite Ea.
  - rewrite items_set_equipped_weapon, items_set_inventory, length_app, Ea.
    unfold get_inventory_space_remaining, MAX_INVENTORY_SIZE in Hsp.
    cbn [length]. lia.
Qed.

Lemma fits_unequip_armor : fits (unequip_armor item_data c).1.
Proof.
  rewrite unequip_armor_cases. cbv zeta. pose proof fits_ensured as H0.
  destruct (occupied _) as [w |]; [| exact H0].
  destruct (Z.leb_spec (get_inventory_space_remaining (_ensure_inventory c).1) 0)
    as [| Hsp]; [exact H0 |].
  destruct (apply_effect_if_any _ _ _) as [c1 [e | b]] eqn:Ea;
    apply apply_effect_if_any_items in Ea; unfold fits in *; cbn [fst].
  - now rewrite Ea.
  - rewrite items_set_equipped_armor, items_set_inventory, length_app, Ea.
    unfold get_inventory_space_remaining, MAX_INVENTORY_SIZE in Hsp.
    cbn [length]. lia.
Qed.

(** X26. The capacity is an invariant.  From an inventory of at most 20
    items, none of adding, removing, using, buying, selling, taking off a
    weapon or an armor, or clearing leaves more than 20 items, whether the
    call returns or raises; nor does equipping a weapon or an armor when
    the call returns. *)
Theorem inventory_never_outgrows_capacity :
  fits (add_item_to_inventory item_id c).1 /\
  fits (remove_item_from_inventory item_id c).1 /\
  fits (use_item item_id item_data c).1 /\
  fits (purchase_item item_id item_data c).1 /\
  fits (sell_item item_id item_data c).1 /\
  fits (unequip_weapon item_data c).1 /\
  fits (unequip_armor item_data c).1 /\
  fits (clear_inventory c).1 /\
  (forall c', equip_weapon item_id item_data c = (c', inr tt) -> fits c') /\
  (forall c', equip_armor item_id item_data c = (c', inr tt) -> fits c').
Proof.
  split; [exact fits_add |]. split; [exact fits_remove |].
  split; [exact fits_use |]. split; [exact fits_purchase |].
  split; [exact fits_sell |]. split; [exact fits_unequip_weapon |].
  split; [exact fits_unequip_armor |].
  split; [rewrite clear_inventory_run; unfold fits; simpl; lia |].
  split; intros c' Hrun.
  - apply equip_weapon_returns in Hrun as (Hin & _ & _ & Hi).
    unfold fits in *. rewrite Hi.
    pose proof (swapped_length item_id (items c)
                  (occupied (equipped_weapon c)) Hin). lia.
  - apply equip_armor_returns in Hrun as (Hin & _ & _ & Hi).
    unfold fits in *. rewrite Hi.
    pose proof (swapped_length item_id (items c)
                  (occupied (equipped_armor c)) Hin). lia.
Qed.

End Capacity.

Lemma inventory_never_outgrows_capacity_witness :
  fits (add_item_to_inventory "potion"
          (set_inventory (Some (replicate 20 "potion")) hero)).1 /\
  fits (purchase_item "iron_sword" (table all_items)
          (set_inventory (Some (replicate 20 "potion")) hero)).1.
Proof.
  destruct (inventory_never_outgrows_capacity
              (set_inventory (Some (replicate 20 "potion")) hero)
              "potion" (table all_items)) as (H1 & _);
    [unfold fits; simpl; lia |].
  destruct (inventory_never_outgrows_capacity
              (set_inventory (Some (replicate 20 "potion")) hero)
              "iron_sword" (table all_items)) as (_ & _ & _ & H4 & _);
    [unfold fits; simpl; lia |].
  split; assumption.
Defined.

(* ===================================================================== *)
(** ** Strings and numbers                                               *)
(* ===================================================================== *)

Lemma parse_digits_uint d :
  forall acc after,
    parse_digits acc after (NilEmpty.string_of_uint d) =
      match d with
      | Decimal.Nil => if after then Some acc else None
      | _ => Some (uint_value acc d)
      end.
Proof.
  induction d; intros acc after; simpl; try reflexivity;
    rewrite IHd; unfold digit_value; simpl; rewrite ?Z.add_0_r;
    destruct d; reflexivity.
Qed.

Lemma uint_value_acc d :
  forall p, uint_value (Z.pos p) d = Z.pos (Pos.of_uint_acc d p).
Proof.
  induction d; intros p; simpl; try reflexivity;
    rewrite <- IHd; f_equal; lia.
Qed.

Lemma uint_value_of_uint d : uint_value 0 d = Z.of_N (Pos.of_uint d).
Proof.
  induction d; simpl; try reflexivity; try exact IHd;
    exact (uint_value_acc d _).
Qed.

Lemma uint_value_to_uint p : uint_value 0 (Pos.to_uint p) = Z.pos p.
Proof. now rewrite uint_value_of_uint, DecimalPos.Unsigned.of_to. Qed.

Section Strings.
Implicit Types (s t u : string) (a : ascii) (P : ascii -> Prop).

Lemma str_app_cons a s t : String a s ++ t = String a (s ++ t).
Proof. reflexivity. Qed.

Lemma str_app_nil_l s : "" ++ s = s.
Proof. reflexivity. Qed.

Lemma str_app_nil_r s : s ++ "" = s.
Proof. induction s; rewrite ?str_app_cons; [reflexivity | congruence]. Qed.

Lemma str_app_assoc s t u : (s ++ t) ++ u = s ++ t ++ u.
Proof. induction s; rewrite ?str_app_cons; [reflexivity | congruence]. Qed.

Lemma str_app_length s t :
  String.length (s ++ t) = (String.length s + String.length t)%nat.
Proof.
  induction s; rewrite ?str_app_cons; simpl; [reflexivity | congruence].
Qed.

Lemma rev_app_acc s : forall acc, String.rev_app s acc = String.rev s ++ acc.
Proof.
  unfold String.rev. induction s as [| a s IH]; intros acc; simpl.
  - reflexivity.
  - rewrite IH, (IH (String a "")), str_app_assoc. reflexivity.
Qed.

Lemma str_rev_cons a s : String.rev (String a s) = String.rev s ++ String a "".
Proof. unfold String.rev at 1. simpl. apply rev_app_acc. Qed.

Lemma str_rev_app s t : String.rev (s ++ t) = String.rev t ++ String.rev s.
Proof.
  induction s as [| a s IH].
  - now rewrite str_app_nil_l, str_app_nil_r.
  - now rewrite str_app_cons, !str_rev_cons, IH, str_app_assoc.
Qed.

Lemma str_rev_involutive s : String.rev (String.rev s) = s.
Proof.
  induction s as [| a s IH]; [reflexivity |].
  now rewrite str_rev_cons, str_rev_app, IH.
Qed.

Lemma str_rev_length s : String.length (String.rev s) = String.length s.
Proof.
  induction s as [| a s IH]; [reflexivity |].
  rewrite str_rev_cons, str_app_length, IH. simpl. lia.
Qed.

Lemma str_rev_nil s : String.rev s = "" -> s = "".
Proof.
  intros E. apply (f_equal String.length) in E.
  rewrite str_rev_length in E. now destruct s.
Qed.

Lemma each_app P s t : each P (s ++ t) <-> each P s /\ each P t.
Proof.
  induction s; rewrite ?str_app_cons, ?str_app_nil_l; simpl; tauto.
Qed.

Lemma each_impl P (Q : ascii -> Prop) s :
  (forall a, P a -> Q a) -> each P s -> each Q s.
Proof. intros H. induction s; simpl; [auto | intros []; auto]. Qed.

Lemma each_rev P s : each P (String.rev s) <-> each P s.
Proof.
  induction s as [| a s IH]; [reflexivity |].
  rewrite str_rev_cons, each_app. simpl. tauto.
Qed.

Lemma lstrip_length s : (String.length (lstrip s) <= String.length s)%nat.
Proof.
  induction s as [| a s IH]; simpl; [lia |].
  destruct (is_space a); simpl; lia.
Qed.

Lemma lstrip_same_length s :
  String.length (lstrip s) = String.length s -> lstrip s = s.
Proof.
  destruct s as [| a s]; simpl; [reflexivity |].
  destruct (is_space a); [| reflexivity].
  pose proof (lstrip_length s). simpl. lia.
Qed.

(** A string that [strip] leaves alone has no blank at either end. *)
Lemma strip_fixed s :
  strip s = s <-> lstrip s = s /\ lstrip (String.rev s) = String.rev s.
Proof.
  unfold strip. split.
  - intros E.
    pose proof (f_equal String.length E) as L.
    rewrite str_rev_length in L.
    pose proof (lstrip_length (String.rev (lstrip s))) as L1.
    rewrite str_rev_length in L1.
    pose proof (lstrip_length s) as L2.
    assert (lstrip s = s) as E1 by (apply lstrip_same_length; lia).
    split; [exact E1 |].
    apply lstrip_same_length. rewrite E1 in L.
    now rewrite str_rev_length.
  - intros [-> ->]. apply str_rev_involutive.
Qed.

Lemma lstrip_app s t : lstrip s = s -> s <> "" -> lstrip (s ++ t) = s ++ t.
Proof.
  destruct s as [| a s]; [congruence |]. rewrite str_app_cons. simpl.
  destruct (is_space a) eqn:E; [| reflexivity].
  intros H. pose proof (lstrip_length s) as L.
  apply (f_equal String.length) in H. simpl in H. lia.
Qed.

(** Stripping a text that begins and ends with what [strip] leaves
    alone. *)
Lemma strip_app s t :
  lstrip s = s -> s <> "" ->
  lstrip (String.rev t) = String.rev t -> t <> "" ->
  strip (s ++ t) = s ++ t.
Proof.
  intros Hs Hs' Ht Ht'. unfold strip.
  rewrite (lstrip_app s t Hs Hs'), str_rev_app, lstrip_app, <- str_rev_app;
    [apply str_rev_involutive | exact Ht |].
  intros E. apply str_rev_nil in E. contradiction.
Qed.

End Strings.

Section Numbers.
Implicit Types (s : string) (a : ascii) (d : Decimal.uint) (z : Z).

Lemma digit_is_no_space a : is_digit a = true -> is_space a = false.
Proof.
  destruct a as [[] [] [] [] [] [] [] []]; vm_compute; congruence.
Qed.

Lemma digit_is_no_colon a : is_digit a = true -> a <> ":"%char.
Proof.
  destruct a as [[] [] [] [] [] [] [] []]; vm_compute; congruence.
Qed.

Lemma string_of_uint_digits d :
  each (fun a => is_digit a = true) (NilEmpty.string_of_uint d).
Proof. induction d; simpl; auto. Qed.

Lemma solid_strip s : each (fun a => is_space a = false) s -> strip s = s.
Proof.
  intros H. apply strip_fixed. split.
  - destruct s as [| a s]; [reflexivity |]. destruct H as [H _].
    simpl. now rewrite H.
  - apply each_rev in H. destruct (String.rev s) as [| a r]; [reflexivity |].
    destruct H as [H _]. simpl. now rewrite H.
Qed.

Lemma py_str_solid z : each (fun a => is_space a = false) (py_str z).
Proof.
  unfold py_str.
  destruct z as [| p | p]; simpl; [auto | | split; [reflexivity |]];
    (eapply each_impl; [apply digit_is_no_space | apply string_of_uint_digits]).
Qed.

Lemma py_int_digits d :
  d <> Decimal.Nil ->
  py_int (NilEmpty.string_of_uint d) = Some (uint_value 0 d).
Proof.
  intros Hd. unfold py_int. rewrite solid_strip
    by (eapply each_impl; [apply digit_is_no_space | apply string_of_uint_digits]).
  pose proof (parse_digits_uint d 0 false) as E.
  destruct d; try contradiction; exact E.
Qed.

(** [int(str(z))] is [z]. *)
Lemma py_int_str z : py_int (py_str z) = Some z.
Proof.
  destruct z as [| p | p]; [reflexivity | |].
  - unfold py_str. simpl.
    rewrite py_int_digits by apply DecimalPos.Unsigned.to_uint_nonnil.
    now rewrite uint_value_to_uint.
  - unfold py_int. rewrite solid_strip by apply py_str_solid.
    unfold py_str. simpl.
    pose proof (parse_digits_uint (Pos.to_uint p) 0 false) as E.
    pose proof (DecimalPos.Unsigned.to_uint_nonnil p) as Hd.
    destruct (Pos.to_uint p) eqn:Ep; try contradiction;
      rewrite E, <- Ep, uint_value_to_uint; reflexivity.
Qed.

Lemma py_int_plus_str z : 0 <= z -> py_int (String "+" (py_str z)) = Some z.
Proof.
  intros Hz. unfold py_int.
  rewrite solid_strip by (split; [reflexivity | apply py_str_solid]).
  destruct z as [| p | p]; [reflexivity | | lia].
  unfold py_str. simpl.
  pose proof (parse_digits_uint (Pos.to_uint p) 0 false) as E.
  pose proof (DecimalPos.Unsigned.to_uint_nonnil p) as Hd.
  destruct (Pos.to_uint p) eqn:Ep; try contradiction;
    rewrite E, <- Ep, uint_value_to_uint; reflexivity.
Qed.

Lemma py_str_not_empty z : py_str z <> "".
Proof.
  unfold py_str. destruct z as [| p | p]; simpl; try discriminate.
  pose proof (DecimalPos.Unsigned.to_uint_nonnil p).
  destruct (Pos.to_uint p); try contradiction; discriminate.
Qed.

Lemma split_colon_none s : lacks ":" s -> split_colon s = None.
Proof.
  induction s as [| a s IH]; [reflexivity |]. intros [Ha Hs]. simpl.
  destruct (decide (a = ":"%char)); [contradiction |]. now rewrite IH.
Qed.

Lemma split_colon_app s value :
  lacks ":" s -> split_colon (s ++ String ":" value) = Some (s, value).
Proof.
  induction s as [| a s IH]; [reflexivity |]. intros [Ha Hs].
  rewrite str_app_cons. simpl.
  destruct (decide (a = ":"%char)); [contradiction |]. now rewrite IH.
Qed.

Lemma split_colon_some s l r :
  split_colon s = Some (l, r) -> s = l ++ String ":" r /\ lacks ":" l.
Proof.
  revert l. induction s as [| a s IH]; intros l; simpl; [discriminate |].
  destruct (decide (a = ":"%char)) as [-> | Ha].
  - intros [= <- <-]. split; [reflexivity | exact I].
  - destruct (split_colon s) as [[l' r'] |]; [| discriminate].
    intros [= <- <-]. destruct (IH l' eq_refl) as [-> Hl].
    split; [reflexivity | split; assumption].
Qed.

Lemma lacks_lstrip a s : is_space a = false -> lacks a (lstrip s) -> lacks a s.
Proof.
  intros Ha. induction s as [| b s IH]; simpl; [auto |].
  destruct (is_space b) eqn:Eb; [| auto].
  intros H. split; [congruence | exact (IH H)].
Qed.

Lemma lacks_strip a s : is_space a = false -> lacks a (strip s) -> lacks a s.
Proof.
  intros Ha H. unfold strip, lacks in H.
  apply (proj1 (each_rev _ _)), (lacks_lstrip a _ Ha) in H.
  apply (proj1 (each_rev _ _)) in H.
  now apply (lacks_lstrip a _ Ha).
Qed.

Lemma parse_digits_no_colon s :
  forall acc after z, parse_digits acc after s = Some z -> lacks ":" s.
Proof.
  induction s as [| a s IH]; intros acc after z; simpl; [intros; exact I |].
  destruct (is_digit a) eqn:Ea.
  - intros H. split; [now apply digit_is_no_colon | exact (IH _ _ _ H)].
  - destruct (decide (a = "_"%char)) as [-> | _]; [| discriminate].
    destruct after; [| discriminate].
    intros H. split; [discriminate | exact (IH _ _ _ H)].
Qed.

(** [int()] accepts no text with a colon in it. *)
Lemma py_int_no_colon s t z : py_int (s ++ String ":" t) <> Some z.
Proof.
  intros E.
  assert (lacks ":" (strip (s ++ String ":" t))) as H.
  { unfold py_int in E.
    destruct (strip (s ++ String ":" t)) as [| a r]; [exact I |].
    assert (a = "+"%char \/ a = "-"%char \/
            parse_digits 0 false (String a r) = Some z) as [-> | [-> | E']].
    { destruct a as [[] [] [] [] [] [] [] []]; auto. }
    - split; [discriminate |]. eapply parse_digits_no_colon, E.
    - split; [discriminate |].
      destruct (parse_digits 0 false r) eqn:Er; [| discriminate].
      eapply parse_digits_no_colon, Er.
    - eapply parse_digits_no_colon, E'. }
  apply lacks_strip in H; [| reflexivity].
  apply each_app in H as [_ [H _]]. now apply H.
Qed.

End Numbers.


(* ===================================================================== *)
(** ** Saving and loading a character                                    *)
(* ===================================================================== *)

Section SaveFile.
Implicit Types (s key value rest : string) (l : list string).

Lemma universal_newlines_id s : lacks cr s -> universal_newlines s = s.
Proof.
  induction s as [| a s IH]; [reflexivity |]. intros [Ha Hs]. simpl.
  destruct (decide (a = cr)); [contradiction |]. now rewrite IH.
Qed.

Lemma readlines_line s rest :
  lacks lf s -> readlines (s ++ nl ++ rest) = (s ++ nl) :: readlines rest.
Proof.
  induction s as [| a s IH]; [reflexivity |]. intros [Ha Hs].
  rewrite !str_app_cons. simpl.
  destruct (decide (a = lf)); [contradiction |]. now rewrite IH.
Qed.

Lemma split_colon_space_app key value :
  lacks ":" key ->
  split_colon_space (key ++ String ":" (String " " value)) = Some (key, value).
Proof.
  induction key as [| a key IH]; [reflexivity |]. intros [Ha Hs].
  rewrite str_app_cons. simpl.
  destruct (decide (a = ":"%char)); [contradiction |]. now rewrite IH.
Qed.

Lemma split_colon_space_end key :
  lacks ":" key -> split_colon_space (key ++ ":") = None.
Proof.
  induction key as [| a key IH]; [reflexivity |]. intros [Ha Hs].
  rewrite str_app_cons. simpl.
  destruct (decide (a = ":"%char)); [contradiction |]. now rewrite IH.
Qed.

(** The line of a field, stripped. *)
Lemma strip_field_line key value :
  lstrip key = key -> key <> "" -> strip value = value ->
  strip (field_line key value) =
    if decide (value = "") then key ++ ":" else key ++ ": " ++ value.
Proof.
  intros Hk Hk' Hv. apply strip_fixed in Hv as [Hv Hr].
  unfold field_line, strip.
  rewrite (lstrip_app key _ Hk Hk').
  rewrite <- !str_app_assoc, (str_rev_app _ nl).
  change (lstrip (String.rev nl ++ ?x)) with (lstrip x).
  rewrite str_app_assoc.
  destruct (decide (value = "")) as [-> | Hne].
  - rewrite str_app_nil_r, str_rev_app.
    change (lstrip (String.rev ": " ++ ?x)) with (String ":" x).
    now rewrite str_rev_cons, str_rev_involutive.
  - rewrite (str_rev_app key), (str_rev_app ": "), str_app_assoc, lstrip_app.
    + now rewrite <- str_app_assoc, <- !str_rev_app, str_rev_involutive.
    + exact Hr.
    + intros E. apply str_rev_nil in E. contradiction.
Qed.

(** What the loop of [load_character] makes of the line of a field. *)
Lemma load_line_field key value (d : gmap string saved) :
  key <> "" -> each (fun a => is_space a = false) key -> lacks ":" key ->
  strip value = value ->
  load_line (field_line key value) d =
    if decide (key ∈ list_keys) then
      inr (<[lower key :=
               SList (if decide (value = "") then []
                      else filter (fun v => v <> "") (split_commas value))]> d)
    else if decide (key ∈ int_keys) then
      match py_int value with
      | Some z => inr (<[lower key := SInt z]> d)
      | None => inl InvalidSaveDataError
      end
    else inr (<[lower key := SStr value]> d).
Proof.
  intros Hne Hsolid Hcolon Hv.
  pose proof (solid_strip key Hsolid) as Hk.
  pose proof (proj1 (strip_fixed key) Hk) as [Hl _].
  unfold load_line. cbv zeta.
  rewrite (strip_field_line key value Hl Hne Hv).
  destruct (decide (value = "")) as [-> | Hvne].
  - destruct (decide (key ++ ":" = "")) as [E | _];
      [destruct key; [contradiction | discriminate] |].
    rewrite (split_colon_app key "" Hcolon), split_colon_space_end by exact Hcolon.
    cbn [fst snd lstrip]. rewrite Hk.
    change (strip "") with "". reflexivity.
  - destruct (decide (key ++ ": " ++ value = "")) as [E | _];
      [destruct key; [contradiction | discriminate] |].
    change (key ++ ": " ++ value) with (key ++ String ":" (String " " value)).
    rewrite (split_colon_app key _ Hcolon), split_colon_space_app by exact Hcolon.
    cbn [fst snd]. rewrite Hk, Hv.
    destruct (decide (value = "")); [contradiction | reflexivity].
Qed.

Lemma split_commas_one s : lacks "," s -> split_commas s = [s].
Proof.
  induction s as [| a s IH]; [reflexivity |]. intros [Ha Hs]. simpl.
  destruct (decide (a = ","%char)); [contradiction |]. now rewrite IH.
Qed.

Lemma split_commas_app s rest :
  lacks "," s -> split_commas (s ++ "," ++ rest) = s :: split_commas rest.
Proof.
  induction s as [| a s IH]; [reflexivity |]. intros [Ha Hs].
  rewrite str_app_cons. simpl.
  destruct (decide (a = ","%char)); [contradiction |]. now rewrite IH.
Qed.

Lemma split_commas_concat l :
  Forall (lacks ",") l -> l <> [] -> split_commas (String.concat "," l) = l.
Proof.
  induction l as [| x [| y l] IH]; [congruence | |]; intros H _.
  - apply split_commas_one. now inversion H.
  - inversion H as [| ? ? Hx Hl]; subst.
    change (String.concat "," (x :: y :: l))
      with (x ++ "," ++ String.concat "," (y :: l)).
    rewrite split_commas_app by exact Hx. now rewrite IH.
Qed.

(** The text of a list of items that survive is not empty and survives. *)
Lemma concat_survives l :
  Forall item_survives l -> l <> [] ->
  String.concat "," l <> "" /\ survives (String.concat "," l).
Proof.
  induction l as [| x [| y l] IH]; [congruence | |]; intros H _.
  - inversion H as [| ? ? (Hne & Hs & _) _]; subst. simpl. auto.
  - inversion H as [| ? ? (Hne & (Hs & Hlf & Hcr) & _) Hl]; subst.
    destruct IH as (Hne' & Hs' & Hlf' & Hcr'); [exact Hl | discriminate |].
    change (String.concat "," (x :: y :: l))
      with (x ++ "," ++ String.concat "," (y :: l)).
    apply strip_fixed in Hs as [Hs _]. apply strip_fixed in Hs' as [_ Hs'].
    split; [destruct x; [contradiction | discriminate] |].
    split; [| split; unfold lacks in *; rewrite !each_app; simpl;
                repeat split; auto; discriminate].
    apply strip_app; [exact Hs | exact Hne | | discriminate].
    rewrite str_rev_app. apply lstrip_app; [exact Hs' |].
    intros E. apply str_rev_nil in E. contradiction.
Qed.

Lemma list_text_survives l : Forall item_survives l -> survives (list_text l).
Proof.
  destruct l as [| x l]; [intros _; repeat split |].
  intros H. now apply concat_survives.
Qed.

(** A list of items that survive is read back from its text. *)
Lemma list_text_read l :
  Forall item_survives l ->
  (if decide (list_text l = "") then []
   else filter (fun v => v <> "") (split_commas (list_text l))) = l.
Proof.
  destruct l as [| x l]; [reflexivity |]. intros H.
  destruct (concat_survives (x :: l) H) as [Hne _]; [discriminate |].
  unfold list_text. destruct (decide _) as [E | _]; [contradiction |].
  rewrite split_commas_concat;
    [| eapply Forall_impl; [exact H | intros ? (_ & _ & ?); assumption]
     | discriminate].
  clear Hne. induction H as [| y l' (Hy & _) _ IH]; [reflexivity |].
  rewrite filter_cons_True by exact Hy. now rewrite IH.
Qed.

Lemma py_str_survives z : survives (py_str z).
Proof.
  pose proof (py_str_solid z) as H.
  split; [now apply solid_strip |].
  split; (eapply each_impl; [| exact H]); intros a Ha ->; discriminate.
Qed.

End SaveFile.

Section SaveAndLoad.
Implicit Types (key value rest : string) (d : gmap string saved).

Lemma text_field_lacks a key value rest :
  lacks a key -> lacks a value -> a <> ":"%char -> a <> " "%char -> a <> lf ->
  lacks a rest -> lacks a (field_line key value ++ rest).
Proof.
  intros Hk Hv H1 H2 H3 Hr. unfold field_line, lacks in *.
  rewrite !each_app. simpl. auto 10.
Qed.

Lemma readlines_field key value rest :
  lacks lf key -> lacks lf value ->
  readlines (field_line key value ++ rest) =
    field_line key value :: readlines rest.
Proof.
  intros Hk Hv. unfold field_line.
  replace ((key ++ ": " ++ value ++ nl) ++ rest)
    with ((key ++ ": " ++ value) ++ nl ++ rest)
    by now rewrite !str_app_assoc.
  rewrite readlines_line.
  - now rewrite !str_app_assoc.
  - unfold lacks in *. rewrite !each_app. simpl.
    repeat split; auto; discriminate.
Qed.

(** The keys of a save file are words without a blank or a colon. *)
Lemma key_is_a_word key :
  key ∈ (["NAME"; "CLASS"] ++ int_keys ++ list_keys)%list ->
  key <> "" /\ each (fun a => is_space a = false) key /\ lacks ":" key /\
  one_line key.
Proof.
  intros H. unfold int_keys, list_keys in H.
  repeat (apply elem_of_cons in H as [-> | H];
          [repeat split; discriminate |]).
  now apply elem_of_nil in H.
Qed.

Lemma load_line_str key value d :
  key ∈ ["NAME"; "CLASS"] -> strip value = value ->
  load_line (field_line key value) d = inr (<[lower key := SStr value]> d).
Proof.
  intros H Hv.
  destruct (key_is_a_word key) as (H1 & H2 & H3 & _);
    [apply elem_of_app; now left |].
  rewrite load_line_field by assumption.
  repeat (apply elem_of_cons in H as [-> | H]; [reflexivity |]).
  now apply elem_of_nil in H.
Qed.

Lemma load_line_int key z d :
  key ∈ int_keys ->
  load_line (field_line key (py_str z)) d = inr (<[lower key := SInt z]> d).
Proof.
  intros H.
  destruct (key_is_a_word key) as (H1 & H2 & H3 & _);
    [apply elem_of_app; right; apply elem_of_app; now left |].
  rewrite load_line_field by (try assumption; apply py_str_survives).
  rewrite py_int_str. unfold int_keys in H.
  repeat (apply elem_of_cons in H as [-> | H]; [reflexivity |]).
  now apply elem_of_nil in H.
Qed.

Lemma load_line_list key l d :
  key ∈ list_keys -> Forall item_survives l ->
  load_line (field_line key (list_text l)) d = inr (<[lower key := SList l]> d).
Proof.
  intros H Hl.
  destruct (key_is_a_word key) as (H1 & H2 & H3 & _);
    [apply elem_of_app; right; apply elem_of_app; now right |].
  rewrite load_line_field by (try assumption; now apply list_text_survives).
  rewrite list_text_read by exact Hl. unfold list_keys in H.
  repeat (apply elem_of_cons in H as [-> | H]; [reflexivity |]).
  now apply elem_of_nil in H.
Qed.

End SaveAndLoad.

Lemma validate_fields (c : Character) (inv : list string) :
  inventory c = Some inv -> validate_character_data (fields c) = inr true.
Proof. intros E. unfold fields. rewrite E. reflexivity. Qed.

Lemma save_text_lines (c : Character) :
  survives (name c) -> survives (class c) ->
  Forall item_survives (items c) ->
  Forall item_survives (active_quests c) ->
  Forall item_survives (completed_quests c) ->
  readlines (universal_newlines (save_text c)) =
    [field_line "NAME" (name c);
     field_line "CLASS" (class c);
     field_line "LEVEL" (py_str (level c));
     field_line "HEALTH" (py_str (health c));
     field_line "MAX_HEALTH" (py_str (max_health c));
     field_line "STRENGTH" (py_str (strength c));
     field_line "MAGIC" (py_str (magic c));
     field_line "EXPERIENCE" (py_str (experience c));
     field_line "GOLD" (py_str (gold c));
     field_line "INVENTORY" (list_text (items c));
     field_line "ACTIVE_QUESTS" (list_text (active_quests c));
     field_line "COMPLETED_QUESTS" (list_text (completed_quests c))].
Proof.
  intros (_ & Hn & Hn') (_ & Hc & Hc') Hi Ha Hq.
  apply list_text_survives in Hi as (_ & Hi & Hi').
  apply list_text_survives in Ha as (_ & Ha & Ha').
  apply list_text_survives in Hq as (_ & Hq & Hq').
  pose proof (fun z => proj2 (py_str_survives z)) as Hz.
  unfold save_text, write_all.
  rewrite universal_newlines_id
    by (repeat (apply text_field_lacks;
                [repeat split; discriminate | try apply Hz; assumption
                | discriminate | discriminate | discriminate |]); exact I).
  repeat (rewrite readlines_field
            by (try apply Hz; try assumption; repeat split; discriminate)).
  reflexivity.
Qed.



(* ===================================================================== *)
(** ** The item file                                                     *)
(* ===================================================================== *)

Section ItemFile.
Implicit Types (line : string) (lines block : list string)
  (item : list (string * atom)) (d : gmap string atom)
  (t : gmap string (gmap string atom)).

Lemma parse_item_line_exn line item e :
  parse_item_line line item = inl e -> e = InvalidDataFormatError.
Proof.
  unfold parse_item_line.
  destruct (decide (strip line = "")); [discriminate |].
  destruct (split_colon_space (strip line)) as [[key value] |]; [| congruence].
  destruct (decide (key = "COST")); [| discriminate].
  destruct (py_int value); [discriminate | congruence].
Qed.

Lemma parse_item_lines_exn lines :
  forall item e,
    parse_item_lines lines item = inl e -> e = InvalidDataFormatError.
Proof.
  induction lines as [| line lines IH]; intros item e; simpl; [discriminate |].
  destruct (parse_item_line line item) as [e' | item'] eqn:E.
  - intros [= <-]. eapply parse_item_line_exn, E.
  - apply IH.
Qed.

(** One line without [": "] spoils its block. *)
Lemma parse_item_lines_bad lines line :
  line ∈ lines -> strip line <> "" -> split_colon_space (strip line) = None ->
  forall item, parse_item_lines lines item = inl InvalidDataFormatError.
Proof.
  intros Hin Hne Hbad.
  induction lines as [| l lines IH]; [now apply elem_of_nil in Hin |].
  intros item. simpl.
  destruct (parse_item_line l item) as [e | item'] eqn:E.
  - now rewrite (parse_item_line_exn _ _ _ E).
  - apply elem_of_cons in Hin as [<- | Hin]; [| now apply IH].
    unfold parse_item_line in E.
    destruct (decide (strip line = "")); [contradiction |].
    rewrite Hbad in E. discriminate.
Qed.

(** What [validate_item_data] has checked when it returns. *)
Lemma validate_item_data_ok d b :
  validate_item_data d = inr b ->
  b = true /\
  (exists item_id, d !! "item_id" = Some (AStr item_id)) /\
  (exists type, d !! "type" = Some (AStr type) /\ type ∈ valid_types) /\
  (exists effect, d !! "effect" = Some (AStr effect)) /\
  (exists cost, d !! "cost" = Some (AInt cost)).
Proof.
  unfold validate_item_data, required_fields. cbn [forallb fst snd].
  destruct (d !! "item_id") as [[item_id |] |]; try discriminate.
  destruct (d !! "name") as [[name |] |]; try discriminate.
  destruct (d !! "type") as [[type |] |]; try discriminate.
  destruct (d !! "effect") as [[effect |] |]; try discriminate.
  destruct (d !! "cost") as [[| cost] |]; try discriminate.
  destruct (d !! "description") as [[description |] |]; try discriminate.
  cbn. destruct (decide (type ∈ valid_types)); [| discriminate].
  intros [= <-]. eauto 10.
Qed.

Lemma validate_item_data_exn d e :
  validate_item_data d = inl e -> e = InvalidDataFormatError.
Proof.
  unfold validate_item_data.
  destruct (negb _); [congruence |].
  destruct (d !! "type") as [[type |] |]; try congruence.
  destruct (decide _); congruence.
Qed.

Lemma load_item_blocks_exn lines :
  forall block t e,
    load_item_blocks lines block t = inl e -> e = InvalidDataFormatError.
Proof.
  induction lines as [| line lines IH]; intros block t e; simpl;
    [discriminate |].
  destruct (decide (strip line = "")); [| apply IH].
  destruct block as [| l block]; [apply IH |].
  destruct (parse_item_block (l :: block)) as [e' | raw] eqn:E.
  { intros [= <-]. eapply parse_item_lines_exn, E. }
  cbv zeta.
  destruct (validate_item_data (lower_keys raw)) as [e' | b] eqn:Ev.
  { intros [= <-]. eapply validate_item_data_exn, Ev. }
  destruct (validate_item_data_ok _ _ Ev) as (_ & [item_id ->] & _).
  apply IH.
Qed.

Lemma load_item_blocks_valid lines :
  forall block t t',
    (forall item_id d, t !! item_id = Some d -> valid_item item_id d) ->
    load_item_blocks lines block t = inr t' ->
    forall item_id d, t' !! item_id = Some d -> valid_item item_id d.
Proof.
  induction lines as [| line lines IH]; intros block t t' Ht; simpl.
  { now intros [= <-]. }
  destruct (decide (strip line = "")); [| now apply IH].
  destruct block as [| l block]; [now apply IH |].
  destruct (parse_item_block (l :: block)) as [e' | raw]; [discriminate |].
  cbv zeta.
  destruct (validate_item_data (lower_keys raw)) as [e' | b] eqn:Ev;
    [discriminate |].
  destruct (validate_item_data_ok _ _ Ev) as (-> & [id Eid] & _).
  rewrite Eid. apply IH. intros item_id d.
  destruct (decide (id = item_id)) as [<- | Hne].
  - rewrite lookup_insert_eq. intros [= <-]. now split.
  - rewrite lookup_insert_ne by exact Hne. apply Ht.
Qed.

Lemma load_items_valid filename (fs : files) t item_id d :
  load_items filename fs = inr t -> t !! item_id = Some d ->
  valid_item item_id d.
Proof.
  unfold load_items. destruct (fs !! filename) as [text |]; [| discriminate].
  intros Hload. eapply load_item_blocks_valid; [| exact Hload].
  intros id d'. now rewrite lookup_empty.
Qed.

End ItemFile.


Section Trading.
Implicit Types (d : gmap string atom) (c : Character).

Lemma resolve_single item_id d :
  is_Some (d !! "type") ->
  _resolve_item_info item_id (single d) = inr (InfoDict (single d)).
Proof.
  intros [ty H]. unfold _resolve_item_info, single.
  rewrite lookup_fmap, H. reflexivity.
Qed.

Lemma resolve_table item_id d (t : gmap string (gmap string atom)) :
  t !! "type" = None -> t !! item_id = Some d ->
  _resolve_item_info item_id (table t) = inr (InfoDict (single d)).
Proof.
  intros Hty H. unfold _resolve_item_info, table.
  rewrite !lookup_fmap, Hty, H. reflexivity.
Qed.

Lemma subscript_single d key a :
  d !! key = Some a -> subscript (InfoDict (single d)) key = inr (VAtom a).
Proof. intros H. unfold subscript, single. now rewrite lookup_fmap, H. Qed.

End Trading.

(** X30. The items that [load_items] returns can be traded.  Each record
    of the table is filed under its own [item_id], has a type that is
    weapon, armor or consumable, an effect that is a string and a cost that
    is an integer.  So with such a record [purchase_item] returns or raises
    [InsufficientResourcesError] or [InventoryFullError], and nothing else,
    and [sell_item] pays half the cost for a carried item; and the table
    itself can be passed in place of the record as long as no item is
    called ["type"]. *)
Theorem loaded_items_can_be_traded (filename : string) (fs : files)
  (t : gmap string (gmap string atom)) (item_id : string)
  (d : gmap string atom) (c : Character) :
  load_items filename fs = inr t ->
  t !! item_id = Some d ->
  d !! "item_id" = Some (AStr item_id) /\
  (exists type, d !! "type" = Some (AStr type) /\
                type ∈ ["weapon"; "armor"; "consumable"]) /\
  (exists effect, d !! "effect" = Some (AStr effect)) /\
  exists cost,
    d !! "cost" = Some (AInt cost) /\
    (purchase_item item_id (single d) c).2 ∈
      [inr true; inl InsufficientResourcesError; inl InventoryFullError] /\
    (item_id ∈ items c ->
     (sell_item item_id (single d) c).2 = inr (cost / 2)) /\
    (t !! "type" = None ->
     purchase_item item_id (table t) c = purchase_item item_id (single d) c /\
     sell_item item_id (table t) c = sell_item item_id (single d) c).
Proof.
  intros Hload Hd.
  destruct (load_items_valid _ _ _ _ _ Hload Hd) as [Hid Hval].
  destruct (validate_item_data_ok _ _ Hval)
    as (_ & _ & (type & Hty & Hin) & Heff & (cost & Hcost)).
  split; [exact Hid |]. split; [eauto |]. split; [exact Heff |].
  exists cost. split; [exact Hcost |].
  pose proof (resolve_single item_id d (ex_intro _ _ Hty)) as Hres.
  pose proof (subscript_single d "cost" _ Hcost) as Hsub.
  split; [| split].
  - rewrite purchase_item_cases, Hres, Hsub. cbn [as_int]. cbv zeta.
    destruct (_ <? _); [cbn; repeat constructor |].
    destruct (_ <=? _); cbn; repeat constructor.
  - intros Hcarried. apply contains_true in Hcarried.
    rewrite sell_item_cases, Hcarried, Hres, Hsub. reflexivity.
  - intros Hnotype.
    rewrite !purchase_item_cases, !sell_item_cases, Hres.
    now rewrite (resolve_table item_id d t Hnotype Hd).
Qed.

Lemma loaded_items_can_be_traded_witness :
  health_potion !! "item_id" = Some (AStr "item_001") /\
  (exists type, health_potion !! "type" = Some (AStr type) /\
                type ∈ ["weapon"; "armor"; "consumable"]) /\
  (exists effect, health_potion !! "effect" = Some (AStr effect)) /\
  exists cost,
    health_potion !! "cost" = Some (AInt cost) /\
    (purchase_item "item_001" (single health_potion) hero).2 ∈
      [inr true; inl InsufficientResourcesError; inl InventoryFullError] /\
    ("item_001" ∈ items hero ->
     (sell_item "item_001" (single health_potion) hero).2 = inr (cost / 2)) /\
    (item_table !! "type" = None ->
     purchase_item "item_001" (table item_table) hero =
       purchase_item "item_001" (single health_potion) hero /\
     sell_item "item_001" (table item_table) hero =
       sell_item "item_001" (single health_potion) hero).
Proof.
  apply (loaded_items_can_be_traded "data/items.txt"
           (<["data/items.txt" := item_file]> ∅) item_table "item_001"
           health_potion hero);
    vm_compute; reflexivity.
Defined.
